(** * NEET OMR evaluator: a model of [server/utils/neetOmrEvaluator.js]

    The evaluator grades a multiple-choice submission against an answer key.
    This file embeds the JavaScript of [evaluateNeetOMR] and [getSubject] and
    proves the properties the specification states about them. *)

From stdpp Require Import base option list numbers strings gmap pretty.
From Stdlib Require Import QArith Qcanon ZArith Lia Ascii.

Local Open Scope Z_scope.

(** ** JavaScript numbers

    A JavaScript number is [NaN], one of the two infinities, or a finite
    value.  The evaluator never does arithmetic on a question number: it
    tests it for finiteness, compares it with the integer band limits and
    uses it as a [Map] key.  Finite values are therefore carried as
    canonical rationals: every finite double is one, order and equality of
    doubles are order and equality of the rationals they denote, and the two
    zeros, which [Map] keys and comparisons identify, are one value here. *)

Inductive number :=
  | NaN
  | PosInfinity
  | NegInfinity
  | Finite (q : Qc).

Global Instance number_eq_dec : EqDecision number.
Proof. solve_decision. Defined.

(** The number an integer literal of the source denotes. *)
Definition int (z : Z) : number := Finite (Qc_of_Z z).

(** [Number.isFinite(n)]. *)
Definition Number_isFinite (n : number) : bool :=
  match n with
  | Finite _ => true
  | _ => false
  end.

(** [a <= b] on numbers: false as soon as one side is [NaN]. *)
Definition number_le (a b : number) : bool :=
  match a, b with
  | NaN, _ | _, NaN => false
  | NegInfinity, _ => true
  | _, PosInfinity => true
  | Finite x, Finite y => bool_decide (x ≤ y)%Qc
  | _, _ => false
  end.

(** [a >= b]. *)
Definition number_ge (a b : number) : bool := number_le b a.

(** ** Subject banding: [getSubject] *)

Definition getSubject (questionNumber : number) : string :=
  if number_ge questionNumber (int 1) && number_le questionNumber (int 50)
  then "Physics"
  else if number_ge questionNumber (int 51) && number_le questionNumber (int 100)
  then "Chemistry"
  else "Biology".

(** ** Primitive values and rows

    The fields of a row hold JavaScript primitives (what the scalars of a
    JSON body parse to, plus [undefined] for a field that is missing).  An
    element of an input array is an object with such fields, or a primitive
    itself: [null] in place of a row is how a caller breaks the declared
    record shape.  Objects are finite maps from property names to values;
    rows whose fields are themselves arrays or objects are outside the
    declared shapes and outside this model; the evaluator on such rows is
    embedded in [Json] below, and shown to be this one on the rows of this
    model. *)

Inductive prim :=
  | VUndefined
  | VNull
  | VBool (b : bool)
  | VNumber (n : number)
  | VString (s : string).

Global Instance prim_eq_dec : EqDecision prim.
Proof. solve_decision. Defined.

Inductive value :=
  | Prim (p : prim)
  | Obj (o : gmap string prim).

(** ** The runtime's conversions

    Three built-ins of the JavaScript runtime are used by the evaluator on
    arbitrary text: the numeric reading of a string inside [Number(...)], the
    printing of a number inside [String(...)], and
    [String.prototype.toUpperCase].  The evaluator is modelled over any
    runtime; [sampleRuntime] below is one to compute with. *)

Class Runtime := {
  StringToNumber : string → number;
  NumberToString : number → string;
  toUpperCase : string → string;
}.

(** An abrupt completion of the evaluator is a thrown [TypeError].  On rows
    whose fields are primitives the only operation of the source that can
    throw is a property read on [null] or [undefined]; on a field that is
    an object or an array, [Number(...)] and [String(...)] can throw one
    too, see [Json] below. *)

Inductive error := TypeError.

Inductive completion (A : Type) :=
  | Normal (a : A)
  | Throw (e : error).
Global Arguments Normal {A} a.
Global Arguments Throw {A} e.

Global Instance completion_ret : MRet completion := λ A a, Normal a.
Global Instance completion_bind : MBind completion := λ A B f m,
  match m with
  | Normal a => f a
  | Throw e => Throw e
  end.

Global Instance completion_fmap : FMap completion := λ A B f m,
  match m with
  | Normal a => Normal (f a)
  | Throw e => Throw e
  end.

Section conversions.
Context `{RT : Runtime}.

(** [Number(v)]. *)
Definition ToNumber (v : prim) : number :=
  match v with
  | VUndefined => NaN
  | VNull => int 0
  | VBool b => if b then int 1 else int 0
  | VNumber n => n
  | VString s => StringToNumber s
  end.

(** [String(v)]. *)
Definition ToString (v : prim) : string :=
  match v with
  | VUndefined => "undefined"
  | VNull => "null"
  | VBool b => if b then "true" else "false"
  | VNumber n => NumberToString n
  | VString s => s
  end.
End conversions.

(** Truthiness, as tested by [!v] and [if (v)]. *)
Definition ToBoolean (v : prim) : bool :=
  match v with
  | VUndefined | VNull => false
  | VBool b => b
  | VNumber n => negb (bool_decide (n = NaN ∨ n = int 0))
  | VString s => negb (bool_decide (s = ""))
  end.

(** [v != null]: loose inequality, false for [null] and [undefined] only. *)
Definition neq_null (v : prim) : bool :=
  match v with
  | VUndefined | VNull => false
  | _ => true
  end.

(** [a === b]. *)
Definition strict_eq (a b : prim) : bool :=
  match a, b with
  | VNumber NaN, _ | _, VNumber NaN => false
  | _, _ => bool_decide (a = b)
  end.

(** [item.k]: reading a property throws on [null] and [undefined], gives
    [undefined] for a property that is absent, and none of the three
    property names the evaluator reads exists on a primitive. *)
Definition Get (item : value) (k : string) : completion prim :=
  match item with
  | Prim VUndefined | Prim VNull => Throw TypeError
  | Prim _ => Normal VUndefined
  | Obj o => Normal (default VUndefined (o !! k))
  end.

(** The own enumerable properties [{...item}] copies: those of an object,
    the indexed characters of a string, none of another primitive. *)
Fixpoint string_properties (i : nat) (s : string) : gmap string prim :=
  match s with
  | EmptyString => ∅
  | String c s' => <[pretty i := VString (String c EmptyString)]> (string_properties (S i) s')
  end.

Definition spread (item : value) : gmap string prim :=
  match item with
  | Obj o => o
  | Prim (VString s) => string_properties 0 s
  | Prim _ => ∅
  end.

(** ** [Map]: insertion-ordered, keyed by number

    [set] on a key already present replaces the value in place; a new key
    goes to the end.  [entries] iterates in that order.  Keys are compared by
    SameValueZero, which on [number] is equality. *)

Module JSMap.
Definition t (V : Type) : Type := list (number * V).

Definition empty {V} : t V := [].

Fixpoint set {V} (k : number) (v : V) (m : t V) : t V :=
  match m with
  | [] => [(k, v)]
  | (k', v') :: m' =>
      if decide (k' = k) then (k', v) :: m' else (k', v') :: set k v m'
  end.

Fixpoint get {V} (k : number) (m : t V) : option V :=
  match m with
  | [] => None
  | (k', v') :: m' => if decide (k' = k) then Some v' else get k m'
  end.

Definition entries {V} (m : t V) : list (number * V) := m.

Definition keys {V} (m : t V) : list number := m.*1.
End JSMap.

(** ** The evaluation result

    Marks and counts are integers.  The source holds them in doubles and
    changes them by 1 and by 4, which is exact up to 2^53, far beyond what
    the rows of a request can add up to. *)

Record WrongQuestion := {
  questionNumber : number;
  subject : string;
  selectedOption : prim;
  correctOption : prim;
}.

Record EvaluationResult := {
  physicsMarks : Z;
  chemistryMarks : Z;
  biologyMarks : Z;
  totalMarks : Z;
  correctCount : Z;
  incorrectCount : Z;
  unattemptedCount : Z;
  wrongQuestions : list WrongQuestion;
}.

(** The eight local variables of [evaluateNeetOMR] are the eight fields of
    the object it returns, so the state of its scoring loop is an
    [EvaluationResult]; each function below is one assignment of the loop. *)

Definition initial : EvaluationResult :=
  {| physicsMarks := 0; chemistryMarks := 0; biologyMarks := 0; totalMarks := 0;
     correctCount := 0; incorrectCount := 0; unattemptedCount := 0;
     wrongQuestions := [] |}.

Definition add_physicsMarks (d : Z) (st : EvaluationResult) : EvaluationResult :=
  {| physicsMarks := physicsMarks st + d; chemistryMarks := chemistryMarks st;
     biologyMarks := biologyMarks st; totalMarks := totalMarks st;
     correctCount := correctCount st; incorrectCount := incorrectCount st;
     unattemptedCount := unattemptedCount st; wrongQuestions := wrongQuestions st |}.

Definition add_chemistryMarks (d : Z) (st : EvaluationResult) : EvaluationResult :=
  {| physicsMarks := physicsMarks st; chemistryMarks := chemistryMarks st + d;
     biologyMarks := biologyMarks st; totalMarks := totalMarks st;
     correctCount := correctCount st; incorrectCount := incorrectCount st;
     unattemptedCount := unattemptedCount st; wrongQuestions := wrongQuestions st |}.

Definition add_biologyMarks (d : Z) (st : EvaluationResult) : EvaluationResult :=
  {| physicsMarks := physicsMarks st; chemistryMarks := chemistryMarks st;
     biologyMarks := biologyMarks st + d; totalMarks := totalMarks st;
     correctCount := correctCount st; incorrectCount := incorrectCount st;
     unattemptedCount := unattemptedCount st; wrongQuestions := wrongQuestions st |}.

Definition add_totalMarks (d : Z) (st : EvaluationResult) : EvaluationResult :=
  {| physicsMarks := physicsMarks st; chemistryMarks := chemistryMarks st;
     biologyMarks := biologyMarks st; totalMarks := totalMarks st + d;
     correctCount := correctCount st; incorrectCount := incorrectCount st;
     unattemptedCount := unattemptedCount st; wrongQuestions := wrongQuestions st |}.

Definition add_correctCount (d : Z) (st : EvaluationResult) : EvaluationResult :=
  {| physicsMarks := physicsMarks st; chemistryMarks := chemistryMarks st;
     biologyMarks := biologyMarks st; totalMarks := totalMarks st;
     correctCount := correctCount st + d; incorrectCount := incorrectCount st;
     unattemptedCount := unattemptedCount st; wrongQuestions := wrongQuestions st |}.

Definition add_incorrectCount (d : Z) (st : EvaluationResult) : EvaluationResult :=
  {| physicsMarks := physicsMarks st; chemistryMarks := chemistryMarks st;
     biologyMarks := biologyMarks st; totalMarks := totalMarks st;
     correctCount := correctCount st; incorrectCount := incorrectCount st + d;
     unattemptedCount := unattemptedCount st; wrongQuestions := wrongQuestions st |}.

Definition add_unattemptedCount (d : Z) (st : EvaluationResult) : EvaluationResult :=
  {| physicsMarks := physicsMarks st; chemistryMarks := chemistryMarks st;
     biologyMarks := biologyMarks st; totalMarks := totalMarks st;
     correctCount := correctCount st; incorrectCount := incorrectCount st;
     unattemptedCount := unattemptedCount st + d; wrongQuestions := wrongQuestions st |}.

Definition push_wrongQuestions (w : WrongQuestion) (st : EvaluationResult) : EvaluationResult :=
  {| physicsMarks := physicsMarks st; chemistryMarks := chemistryMarks st;
     biologyMarks := biologyMarks st; totalMarks := totalMarks st;
     correctCount := correctCount st; incorrectCount := incorrectCount st;
     unattemptedCount := unattemptedCount st; wrongQuestions := wrongQuestions st ++ [w] |}.

(** [for (const x of xs) body], with a body that may throw. *)
Fixpoint forOf {S A : Type} (body : S → A → completion S) (xs : list A) (s : S) : completion S :=
  match xs with
  | [] => mret s
  | x :: xs' => s' ← body s x; forOf body xs' s'
  end.

(** ** The evaluator: [evaluateNeetOMR]

    The two arguments are arrays (the request handler answers a body whose
    [answerKey] or [studentAnswers] is not an array before it calls the
    evaluator), given here by their elements in order. *)

Section evaluator.
Context `{RT : Runtime}.

(** Lines 3-16: one round of the loop over [answerKey].  A [continue] leaves
    the map as it is.  (The source reads [item.correctOption] twice; a
    property read has no effect, so it is read once here.) *)
Definition answerKey_body (answerKeyMap : JSMap.t prim) (item : value) : completion (JSMap.t prim) :=
  qn ← Get item "questionNumber";
  let questionNumber := ToNumber qn in
  if negb (Number_isFinite questionNumber) then mret answerKeyMap
  else
    co ← Get item "correctOption";
    let correctOption :=
      if neq_null co then VString (toUpperCase (ToString co)) else VNull in
    if negb (ToBoolean correctOption) then mret answerKeyMap
    else mret (JSMap.set questionNumber correctOption answerKeyMap).

(** Lines 19-29: one round of the loop over [studentAnswers].  The entry
    stored is a fresh object: the row's own properties with [questionNumber]
    and [selectedOption] overwritten by their normalized values. *)
Definition studentAnswers_body (studentMap : JSMap.t (gmap string prim)) (item : value) : completion (JSMap.t (gmap string prim)) :=
  qn ← Get item "questionNumber";
  let questionNumber := ToNumber qn in
  if negb (Number_isFinite questionNumber) then mret studentMap
  else
    so ← Get item "selectedOption";
    let selectedOption :=
      if neq_null so then VString (toUpperCase (ToString so)) else VNull in
    mret (JSMap.set questionNumber
            (<["selectedOption" := selectedOption]>
               (<["questionNumber" := VNumber questionNumber]> (spread item)))
            studentMap).

(** Lines 40-77: one round of the scoring loop.  [studentMap.get] gives
    [None] for [undefined]; an entry, being an object, is truthy. *)
Definition scoring_body (studentMap : JSMap.t (gmap string prim)) (st : EvaluationResult) (entry : number * prim) : EvaluationResult :=
  let '(questionNumber, correctOption) := entry in
  let subject := getSubject questionNumber in
  match JSMap.get questionNumber studentMap with
  | None => add_unattemptedCount 1 st
  | Some studentEntry =>
      let selectedOption := default VUndefined (studentEntry !! "selectedOption") in
      if negb (ToBoolean selectedOption) then add_unattemptedCount 1 st
      else if strict_eq selectedOption correctOption then
        let st := add_correctCount 1 st in
        let st := add_totalMarks 4 st in
        if bool_decide (subject = "Physics") then add_physicsMarks 4 st
        else if bool_decide (subject = "Chemistry") then add_chemistryMarks 4 st
        else if bool_decide (subject = "Biology") then add_biologyMarks 4 st
        else st
      else
        let st := add_incorrectCount 1 st in
        let st := add_totalMarks (-1) st in
        let st :=
          if bool_decide (subject = "Physics") then add_physicsMarks (-1) st
          else if bool_decide (subject = "Chemistry") then add_chemistryMarks (-1) st
          else if bool_decide (subject = "Biology") then add_biologyMarks (-1) st
          else st in
        push_wrongQuestions
          {| questionNumber := questionNumber; subject := subject;
             selectedOption := selectedOption; correctOption := correctOption |} st
  end.

Definition evaluateNeetOMR (answerKey studentAnswers : list value) : completion EvaluationResult :=
  answerKeyMap ← forOf answerKey_body answerKey JSMap.empty;
  studentMap ← forOf studentAnswers_body studentAnswers JSMap.empty;
  mret (fold_left (scoring_body studentMap) (JSMap.entries answerKeyMap) initial).

End evaluator.

(** ** Vocabulary of the specification

    The notions the specification uses to say what the evaluator computes:
    which rows can be read at all, what a row contributes once the drop
    rules are applied, the first-seen order of a sequence of question
    numbers, and the last value a sequence binds to a number. *)

(** A row can be read unless it is [null] or [undefined]. *)
Definition readable (item : value) : bool :=
  match item with
  | Prim VUndefined | Prim VNull => false
  | _ => true
  end.

(** A row matches the declared record shape when it is an object. *)
Definition is_record (item : value) : Prop :=
  match item with
  | Obj _ => True
  | Prim _ => False
  end.

(** The value of a field of a readable row. *)
Definition field (item : value) (k : string) : prim :=
  match item with
  | Obj o => default VUndefined (o !! k)
  | Prim _ => VUndefined
  end.

Section rows.
Context `{RT : Runtime}.

(** An option in normalized form: its text in upper case, or [null] when
    the field is [null] or missing. *)
Definition normalized (v : prim) : prim :=
  match v with
  | VUndefined | VNull => VNull
  | _ => VString (toUpperCase (ToString v))
  end.

(** The coerced question number of a row. *)
Definition rowNumber (item : value) : number :=
  ToNumber (field item "questionNumber").

(** What an answer-key row adds to the key mapping: nothing when its
    question number is not finite or its normalized option is [null] or
    empty. *)
Definition keyEntry (item : value) : option (number * prim) :=
  let c := normalized (field item "correctOption") in
  if Number_isFinite (rowNumber item) && ToBoolean c
  then Some (rowNumber item, c) else None.

(** What a student row adds to the student lookup: nothing when its
    question number is not finite. *)
Definition studentEntry (item : value) : option (number * gmap string prim) :=
  if Number_isFinite (rowNumber item)
  then Some (rowNumber item,
             <["selectedOption" := normalized (field item "selectedOption")]>
               (<["questionNumber" := VNumber (rowNumber item)]> (spread item)))
  else None.

End rows.

(** The distinct elements of a sequence, each at its first occurrence. *)
Fixpoint first_seen (l : list number) : list number :=
  match l with
  | [] => []
  | x :: l' => x :: filter (λ y, y ≠ x) (first_seen l')
  end.

(** The value of the last pair of a sequence whose key is [k]. *)
Fixpoint lookup_last {V} (k : number) (l : list (number * V)) : option V :=
  match l with
  | [] => None
  | (k', v) :: l' =>
      match lookup_last k l' with
      | Some v' => Some v'
      | None => if decide (k' = k) then Some v else None
      end
  end.

(** The map a sequence of [set] calls builds, starting from [m]. *)
Definition set_all {V} (l : list (number * V)) (m : JSMap.t V) : JSMap.t V :=
  fold_left (λ m e, JSMap.set e.1 e.2 m) l m.

Section mappings.
Context `{RT : Runtime}.

(** The key mapping and the student lookup of the specification: the
    entries of the rows that survive, set one after the other. *)
Definition keyMapping (answerKey : list value) : JSMap.t prim :=
  set_all (omap keyEntry answerKey) JSMap.empty.

Definition studentLookup (studentAnswers : list value) : JSMap.t (gmap string prim) :=
  set_all (omap studentEntry studentAnswers) JSMap.empty.

End mappings.

(** ** The marking scheme of the specification *)

Section scheme.
Context `{RT : Runtime}.

(** What a student row says: its question number and its normalized
    selection, provided the number is finite. *)
Definition studentSelection (item : value) : option (number * prim) :=
  if Number_isFinite (rowNumber item)
  then Some (rowNumber item, normalized (field item "selectedOption"))
  else None.

(** The option question [q] was attempted with: the selection of the last
    student row for [q], unless there is no such row or the selection is
    [null] or empty. *)
Definition attempt (studentAnswers : list value) (q : number) : option prim :=
  match lookup_last q (omap studentSelection studentAnswers) with
  | Some (VString s) => if decide (s = "") then None else Some (VString s)
  | _ => None
  end.

End scheme.

(** [d] for the subject the question belongs to, nothing for the others. *)
Definition share (q : number) (subject : string) (d : Z) : Z :=
  if decide (getSubject q = subject) then d else 0.

(** Steps 3 to 5 of the algorithm for one entry [(q, c)] of the key mapping,
    given the attempt on [q]. *)
Definition markingScheme (sel : option prim) (q : number) (c : prim) (st : EvaluationResult) : EvaluationResult :=
  match sel with
  | None =>
      {| physicsMarks := physicsMarks st; chemistryMarks := chemistryMarks st;
         biologyMarks := biologyMarks st; totalMarks := totalMarks st;
         correctCount := correctCount st; incorrectCount := incorrectCount st;
         unattemptedCount := unattemptedCount st + 1;
         wrongQuestions := wrongQuestions st |}
  | Some s =>
      if decide (s = c) then
        {| physicsMarks := physicsMarks st + share q "Physics" 4;
           chemistryMarks := chemistryMarks st + share q "Chemistry" 4;
           biologyMarks := biologyMarks st + share q "Biology" 4;
           totalMarks := totalMarks st + 4;
           correctCount := correctCount st + 1; incorrectCount := incorrectCount st;
           unattemptedCount := unattemptedCount st;
           wrongQuestions := wrongQuestions st |}
      else
        {| physicsMarks := physicsMarks st - share q "Physics" 1;
           chemistryMarks := chemistryMarks st - share q "Chemistry" 1;
           biologyMarks := biologyMarks st - share q "Biology" 1;
           totalMarks := totalMarks st - 1;
           correctCount := correctCount st; incorrectCount := incorrectCount st + 1;
           unattemptedCount := unattemptedCount st;
           wrongQuestions :=
             wrongQuestions st ++
             [ {| questionNumber := q; subject := getSubject q;
                  selectedOption := s; correctOption := c |} ] |}
  end.

(** The question numbers of the answer-key rows that survive the drop
    rules, in row order, duplicates included. *)
Definition keyNumbers `{RT : Runtime} (answerKey : list value) : list number :=
  (omap keyEntry answerKey).*1.

(** ** The evaluator over a store

    The rows the evaluator is given are objects of the caller, reached
    through references, and the two sequences are arrays of the caller.  To
    say that the evaluator leaves them as they are, the evaluator is
    modelled a second time over a store that holds them.  The evaluator
    reads the two arrays and the properties of their rows; it creates one
    object per student row, the entry [{...item, questionNumber,
    selectedOption}] it puts in [studentMap]; everything else it writes is a
    local of its own (the counters, the two [Map]s, the [wrongQuestions]
    array and its records), kept as values here as in the model above.  A
    row that is itself an array is outside this model. *)

Module Store.

Definition loc := positive.

(** An element of an array: a primitive or a reference to an object. *)
Inductive ref :=
  | RPrim (p : prim)
  | RObj (l : loc).

Record store := {
  objects : gmap loc (gmap string prim);
  arrays : gmap loc (list ref);
}.

(** A computation runs in a store and leaves a store, whether it returns or
    throws. *)
Definition M (A : Type) : Type := store → completion A * store.

Global Instance M_ret : MRet M := λ A a σ, (Normal a, σ).
Global Instance M_bind : MBind M := λ A B f m σ,
  match m σ with
  | (Normal a, σ') => f a σ'
  | (Throw e, σ') => (Throw e, σ')
  end.

(** The elements a [for...of] over the array at [a] goes through, read when
    the loop starts: no loop body writes to an array, so the iterator of the
    source, which reads the array as it goes, sees the same elements.  A
    reference that is not to an array is not iterable. *)
Definition elements (a : loc) : M (list ref) := λ σ,
  match arrays σ !! a with
  | Some xs => (Normal xs, σ)
  | None => (Throw TypeError, σ)
  end.

(** [item.k].  A reference held by JavaScript code is never dangling; the
    model throws on one. *)
Definition Get (item : ref) (k : string) : M prim := λ σ,
  match item with
  | RPrim VUndefined | RPrim VNull => (Throw TypeError, σ)
  | RPrim _ => (Normal VUndefined, σ)
  | RObj l =>
      match objects σ !! l with
      | Some o => (Normal (default VUndefined (o !! k)), σ)
      | None => (Throw TypeError, σ)
      end
  end.

(** The properties [{...item}] copies. *)
Definition spread (item : ref) : M (gmap string prim) := λ σ,
  match item with
  | RObj l =>
      match objects σ !! l with
      | Some o => (Normal o, σ)
      | None => (Throw TypeError, σ)
      end
  | RPrim (VString s) => (Normal (string_properties 0 s), σ)
  | RPrim _ => (Normal ∅, σ)
  end.

(** An object literal: a new object at a location not in use. *)
Definition newObject (o : gmap string prim) : M loc := λ σ,
  let l := fresh (dom (objects σ)) in
  (Normal l, {| objects := <[l := o]> (objects σ); arrays := arrays σ |}).

Fixpoint forOf {S A : Type} (body : S → A → M S) (xs : list A) (s : S) : M S :=
  match xs with
  | [] => mret s
  | x :: xs' => s' ← body s x; forOf body xs' s'
  end.

Section evaluator.
Context `{RT : Runtime}.

Definition answerKey_body (answerKeyMap : JSMap.t prim) (item : ref) : M (JSMap.t prim) :=
  qn ← Get item "questionNumber";
  let questionNumber := ToNumber qn in
  if negb (Number_isFinite questionNumber) then mret answerKeyMap
  else
    co ← Get item "correctOption";
    let correctOption :=
      if neq_null co then VString (toUpperCase (ToString co)) else VNull in
    if negb (ToBoolean correctOption) then mret answerKeyMap
    else mret (JSMap.set questionNumber correctOption answerKeyMap).

Definition studentAnswers_body (studentMap : JSMap.t loc) (item : ref) : M (JSMap.t loc) :=
  qn ← Get item "questionNumber";
  let questionNumber := ToNumber qn in
  if negb (Number_isFinite questionNumber) then mret studentMap
  else
    so ← Get item "selectedOption";
    let selectedOption :=
      if neq_null so then VString (toUpperCase (ToString so)) else VNull in
    own ← spread item;
    entry ← newObject
               (<["selectedOption" := selectedOption]>
                  (<["questionNumber" := VNumber questionNumber]> own));
    mret (JSMap.set questionNumber entry studentMap).

Definition scoring_body (studentMap : JSMap.t loc) (st : EvaluationResult) (entry : number * prim) : M EvaluationResult :=
  let '(questionNumber, correctOption) := entry in
  let subject := getSubject questionNumber in
  match JSMap.get questionNumber studentMap with
  | None => mret (add_unattemptedCount 1 st)
  | Some studentEntry =>
      selectedOption ← Get (RObj studentEntry) "selectedOption";
      if negb (ToBoolean selectedOption) then mret (add_unattemptedCount 1 st)
      else if strict_eq selectedOption correctOption then
        let st := add_correctCount 1 st in
        let st := add_totalMarks 4 st in
        mret (if bool_decide (subject = "Physics") then add_physicsMarks 4 st
              else if bool_decide (subject = "Chemistry") then add_chemistryMarks 4 st
              else if bool_decide (subject = "Biology") then add_biologyMarks 4 st
              else st)
      else
        let st := add_incorrectCount 1 st in
        let st := add_totalMarks (-1) st in
        let st :=
          if bool_decide (subject = "Physics") then add_physicsMarks (-1) st
          else if bool_decide (subject = "Chemistry") then add_chemistryMarks (-1) st
          else if bool_decide (subject = "Biology") then add_biologyMarks (-1) st
          else st in
        mret (push_wrongQuestions
                {| questionNumber := questionNumber; subject := subject;
                   selectedOption := selectedOption; correctOption := correctOption |} st)
  end.

Definition evaluateNeetOMR (answerKey studentAnswers : loc) : M EvaluationResult :=
  keyItems ← elements answerKey;
  answerKeyMap ← forOf answerKey_body keyItems JSMap.empty;
  studentItems ← elements studentAnswers;
  studentMap ← forOf studentAnswers_body studentItems JSMap.empty;
  forOf (scoring_body studentMap) (JSMap.entries answerKeyMap) initial.

End evaluator.

(** The row a reference stands for in a store. *)
Definition load (σ : store) (item : ref) : value :=
  match item with
  | RPrim p => Prim p
  | RObj l => Obj (default ∅ (objects σ !! l))
  end.

(** No reference of the sequence is dangling. *)
Definition allocated (σ : store) (items : list ref) : Prop :=
  ∀ l, RObj l ∈ items → is_Some (objects σ !! l).

End Store.

(** One store extends another when it has the same arrays and the same
    objects at the locations of the other, and possibly new objects. *)
Definition extends (σ σ' : Store.store) : Prop :=
  Store.arrays σ' = Store.arrays σ ∧ Store.objects σ ⊆ Store.objects σ'.

(** A computation that only extends the store it is run in, whether it
    returns or throws. *)
Definition preserving {A} (m : Store.M A) : Prop :=
  ∀ σ, extends σ (m σ).2.

(** The entries of the student lookup, as the store holds them. *)
Definition held (σ : Store.store) (entry : number * Store.loc) (e : number * gmap string prim) : Prop :=
  entry.1 = e.1 ∧ Store.objects σ !! entry.2 = Some e.2.

(** ** A runtime to compute with

    The theorems below hold for every runtime.  [sampleRuntime] is there to
    evaluate examples: it upper-cases the letters [a]-[z], reads a string of
    decimal digits as the integer it writes (the empty string as 0, any
    other string as [NaN]) and prints an integer in decimal.  That is what a
    JavaScript engine computes on ASCII text, on strings of at most fifteen
    decimal digits, on strings with no digit, no white space and no
    [Infinity] in them, and on integers of magnitude below 10^21; on other
    inputs [sampleRuntime] is not the engine, and no example uses them. *)

Definition upper_ascii (c : ascii) : ascii :=
  let n := N_of_ascii c in
  if ((97 <=? n) && (n <=? 122))%N then ascii_of_N (n - 32) else c.

Fixpoint upper_string (s : string) : string :=
  match s with
  | EmptyString => EmptyString
  | String c s' => String (upper_ascii c) (upper_string s')
  end.

Fixpoint digits_value (acc : Z) (s : string) : option Z :=
  match s with
  | EmptyString => Some acc
  | String c s' =>
      let n := N_of_ascii c in
      if ((48 <=? n) && (n <=? 57))%N
      then digits_value (10 * acc + Z.of_N (n - 48)) s'
      else None
  end.

Definition digits_number (s : string) : number :=
  match digits_value 0 s with
  | Some z => int z
  | None => NaN
  end.

Definition print_number (n : number) : string :=
  match n with
  | NaN => "NaN"
  | PosInfinity => "Infinity"
  | NegInfinity => "-Infinity"
  | Finite q =>
      if bool_decide (Qden q = 1%positive) then pretty (Qnum q)
      else pretty (Qnum q) +:+ "/" +:+ pretty (Zpos (Qden q))
  end.

Definition sampleRuntime : Runtime :=
  {| StringToNumber := digits_number;
     NumberToString := print_number;
     toUpperCase := upper_string |}.

(** Rows as the request body writes them. *)
Definition keyRow (q c : prim) : value :=
  Obj (<["questionNumber" := q]> (<["correctOption" := c]> ∅)).
Definition studentRow (q s : prim) : value :=
  Obj (<["questionNumber" := q]> (<["selectedOption" := s]> ∅)).
Definition num (z : Z) : prim := VNumber (int z).

(** The first example of the specification: three questions, one per
    subject, the second answered wrongly. *)
Definition example_key : list value :=
  [keyRow (num 1) (VString "A"); keyRow (num 51) (VString "B"); keyRow (num 101) (VString "C")].

Definition example_student : list value :=
  [studentRow (num 1) (VString "A"); studentRow (num 51) (VString "C"); studentRow (num 101) (VString "C")].

Definition example_result : EvaluationResult :=
  {| physicsMarks := 4; chemistryMarks := -1; biologyMarks := 4; totalMarks := 7;
     correctCount := 2; incorrectCount := 1; unattemptedCount := 0;
     wrongQuestions :=
       [ {| questionNumber := int 51; subject := "Chemistry";
            selectedOption := VString "C"; correctOption := VString "B" |} ] |}.

(** A store that holds the one-question key [1:"A"] and the answer [1:"a"]
    as objects 1 and 2, and the two sequences as arrays 10 and 11. *)
Definition example_store : Store.store :=
  {| Store.objects :=
       <[1%positive := <["questionNumber" := num 1]> (<["correctOption" := VString "A"]> ∅)]>
         (<[2%positive := <["questionNumber" := num 1]> (<["selectedOption" := VString "a"]> ∅)]> ∅);
     Store.arrays :=
       <[10%positive := [Store.RObj 1%positive]]> (<[11%positive := [Store.RObj 2%positive]]> ∅) |}.

(** ** Vocabulary for further properties *)

(** Two results put together: marks and counts added, the wrong questions of
    the second after those of the first. *)
Definition merge (r1 r2 : EvaluationResult) : EvaluationResult :=
  {| physicsMarks := physicsMarks r1 + physicsMarks r2;
     chemistryMarks := chemistryMarks r1 + chemistryMarks r2;
     biologyMarks := biologyMarks r1 + biologyMarks r2;
     totalMarks := totalMarks r1 + totalMarks r2;
     correctCount := correctCount r1 + correctCount r2;
     incorrectCount := incorrectCount r1 + incorrectCount r2;
     unattemptedCount := unattemptedCount r1 + unattemptedCount r2;
     wrongQuestions := wrongQuestions r1 ++ wrongQuestions r2 |}.

(** The number of wrong questions a result lists for a subject. *)
Definition wrongIn (s : string) (r : EvaluationResult) : Z :=
  Z.of_nat (length (filter (λ w, subject w = s) (wrongQuestions r))).

(** The student row that answers a key row with the key's own option. *)
Definition copied (item : value) : value :=
  Obj (<["questionNumber" := field item "questionNumber"]>
         (<["selectedOption" := field item "correctOption"]> ∅)).

(** Two results with the same marks and counts, and the same wrong
    questions up to their order. *)
Definition same_score (r1 r2 : EvaluationResult) : Prop :=
  physicsMarks r1 = physicsMarks r2 ∧ chemistryMarks r1 = chemistryMarks r2 ∧
  biologyMarks r1 = biologyMarks r2 ∧ totalMarks r1 = totalMarks r2 ∧
  correctCount r1 = correctCount r2 ∧ incorrectCount r1 = incorrectCount r2 ∧
  unattemptedCount r1 = unattemptedCount r2 ∧
  wrongQuestions r1 ≡ₚ wrongQuestions r2.


(** * The evaluator on JSON values

    The rows of a request body are what [JSON.parse] builds, and a field of
    a row may itself be an array or an object.  [Number(v)] and [String(v)]
    first convert such a value to a primitive, and that conversion can
    throw.  This part embeds the evaluator once more, on rows whose fields
    are arbitrary JSON values; on rows whose fields are primitives it is the
    evaluator above.

    An object built by [JSON.parse] has [Object.prototype] as its
    prototype, an array [Array.prototype]; every own property is a data
    property whose value is again a JSON value, never a function, and there
    is no property keyed by a symbol. *)

Module Json.

(** A JSON value ([undefined] among the primitives, for a property that is
    missing).  An object is given by its members in the order of the text;
    of two members with the same name the later one is the property. *)
Local Unset Elimination Schemes.
Inductive json :=
  | JPrim (p : prim)
  | JArr (items : list json)
  | JObj (props : list (string * json)).
Local Set Elimination Schemes.

(** The own property [k] of an object with the members [props]. *)
Fixpoint own (props : list (string * json)) (k : string) : option json :=
  match props with
  | [] => None
  | (k', v) :: props' =>
      match own props' k with
      | Some w => Some w
      | None => if decide (k' = k) then Some v else None
      end
  end.

(** [item.k] for one of the three property names the evaluator reads:
    reading throws on [null] and [undefined]; no primitive, no array and
    neither prototype has a property of such a name. *)
Definition Get (item : json) (k : string) : completion json :=
  match item with
  | JPrim VUndefined | JPrim VNull => Throw TypeError
  | JPrim _ | JArr _ => Normal (JPrim VUndefined)
  | JObj props => Normal (default (JPrim VUndefined) (own props k))
  end.

(** [v != null]. *)
Definition nonnull (v : json) : bool :=
  match v with
  | JPrim VUndefined | JPrim VNull => false
  | _ => true
  end.

(** The characters of a string, as the properties they are under their
    indices from [i] on. *)
Fixpoint characters (i : nat) (s : string) : list (string * json) :=
  match s with
  | EmptyString => []
  | String c s' => (pretty i, JPrim (VString (String c EmptyString))) :: characters (S i) s'
  end.

(** The own enumerable properties [{...item}] copies: the members of an
    object, the elements of an array under their indices, the characters of
    a string under theirs, none of another primitive. *)
Definition spread (item : json) : list (string * json) :=
  match item with
  | JObj props => props
  | JArr items => imap (λ i x, (pretty i, x)) items
  | JPrim (VString s) => characters 0 s
  | JPrim _ => []
  end.

(** The object [{ ...item, questionNumber, selectedOption }] a student row
    is stored as: its two named properties, and the other properties, which
    are those of the row. *)
Record entry := {
  entry_questionNumber : number;
  entry_selectedOption : prim;
  entry_rest : list (string * json);
}.

(** [Array.prototype.join] with a comma, given the text of an element. *)
Definition join (element : json → completion string) : list json → completion string :=
  fix join (items : list json) : completion string :=
    match items with
    | [] => Normal ""
    | x :: rest =>
        s ← element x;
        match rest with
        | [] => Normal s
        | _ :: _ => r ← join rest; Normal (s +:+ "," +:+ r)
        end
    end.

Section evaluator.
Context `{RT : Runtime}.

(** The conversion of a value to a primitive, inside [Number(v)] and inside
    [String(v)].  A primitive is itself.  For an object the conversion
    calls the methods [valueOf] and [toString], in one or the other order,
    and takes the first result that is a primitive: an own property
    [valueOf] or [toString] is no function and is passed over, the inherited
    [valueOf] returns the object itself, and the inherited [toString]
    returns ["[object Object]"]; when [toString] is an own property nothing
    is left and the conversion throws a [TypeError].  For an array the
    inherited [toString] joins the elements with commas, [null] and
    [undefined] as the empty string and any other element as [String] of
    it. *)
Fixpoint ToPrimitive (v : json) : completion prim :=
  match v with
  | JPrim p => Normal p
  | JObj props =>
      if bool_decide ("toString" ∈ props.*1) then Throw TypeError
      else Normal (VString "[object Object]")
  | JArr items =>
      VString <$>
        join (λ x, match x with
                   | JPrim VUndefined | JPrim VNull => Normal ""
                   | _ => ToString <$> ToPrimitive x
                   end) items
  end.

(** [Number(v)] and [String(v)]. *)
Definition NumberOf (v : json) : completion number := ToNumber <$> ToPrimitive v.
Definition StringOf (v : json) : completion string := ToString <$> ToPrimitive v.

(** Lines 3-16. *)
Definition answerKey_body (answerKeyMap : JSMap.t prim) (item : json) : completion (JSMap.t prim) :=
  qn ← Get item "questionNumber";
  questionNumber ← NumberOf qn;
  if negb (Number_isFinite questionNumber) then mret answerKeyMap
  else
    co ← Get item "correctOption";
    correctOption ←
      (if nonnull co then s ← StringOf co; mret (VString (toUpperCase s))
       else mret VNull);
    if negb (ToBoolean correctOption) then mret answerKeyMap
    else mret (JSMap.set questionNumber correctOption answerKeyMap).

(** Lines 19-29. *)
Definition studentAnswers_body (studentMap : JSMap.t entry) (item : json) : completion (JSMap.t entry) :=
  qn ← Get item "questionNumber";
  questionNumber ← NumberOf qn;
  if negb (Number_isFinite questionNumber) then mret studentMap
  else
    so ← Get item "selectedOption";
    selectedOption ←
      (if nonnull so then s ← StringOf so; mret (VString (toUpperCase s))
       else mret VNull);
    mret (JSMap.set questionNumber
            {| entry_questionNumber := questionNumber;
               entry_selectedOption := selectedOption;
               entry_rest := spread item |}
            studentMap).

(** Lines 40-77. *)
Definition scoring_body (studentMap : JSMap.t entry) (st : EvaluationResult) (e : number * prim) : EvaluationResult :=
  let '(questionNumber, correctOption) := e in
  let subject := getSubject questionNumber in
  match JSMap.get questionNumber studentMap with
  | None => add_unattemptedCount 1 st
  | Some studentEntry =>
      let selectedOption := entry_selectedOption studentEntry in
      if negb (ToBoolean selectedOption) then add_unattemptedCount 1 st
      else if strict_eq selectedOption correctOption then
        let st := add_correctCount 1 st in
        let st := add_totalMarks 4 st in
        if bool_decide (subject = "Physics") then add_physicsMarks 4 st
        else if bool_decide (subject = "Chemistry") then add_chemistryMarks 4 st
        else if bool_decide (subject = "Biology") then add_biologyMarks 4 st
        else st
      else
        let st := add_incorrectCount 1 st in
        let st := add_totalMarks (-1) st in
        let st :=
          if bool_decide (subject = "Physics") then add_physicsMarks (-1) st
          else if bool_decide (subject = "Chemistry") then add_chemistryMarks (-1) st
          else if bool_decide (subject = "Biology") then add_biologyMarks (-1) st
          else st in
        push_wrongQuestions
          {| questionNumber := questionNumber; subject := subject;
             selectedOption := selectedOption; correctOption := correctOption |} st
  end.

Definition evaluateNeetOMR (answerKey studentAnswers : list json) : completion EvaluationResult :=
  answerKeyMap ← forOf answerKey_body answerKey JSMap.empty;
  studentMap ← forOf studentAnswers_body studentAnswers JSMap.empty;
  mret (fold_left (scoring_body studentMap) (JSMap.entries answerKeyMap) initial).

End evaluator.

(** ** Vocabulary *)

(** The property [k] of a row that is neither [null] nor [undefined]. *)
Definition field (item : json) (k : string) : json :=
  match item with
  | JObj props => default (JPrim VUndefined) (own props k)
  | _ => JPrim VUndefined
  end.

(** The values the conversion to a primitive throws on: an object with an
    own property [toString], and an array with such an element, at any
    depth. *)
Inductive unconvertible : json → Prop :=
  | unconvertible_object (props : list (string * json)) :
      "toString" ∈ props.*1 → unconvertible (JObj props)
  | unconvertible_array (items : list json) (x : json) :
      x ∈ items → unconvertible x → unconvertible (JArr items).

Section rows.
Context `{RT : Runtime}.

(** The coerced question number of a row. *)
Definition rowNumber (item : json) : completion number :=
  qn ← Get item "questionNumber"; NumberOf qn.

(** An option in normalized form. *)
Definition normalized (v : json) : completion prim :=
  if nonnull v then s ← StringOf v; mret (VString (toUpperCase s)) else mret VNull.

(** The rows on which a round of the loop over the answer key throws: a
    row that is [null] or [undefined], a row whose question number cannot
    be converted, and a row with a finite question number whose correct
    option cannot be converted. *)
Definition key_fatal (item : json) : Prop :=
  item = JPrim VNull ∨ item = JPrim VUndefined ∨
  unconvertible (field item "questionNumber") ∨
  ((∃ n, rowNumber item = Normal n ∧ Number_isFinite n = true) ∧
   unconvertible (field item "correctOption")).

(** The same for the loop over the student answers. *)
Definition student_fatal (item : json) : Prop :=
  item = JPrim VNull ∨ item = JPrim VUndefined ∨
  unconvertible (field item "questionNumber") ∨
  ((∃ n, rowNumber item = Normal n ∧ Number_isFinite n = true) ∧
   unconvertible (field item "selectedOption")).

End rows.

(** A row whose fields are primitives, as a JSON value. *)
Definition of_value (item : value) : json :=
  match item with
  | Prim p => JPrim p
  | Obj o => JObj (prod_map id JPrim <$> map_to_list o)
  end.

End Json.

(** The row of the answer key [{ questionNumber: { toString: 1 },
    correctOption: null }]. *)
Definition example_unconvertible_row : Json.json :=
  Json.JObj [("questionNumber", Json.JObj [("toString", Json.JPrim (num 1))]);
             ("correctOption", Json.JPrim VNull)].

(** An object that converts to ["[object Object]"], and so to [NaN]. *)
Definition example_plain_object : Json.json :=
  Json.JObj [("value", Json.JPrim (num 7))].

(** Rows of a JSON body, and the first example of the specification as
    one. *)
Definition jsonKeyRow (q c : Json.json) : Json.json :=
  Json.JObj [("questionNumber", q); ("correctOption", c)].
Definition jsonStudentRow (q s : Json.json) : Json.json :=
  Json.JObj [("questionNumber", q); ("selectedOption", s)].

Definition example_json_key : list Json.json :=
  [jsonKeyRow (Json.JPrim (num 1)) (Json.JPrim (VString "A"));
   jsonKeyRow (Json.JPrim (num 51)) (Json.JPrim (VString "B"));
   jsonKeyRow (Json.JPrim (num 101)) (Json.JPrim (VString "C"))].

Definition example_json_student : list Json.json :=
  [jsonStudentRow (Json.JPrim (num 1)) (Json.JPrim (VString "A"));
   jsonStudentRow (Json.JPrim (num 51)) (Json.JPrim (VString "C"));
   jsonStudentRow (Json.JPrim (num 101)) (Json.JPrim (VString "C"))].

(** * The request handlers

    [evaluateOmr] is the caller of the evaluator: it checks the request,
    looks the submission up, evaluates, stores the answers and the result on
    the submission and answers with what the submission then holds.
    [getExamResult] reads the stored result back and [submitOmr] creates the
    submission.  The three handlers talk to collaborators whose code is not
    part of this development: the Mongoose models [Exam] and
    [ExamSubmission], the documents they hand out, and [uploadMedia].  A
    handler is therefore modelled as a program that issues one call after
    the other and goes on with the answer; what a call does is up to the
    environment the program runs in, and a call may be answered with an
    exception wherever the source has it inside its [try].  A property of a
    handler holds for every environment.

    [res.status(c).json(b)] ends a handler with the response [(c, b)]; the
    request object is what Express hands over, with [req.params] an
    object.  The rows of an array of the request body are the values the
    model of the evaluator takes. *)

Module Controller.

(** What the collaborators are made of: the documents of the two models,
    the values they hand back, of which a handler asks at most whether they
    are truthy, what a failed call throws or rejects with, and whether the
    imported binding [Exam] is a truthy value. *)
Class Collaborators := {
  document : Type;
  data : Type;
  truthy : data → bool;
  reason : Type;
  Exam_imported : bool;
}.

(** A property of the request body: an array of rows, or any other value,
    [undefined] for a missing property included.  The handlers ask
    [Array.isArray] of it and nothing else. *)
Inductive body_value :=
  | JArray (items : list value)
  | JOther.

Record body := {
  body_answerKey : body_value;
  body_studentAnswers : body_value;
}.

(** What [evaluateOmr] assigns to a path of the submission. *)
Inductive assigned :=
  | marks (v : list value)
  | evaluation (v : EvaluationResult).

Section handlers.
Context `{RT : Runtime} `{CO : Collaborators}.

(** The request: [req.id], [req.params.submissionId] (a string, or
    [undefined]), [req.body] ([None] when it is [undefined] or [null]), and
    [req.file] ([None] when it is falsy, else its [path]). *)
Record request := {
  req_id : data;
  req_submissionId : prim;
  req_body : option body;
  req_file : option data;
}.

(** What [uploadMedia] resolves to when that is truthy, and the object
    [submitOmr] hands to [ExamSubmission.create]. *)
Record uploaded := {
  secure_url : data;
  public_id : data;
}.

Record submission_fields := {
  exam : data;
  student : data;
  filledOmr_url : data;
  filledOmr_publicId : data;
}.

(** The calls to the collaborators, and what each resolves to: [findOne]
    and [findById] to a document or [null], [uploadMedia] to a truthy
    response or a falsy value, a property read on a document to a value. *)
Inductive call :=
  | Exam_findOne
  | ExamSubmission_findById (id : prim)
  | ExamSubmission_create (fields : submission_fields)
  | uploadMedia (path : data)
  | read (d : document) (path : string)
  | assign (d : document) (path : string) (v : assigned)
  | save (d : document).

Definition answer (c : call) : Type :=
  match c with
  | Exam_findOne | ExamSubmission_findById _ => option document
  | ExamSubmission_create _ => document
  | uploadMedia _ => option uploaded
  | read _ _ => data
  | assign _ _ _ | save _ => unit
  end.

(** What a [catch] receives: an exception of the handler's own code, or
    what a call threw or rejected with. *)
Inductive caught :=
  | Thrown (e : error)
  | Rejected (x : reason).

(** The response bodies of the three handlers:
    [{ message }], [{ message, error }], [{ success: false, message }],
    [{ success: true, message, submission }] and
    [{ success: true, message, detectedMarks, evaluation }], where
    [detectedMarks] is a value read from the submission or the empty array
    of [submission.detectedMarks || []]. *)
Inductive response_body :=
  | message (m : string)
  | failure (m : string) (err : caught)
  | unsuccessful (m : string)
  | submitted (m : string) (submission : document)
  | result (m : string) (detectedMarks : data + list value) (evaluation : data).

Record response := {
  status : Z;
  json : response_body;
}.

(** Programs: return, throw, or issue a call and go on with its answer. *)
Inductive program (A : Type) : Type :=
  | Return (a : A)
  | Raise (err : caught)
  | Await (c : call) (k : reason + answer c → program A).
Global Arguments Return {A} a.
Global Arguments Raise {A} err.
Global Arguments Await {A} c k.

Fixpoint bind {A B} (f : A → program B) (p : program A) : program B :=
  match p with
  | Return a => f a
  | Raise err => Raise err
  | Await c k => Await c (λ o, bind f (k o))
  end.

Global Instance program_ret : MRet program := λ A a, Return a.
Global Instance program_bind : MBind program := λ A B f p, bind f p.

(** [await c], and a plain call or property access [c]: the answer, or the
    exception thrown. *)
Definition await (c : call) : program (answer c) :=
  Await c (λ o, match o with
                | inl x => Raise (Rejected x)
                | inr a => Return a
                end).

(** A step of the handler's own code that may throw. *)
Definition lift {A} (m : completion A) : program A :=
  match m with
  | Normal a => Return a
  | Throw e => Raise (Thrown e)
  end.

(** [try { p } catch (err) { h err }]. *)
Fixpoint try_catch {A} (p : program A) (h : caught → program A) : program A :=
  match p with
  | Return a => Return a
  | Raise err => h err
  | Await c k => Await c (λ o, try_catch (k o) h)
  end.

(** Lines 182-221. *)
Definition evaluateOmr (req : request) : program response :=
  try_catch
    (let submissionId := req_submissionId req in
     b ← match req_body req with
         | Some b => Return b
         | None => Raise (Thrown TypeError)
         end;
     if negb (ToBoolean submissionId) then
       Return {| status := 400; json := message "submissionId is required" |}
     else
       match body_answerKey b, body_studentAnswers b with
       | JArray answerKey, JArray studentAnswers =>
           found ← await (ExamSubmission_findById submissionId);
           match found with
           | None => Return {| status := 404; json := message "submission not found" |}
           | Some submission =>
               evaluated ← lift (evaluateNeetOMR answerKey studentAnswers);
               _ ← await (assign submission "detectedMarks" (marks studentAnswers));
               _ ← await (assign submission "evaluation" (evaluation evaluated));
               _ ← await (save submission);
               detectedMarks ← await (read submission "detectedMarks");
               stored ← await (read submission "evaluation");
               Return {| status := 200;
                         json := result "OMR evaluated successfully"
                                   (inl detectedMarks) stored |}
           end
       | _, _ =>
           Return {| status := 400;
                     json := message "answerKey and studentAnswers must be arrays" |}
       end)
    (λ err, Return {| status := 500; json := failure "error on evaluating OMR" err |}).

(** Lines 223-255. *)
Definition getExamResult (req : request) : program response :=
  try_catch
    (let submissionId := req_submissionId req in
     if negb (ToBoolean submissionId) then
       Return {| status := 400; json := message "submissionId is required" |}
     else
       found ← await (ExamSubmission_findById submissionId);
       match found with
       | None => Return {| status := 404; json := message "submission not found" |}
       | Some submission =>
           stored ← await (read submission "evaluation");
           if negb (truthy stored) then
             Return {| status := 400;
                       json := message "evaluation not available for this submission yet" |}
           else
             detectedMarks ← await (read submission "detectedMarks");
             stored ← await (read submission "evaluation");
             Return {| status := 200;
                       json := result "Exam evaluation fetched successfully"
                                 (if truthy detectedMarks then inl detectedMarks else inr [])
                                 stored |}
       end)
    (λ err, Return {| status := 500; json := failure "error on fetching exam evaluation" err |}).

(** Lines 133-180.  [Exam.findOne()] on a falsy [Exam] throws a
    [TypeError]: [undefined] and [null] have no properties, and a falsy
    primitive has no method [findOne].  [exam._id] throws one when [exam] is
    [null]. *)
Definition submitOmr (req : request) : program response :=
  try_catch
    (let studentId := req_id req in
     found ← (if Exam_imported then await Exam_findOne else Raise (Thrown TypeError));
     if negb Exam_imported then
       Return {| status := 404; json := message "exam not found" |}
     else
       examId ← match found with
                | Some exam => await (read exam "_id")
                | None => Raise (Thrown TypeError)
                end;
       match req_file req with
       | None => Return {| status := 400; json := message "please upload filled OMR" |}
       | Some path =>
           omrResponse ← await (uploadMedia path);
           match omrResponse with
           | None =>
               Return {| status := 400;
                         json := unsuccessful "failed to upload filled Omr on the cloud" |}
           | Some omrResponse =>
               newSubmission ←
                 await (ExamSubmission_create
                          {| exam := examId; student := studentId;
                             filledOmr_url := secure_url omrResponse;
                             filledOmr_publicId := public_id omrResponse |});
               Return {| status := 200;
                         json := submitted "Your Filled Omr Submitted Successfully"
                                   newSubmission |}
           end
       end)
    (λ err, Return {| status := 400;
                      json := failure "error on hitting submitOmr controller" err |}).

(** An environment answers each call, with a value or with an exception,
    and moves from one state to the next. *)
Definition environment (S : Type) : Type :=
  ∀ c : call, S → (reason + answer c) * S.

(** Running a program: its outcome, the calls it issued in order, and the
    state of the environment at the end. *)
Fixpoint run {S A} (env : environment S) (p : program A) (s : S) : (caught + A) * list call * S :=
  match p with
  | Return a => (inr a, [], s)
  | Raise err => (inl err, [], s)
  | Await c k =>
      let '(o, s1) := env c s in
      let '(out, calls, s2) := run env (k o) s1 in
      (out, c :: calls, s2)
  end.

(** The calls that change what the collaborators hold. *)
Definition writes (c : call) : bool :=
  match c with
  | ExamSubmission_create _ | uploadMedia _ | assign _ _ _ | save _ => true
  | Exam_findOne | ExamSubmission_findById _ | read _ _ => false
  end.

End handlers.

End Controller.

(** ** Collaborators to compute with

    A store that holds one submission, document [1] under the id ["s1"],
    and no exam.  Its state is what has been assigned to the paths of that
    document; a path that was never assigned reads as [None], which is
    falsy.  No upload succeeds. *)

Definition sampleCollaborators : Controller.Collaborators :=
  {| Controller.document := nat;
     Controller.data := option Controller.assigned;
     Controller.truthy := λ v, bool_decide (is_Some v);
     Controller.reason := string;
     Controller.Exam_imported := true |}.

Definition sampleEnvironment : Controller.environment (CO := sampleCollaborators) (gmap string Controller.assigned) :=
  λ c s,
    match c return (string + Controller.answer (CO := sampleCollaborators) c) * gmap string Controller.assigned with
    | Controller.Exam_findOne => (inr None, s)
    | Controller.ExamSubmission_findById id =>
        (inr (if bool_decide (id = VString "s1") then Some 1%nat else None), s)
    | Controller.ExamSubmission_create _ => (inl "no exam", s)
    | Controller.uploadMedia _ => (inr None, s)
    | Controller.read _ path => (inr (s !! path), s)
    | Controller.assign _ path v => (inr (), <[path := v]> s)
    | Controller.save _ => (inr (), s)
    end.

(** The request that sends the first example of the specification for the
    submission ["s1"]. *)
Definition example_request : Controller.request (CO := sampleCollaborators) :=
  @Controller.Build_request sampleCollaborators
    None (VString "s1")
    (Some {| Controller.body_answerKey := Controller.JArray example_key;
             Controller.body_studentAnswers := Controller.JArray example_student |})
    None.

(** What the sample store makes of that request: the calls it sees, what
    it holds afterwards, and the answer. *)
Definition example_calls : list (Controller.call (CO := sampleCollaborators)) :=
  [@Controller.ExamSubmission_findById sampleCollaborators (VString "s1");
   @Controller.assign sampleCollaborators 1%nat "detectedMarks" (Controller.marks example_student);
   @Controller.assign sampleCollaborators 1%nat "evaluation" (Controller.evaluation example_result);
   @Controller.save sampleCollaborators 1%nat;
   @Controller.read sampleCollaborators 1%nat "detectedMarks";
   @Controller.read sampleCollaborators 1%nat "evaluation"].

Definition example_stored : gmap string Controller.assigned :=
  <["evaluation" := Controller.evaluation example_result]>
    (<["detectedMarks" := Controller.marks example_student]> ∅).

Definition example_response : Controller.response (CO := sampleCollaborators) :=
  @Controller.Build_response sampleCollaborators 200
    (@Controller.result sampleCollaborators "OMR evaluated successfully"
       (inl (Some (Controller.marks example_student)))
       (Some (Controller.evaluation example_result))).

(** The same request with a key whose only row is [null]. *)
Definition example_null_request : Controller.request (CO := sampleCollaborators) :=
  @Controller.Build_request sampleCollaborators
    None (VString "s1")
    (Some {| Controller.body_answerKey := Controller.JArray [Prim VNull];
             Controller.body_studentAnswers := Controller.JArray example_student |})
    None.


(** * Properties *)

(** Carries out the assignments of a round on a state given by its fields. *)
Ltac unfold_assignments :=
  unfold add_physicsMarks, add_chemistryMarks, add_biologyMarks, add_totalMarks,
    add_correctCount, add_incorrectCount, add_unattemptedCount,
    push_wrongQuestions;
  cbn [physicsMarks chemistryMarks biologyMarks totalMarks correctCount
       incorrectCount unattemptedCount wrongQuestions].

(** Settles the tests on a subject once the subject is known. *)
Ltac decide_subject :=
  repeat first
    [ rewrite bool_decide_eq_true_2 by done
    | rewrite bool_decide_eq_false_2 by done
    | rewrite decide_True by done
    | rewrite decide_False by done ].

(** ** The examples of the specification *)

Example spec_example_1 :
  evaluateNeetOMR (RT := sampleRuntime) example_key example_student = Normal example_result.
Proof. vm_compute. reflexivity. Qed.

Example spec_example_2 :
  evaluateNeetOMR (RT := sampleRuntime) [keyRow (num 1) (VString "A")] []
  = Normal
      {| physicsMarks := 0; chemistryMarks := 0; biologyMarks := 0; totalMarks := 0;
         correctCount := 0; incorrectCount := 0; unattemptedCount := 1;
         wrongQuestions := [] |}.
Proof. reflexivity. Qed.

Example spec_example_3 :
  evaluateNeetOMR (RT := sampleRuntime) [keyRow (VString "x") (VString "A")] []
  = Normal initial.
Proof. reflexivity. Qed.

Example null_row_throws :
  evaluateNeetOMR (RT := sampleRuntime) [Prim VNull] [] = Throw TypeError.
Proof. reflexivity. Qed.

(** ** Subject banding *)

Lemma number_le_Finite (x y : Qc) :
  number_le (Finite x) (Finite y) = true ↔ (x ≤ y)%Qc.
Proof. simpl. apply bool_decide_eq_true. Qed.

Lemma getSubject_Physics (q : Qc) :
  (Qc_of_Z 1 ≤ q ≤ Qc_of_Z 50)%Qc → getSubject (Finite q) = "Physics".
Proof.
  intros [Hlo Hhi]. unfold getSubject, number_ge, int.
  apply number_le_Finite in Hlo, Hhi. by rewrite Hlo, Hhi.
Qed.

Lemma Qc_of_Z_le (a b : Z) : a ≤ b → (Qc_of_Z a ≤ Qc_of_Z b)%Qc.
Proof.
  intros Hab. unfold Qcle, Qle. simpl. lia.
Qed.

Lemma Qc_of_Z_lt (a b : Z) : a < b → (Qc_of_Z a < Qc_of_Z b)%Qc.
Proof.
  intros Hab. unfold Qclt, Qlt. simpl. lia.
Qed.

Lemma getSubject_Chemistry (q : Qc) :
  (Qc_of_Z 51 ≤ q ≤ Qc_of_Z 100)%Qc → getSubject (Finite q) = "Chemistry".
Proof.
  intros [Hlo Hhi]. unfold getSubject, number_ge, int.
  assert (Hno : number_le (Finite q) (Finite (Qc_of_Z 50)) = false).
  { apply not_true_is_false. rewrite number_le_Finite. intros Hq.
    assert (Hlt : (Qc_of_Z 50 < Qc_of_Z 51)%Qc) by (by apply Qc_of_Z_lt).
    apply (Qclt_not_le _ _ Hlt). by etrans. }
  apply number_le_Finite in Hlo, Hhi.
  by rewrite Hno, andb_false_r, Hlo, Hhi.
Qed.

Lemma getSubject_Biology (q : Qc) :
  ¬ (Qc_of_Z 1 ≤ q ≤ Qc_of_Z 50)%Qc → ¬ (Qc_of_Z 51 ≤ q ≤ Qc_of_Z 100)%Qc →
  getSubject (Finite q) = "Biology".
Proof.
  intros Hp Hc. unfold getSubject, number_ge, int.
  destruct (number_le (Finite (Qc_of_Z 1)) (Finite q) && number_le (Finite q) (Finite (Qc_of_Z 50))) eqn:E1.
  { apply andb_true_iff in E1 as [?%number_le_Finite ?%number_le_Finite]. by destruct Hp. }
  destruct (number_le (Finite (Qc_of_Z 51)) (Finite q) && number_le (Finite q) (Finite (Qc_of_Z 100))) eqn:E2.
  { apply andb_true_iff in E2 as [?%number_le_Finite ?%number_le_Finite]. by destruct Hc. }
  done.
Qed.

(** The three subjects are the only values [getSubject] returns. *)
Lemma getSubject_cases (n : number) :
  getSubject n = "Physics" ∨ getSubject n = "Chemistry" ∨ getSubject n = "Biology".
Proof. unfold getSubject. repeat case_match; auto. Qed.

(** C4.  The subject of a question is a function of its number alone:
    numbers from 1 to 50 are Physics, numbers from 51 to 100 are Chemistry,
    and every other number is Biology, whether it lies below 1, above 100,
    strictly between 50 and 51, or is not finite.  At the band limits 50 is
    Physics, 51 and 100 are Chemistry and 101 is Biology. *)
Theorem getSubject_bands :
  (∀ q : Qc,
     ((Qc_of_Z 1 ≤ q ≤ Qc_of_Z 50)%Qc → getSubject (Finite q) = "Physics") ∧
     ((Qc_of_Z 51 ≤ q ≤ Qc_of_Z 100)%Qc → getSubject (Finite q) = "Chemistry") ∧
     (¬ (Qc_of_Z 1 ≤ q ≤ Qc_of_Z 50)%Qc → ¬ (Qc_of_Z 51 ≤ q ≤ Qc_of_Z 100)%Qc →
        getSubject (Finite q) = "Biology") ∧
     ((q < Qc_of_Z 1)%Qc → getSubject (Finite q) = "Biology") ∧
     ((Qc_of_Z 100 < q)%Qc → getSubject (Finite q) = "Biology")) ∧
  (∀ n : number, Number_isFinite n = false → getSubject n = "Biology") ∧
  getSubject (int 50) = "Physics" ∧
  getSubject (int 51) = "Chemistry" ∧
  getSubject (int 100) = "Chemistry" ∧
  getSubject (int 101) = "Biology".
Proof.
  split; [|split; [|by repeat split]].
  - intros q. split_and!.
    + apply getSubject_Physics.
    + apply getSubject_Chemistry.
    + apply getSubject_Biology.
    + intros Hq. apply getSubject_Biology; intros [Hlo Hhi].
      * by apply (Qclt_not_le _ _ Hq).
      * apply (Qclt_not_le _ _ Hq). etrans; [|exact Hlo]. by apply Qc_of_Z_le.
    + intros Hq. apply getSubject_Biology; intros [Hlo Hhi].
      * apply (Qclt_not_le _ _ Hq). etrans; [exact Hhi|]. by apply Qc_of_Z_le.
      * by apply (Qclt_not_le _ _ Hq).
  - by intros [].
Qed.

Lemma getSubject_bands_witness :
  ((Qc_of_Z 1 ≤ Qc_of_Z 7 ≤ Qc_of_Z 50)%Qc ∧ getSubject (int 7) = "Physics") ∧
  ((Qc_of_Z 51 ≤ Qc_of_Z 60 ≤ Qc_of_Z 100)%Qc ∧ getSubject (int 60) = "Chemistry") ∧
  ((Qc_of_Z 0 < Qc_of_Z 1)%Qc ∧ getSubject (int 0) = "Biology") ∧
  ((Qc_of_Z 100 < Qc_of_Z 150)%Qc ∧ getSubject (int 150) = "Biology") ∧
  (Number_isFinite NaN = false ∧ getSubject NaN = "Biology").
Proof.
  destruct getSubject_bands as (Hfinite & Hother & _).
  assert (Hphysics : (Qc_of_Z 1 ≤ Qc_of_Z 7 ≤ Qc_of_Z 50)%Qc)
    by (split; apply Qc_of_Z_le; lia).
  assert (Hchemistry : (Qc_of_Z 51 ≤ Qc_of_Z 60 ≤ Qc_of_Z 100)%Qc)
    by (split; apply Qc_of_Z_le; lia).
  assert (Hbelow : (Qc_of_Z 0 < Qc_of_Z 1)%Qc) by (apply Qc_of_Z_lt; lia).
  assert (Habove : (Qc_of_Z 100 < Qc_of_Z 150)%Qc) by (apply Qc_of_Z_lt; lia).
  split; [split; [exact Hphysics|]|].
  { destruct (Hfinite (Qc_of_Z 7)) as (H & _). exact (H Hphysics). }
  split; [split; [exact Hchemistry|]|].
  { destruct (Hfinite (Qc_of_Z 60)) as (_ & H & _). exact (H Hchemistry). }
  split; [split; [exact Hbelow|]|].
  { destruct (Hfinite (Qc_of_Z 0)) as (_ & _ & _ & H & _). exact (H Hbelow). }
  split; [split; [exact Habove|]|].
  { destruct (Hfinite (Qc_of_Z 150)) as (_ & _ & _ & _ & H). exact (H Habove). }
  split; [reflexivity|]. exact (Hother NaN eq_refl).
Defined.

(** ** The [Map] model *)

Section JSMap_facts.
Context {V : Type}.
Implicit Types (k : number) (v : V) (m : JSMap.t V) (l : list (number * V)).

Lemma JSMap_get_set_eq k v m : JSMap.get k (JSMap.set k v m) = Some v.
Proof.
  induction m as [|[k' v'] m IH]; simpl.
  - by rewrite decide_True.
  - destruct (decide (k' = k)) as [->|Hne]; simpl.
    + by rewrite decide_True.
    + by rewrite decide_False.
Qed.

Lemma JSMap_get_set_ne k k' v m :
  k ≠ k' → JSMap.get k' (JSMap.set k v m) = JSMap.get k' m.
Proof.
  intros Hne. induction m as [|[k0 v0] m IH]; simpl.
  - by rewrite decide_False.
  - destruct (decide (k0 = k)) as [->|Hk]; simpl.
    + by rewrite !decide_False.
    + by rewrite IH.
Qed.

Lemma JSMap_get_set k k' v m :
  JSMap.get k' (JSMap.set k v m) = if decide (k = k') then Some v else JSMap.get k' m.
Proof.
  destruct (decide (k = k')) as [->|Hne].
  - apply JSMap_get_set_eq.
  - by apply JSMap_get_set_ne.
Qed.

Lemma JSMap_keys_set k v m :
  JSMap.keys (JSMap.set k v m) =
  if decide (k ∈ JSMap.keys m) then JSMap.keys m else JSMap.keys m ++ [k].
Proof.
  unfold JSMap.keys. induction m as [|[k' v'] m IH].
  - by rewrite decide_False by apply not_elem_of_nil.
  - cbn [JSMap.set fmap list_fmap fst].
    destruct (decide (k' = k)) as [->|Hne]; cbn [fmap list_fmap fst].
    + rewrite decide_True; [done|]. apply elem_of_cons; auto.
    + rewrite IH. destruct (decide (k ∈ m.*1)) as [Hin|Hin].
      * rewrite decide_True; [done|]. apply elem_of_cons; auto.
      * rewrite decide_False; [done|]. rewrite elem_of_cons. intros [?|?]; auto.
Qed.

Lemma JSMap_get_Some_elem k v m : JSMap.get k m = Some v → (k, v) ∈ m.
Proof.
  induction m as [|[k' v'] m IH]; simpl; [done|].
  destruct (decide (k' = k)) as [->|Hne].
  - intros [= ->]. apply elem_of_cons; auto.
  - intros Hget. apply elem_of_cons; auto.
Qed.

Lemma JSMap_elem_get k v m :
  NoDup (JSMap.keys m) → (k, v) ∈ m → JSMap.get k m = Some v.
Proof.
  unfold JSMap.keys. induction m as [|[k' v'] m IH]; simpl.
  - intros _ Hin. by apply elem_of_nil in Hin.
  - intros [Hnin Hnd]%NoDup_cons [[= -> ->]|Hin]%elem_of_cons.
    + by rewrite decide_True.
    + rewrite decide_False; [by apply IH|].
      intros ->. apply Hnin. apply list_elem_of_fmap. by exists (k, v).
Qed.

Lemma JSMap_NoDup_set k v m :
  NoDup (JSMap.keys m) → NoDup (JSMap.keys (JSMap.set k v m)).
Proof.
  intros Hnd. rewrite JSMap_keys_set. case_decide; [done|].
  apply NoDup_app. split_and!; [done| |apply NoDup_singleton].
  intros x Hx ->%list_elem_of_singleton. done.
Qed.

Lemma set_all_snoc l k v m :
  set_all (l ++ [(k, v)]) m = JSMap.set k v (set_all l m).
Proof. unfold set_all. by rewrite fold_left_app. Qed.

Lemma set_all_NoDup l m :
  NoDup (JSMap.keys m) → NoDup (JSMap.keys (set_all l m)).
Proof.
  revert m. induction l as [|[k v] l IH]; intros m Hnd; simpl; [done|].
  apply IH. by apply JSMap_NoDup_set.
Qed.

End JSMap_facts.

(** ** First-seen order and last binding *)

Lemma elem_of_first_seen (x : number) (l : list number) :
  x ∈ first_seen l ↔ x ∈ l.
Proof.
  induction l as [|y l IH]; simpl; [done|].
  rewrite !elem_of_cons, list_elem_of_filter, IH.
  destruct (decide (x = y)); tauto.
Qed.

Lemma NoDup_first_seen (l : list number) : NoDup (first_seen l).
Proof.
  induction l as [|y l IH]; simpl; [constructor|].
  apply NoDup_cons. split.
  - rewrite list_elem_of_filter. by intros [? _].
  - by apply NoDup_filter.
Qed.

Lemma first_seen_snoc (l : list number) (x : number) :
  first_seen (l ++ [x]) = if decide (x ∈ l) then first_seen l else first_seen l ++ [x].
Proof.
  induction l as [|y l IH]; [done|].
  cbn [app first_seen]. rewrite IH. destruct (decide (x ∈ l)) as [Hin|Hin].
  - rewrite decide_True; [done|]. apply elem_of_cons; auto.
  - destruct (decide (x = y)) as [->|Hne].
    + rewrite decide_True by (apply elem_of_cons; auto).
      rewrite filter_app, filter_cons_False, filter_nil by (by intros ?).
      by rewrite app_nil_r.
    + rewrite decide_False by (rewrite elem_of_cons; tauto).
      by rewrite filter_app, filter_cons_True, filter_nil.
Qed.

Lemma lookup_last_snoc {V} (k k' : number) (v : V) (l : list (number * V)) :
  lookup_last k (l ++ [(k', v)]) = if decide (k' = k) then Some v else lookup_last k l.
Proof.
  induction l as [|[k0 v0] l IH]; simpl.
  - done.
  - rewrite IH. destruct (decide (k' = k)); [done|]. done.
Qed.

(** The map built by a sequence of [set] calls lists the keys in
    first-seen order and binds each to its last value. *)
Lemma keys_set_all {V} (l : list (number * V)) :
  JSMap.keys (set_all l JSMap.empty) = first_seen l.*1.
Proof.
  induction l as [|[k v] l IH] using rev_ind; [done|].
  rewrite set_all_snoc, JSMap_keys_set, IH, fmap_app. simpl.
  rewrite first_seen_snoc.
  destruct (decide (k ∈ l.*1)) as [Hin|Hin].
  - rewrite decide_True; [done|]. by apply elem_of_first_seen.
  - rewrite decide_False; [done|]. by rewrite elem_of_first_seen.
Qed.

Lemma get_set_all {V} (k : number) (l : list (number * V)) :
  JSMap.get k (set_all l JSMap.empty) = lookup_last k l.
Proof.
  induction l as [|[k' v] l IH] using rev_ind; [done|].
  by rewrite set_all_snoc, JSMap_get_set, lookup_last_snoc, IH.
Qed.

Lemma entries_set_all {V} (l : list (number * V)) (k : number) (v : V) :
  (k, v) ∈ JSMap.entries (set_all l JSMap.empty) ↔ lookup_last k l = Some v.
Proof.
  rewrite <-get_set_all. unfold JSMap.entries. split.
  - apply JSMap_elem_get. apply set_all_NoDup. constructor.
  - apply JSMap_get_Some_elem.
Qed.

(** ** The two loops that build the maps *)

Section loops.
Context `{RT : Runtime}.

Lemma normalized_inline (v : prim) :
  (if neq_null v then VString (toUpperCase (ToString v)) else VNull) = normalized v.
Proof. by destruct v. Qed.

Lemma Get_readable (item : value) (k : string) :
  readable item = true → Get item k = Normal (field item k).
Proof. by destruct item as [[]|]. Qed.

Lemma Get_unreadable (item : value) (k : string) :
  readable item = false → Get item k = Throw TypeError.
Proof. by destruct item as [[]|]. Qed.

Lemma answerKey_body_readable (m : JSMap.t prim) (item : value) :
  readable item = true →
  answerKey_body m item = Normal (set_all (option_list (keyEntry item)) m).
Proof.
  intros Hr. unfold answerKey_body, keyEntry, rowNumber.
  rewrite !Get_readable by done. cbn [mbind completion_bind].
  destruct (Number_isFinite _); [|done]. cbn [negb mbind completion_bind andb].
  rewrite normalized_inline. by destruct (ToBoolean _).
Qed.

Lemma studentAnswers_body_readable (m : JSMap.t (gmap string prim)) (item : value) :
  readable item = true →
  studentAnswers_body m item = Normal (set_all (option_list (studentEntry item)) m).
Proof.
  intros Hr. unfold studentAnswers_body, studentEntry, rowNumber.
  rewrite !Get_readable by done. cbn [mbind completion_bind].
  destruct (Number_isFinite _); [|done]. cbn [negb mbind completion_bind].
  by rewrite normalized_inline.
Qed.

Lemma answerKey_body_unreadable (m : JSMap.t prim) (item : value) :
  readable item = false → answerKey_body m item = Throw TypeError.
Proof. intros Hr. unfold answerKey_body. by rewrite !Get_unreadable by done. Qed.

Lemma studentAnswers_body_unreadable (m : JSMap.t (gmap string prim)) (item : value) :
  readable item = false → studentAnswers_body m item = Throw TypeError.
Proof. intros Hr. unfold studentAnswers_body. by rewrite !Get_unreadable by done. Qed.

Lemma forOf_answerKey (items : list value) (m : JSMap.t prim) :
  forOf answerKey_body items m =
  if forallb readable items then Normal (set_all (omap keyEntry items) m)
  else Throw TypeError.
Proof.
  revert m. induction items as [|item items IH]; intros m; [done|].
  cbn [forOf forallb]. destruct (readable item) eqn:Hr.
  - rewrite answerKey_body_readable by done. cbn [mbind completion_bind andb].
    rewrite IH. destruct (forallb readable items); [|done].
    cbn [omap list_omap]. by destruct (keyEntry item).
  - by rewrite answerKey_body_unreadable.
Qed.

Lemma forOf_studentAnswers (items : list value) (m : JSMap.t (gmap string prim)) :
  forOf studentAnswers_body items m =
  if forallb readable items then Normal (set_all (omap studentEntry items) m)
  else Throw TypeError.
Proof.
  revert m. induction items as [|item items IH]; intros m; [done|].
  cbn [forOf forallb]. destruct (readable item) eqn:Hr.
  - rewrite studentAnswers_body_readable by done. cbn [mbind completion_bind andb].
    rewrite IH. destruct (forallb readable items); [|done].
    cbn [omap list_omap]. by destruct (studentEntry item).
  - by rewrite studentAnswers_body_unreadable.
Qed.

(** The evaluator throws exactly when some row cannot be read; otherwise it
    scores the key mapping against the student lookup. *)
Lemma evaluateNeetOMR_unfold (answerKey studentAnswers : list value) :
  evaluateNeetOMR answerKey studentAnswers =
  if forallb readable answerKey && forallb readable studentAnswers
  then Normal (fold_left (scoring_body (studentLookup studentAnswers))
                 (JSMap.entries (keyMapping answerKey)) initial)
  else Throw TypeError.
Proof.
  unfold evaluateNeetOMR. rewrite forOf_answerKey, forOf_studentAnswers.
  destruct (forallb readable answerKey); [|done].
  by destruct (forallb readable studentAnswers).
Qed.

(** The maps of a run that returns are the key mapping and the student
    lookup. *)
Lemma forOf_answerKey_Normal (answerKey : list value) (answerKeyMap : JSMap.t prim) :
  forOf answerKey_body answerKey JSMap.empty = Normal answerKeyMap →
  answerKeyMap = keyMapping answerKey.
Proof.
  rewrite forOf_answerKey. destruct (forallb readable answerKey); [|done].
  by intros [= <-].
Qed.

Lemma forOf_studentAnswers_Normal (studentAnswers : list value) (studentMap : JSMap.t (gmap string prim)) :
  forOf studentAnswers_body studentAnswers JSMap.empty = Normal studentMap →
  studentMap = studentLookup studentAnswers.
Proof.
  rewrite forOf_studentAnswers. destruct (forallb readable studentAnswers); [|done].
  by intros [= <-].
Qed.

Lemma evaluateNeetOMR_Normal_maps (answerKey studentAnswers : list value) (r : EvaluationResult) :
  evaluateNeetOMR answerKey studentAnswers = Normal r →
  forOf answerKey_body answerKey JSMap.empty = Normal (keyMapping answerKey) ∧
  forOf studentAnswers_body studentAnswers JSMap.empty = Normal (studentLookup studentAnswers).
Proof.
  rewrite evaluateNeetOMR_unfold, forOf_answerKey, forOf_studentAnswers.
  destruct (forallb readable answerKey); [|done].
  by destruct (forallb readable studentAnswers).
Qed.

Lemma evaluateNeetOMR_Normal (answerKey studentAnswers : list value) (r : EvaluationResult) :
  evaluateNeetOMR answerKey studentAnswers = Normal r →
  r = fold_left (scoring_body (studentLookup studentAnswers))
        (JSMap.entries (keyMapping answerKey)) initial.
Proof.
  rewrite evaluateNeetOMR_unfold. destruct (_ && _); [|done]. by intros [= <-].
Qed.

End loops.

(** ** The scoring loop *)

Lemma lookup_last_fmap {V W} (f : V → W) (k : number) (l : list (number * V)) :
  lookup_last k (prod_map id f <$> l) = f <$> lookup_last k l.
Proof.
  induction l as [|[k' v] l IH]; [done|].
  cbn [fmap list_fmap lookup_last prod_map fst snd id]. fold (fmap (M:=list) (prod_map id f) l).
  rewrite IH. destruct (lookup_last k l); [done|]. by case_decide.
Qed.

Section scoring.
Context `{RT : Runtime}.

Lemma studentSelection_entry (item : value) :
  studentSelection item =
  prod_map id (λ e : gmap string prim, default VUndefined (e !! "selectedOption"))
    <$> studentEntry item.
Proof.
  unfold studentSelection, studentEntry. destruct (Number_isFinite _); [|done].
  cbn [fmap option_fmap option_map prod_map fst snd id]. by rewrite lookup_insert_eq.
Qed.

Lemma omap_studentSelection (items : list value) :
  omap studentSelection items =
  prod_map id (λ e : gmap string prim, default VUndefined (e !! "selectedOption"))
    <$> omap studentEntry items.
Proof.
  induction items as [|item items IH]; [done|].
  cbn [omap list_omap]. rewrite studentSelection_entry.
  destruct (studentEntry item); cbn [fmap option_fmap option_map list_fmap]; by rewrite IH.
Qed.

(** The selection stored for a question is a string or [null]. *)
Lemma lookup_last_studentSelection (items : list value) (q : number) (v : prim) :
  lookup_last q (omap studentSelection items) = Some v →
  v = VNull ∨ ∃ s, v = VString s.
Proof.
  induction items as [|item items IH]; [done|].
  cbn [omap list_omap]. destruct (studentSelection item) as [[q' v']|] eqn:E; [|done].
  cbn [lookup_last]. destruct (lookup_last q _); [done|].
  case_decide; [|done]. intros [= <-].
  unfold studentSelection in E. destruct (Number_isFinite _); [|done].
  injection E as _ <-. destruct (field item "selectedOption"); eauto.
Qed.

(** One round of the scoring loop is one application of the marking scheme. *)
Lemma scoring_body_markingScheme (studentAnswers : list value) (st : EvaluationResult) (q : number) (c : prim) :
  scoring_body (studentLookup studentAnswers) st (q, c) =
  markingScheme (attempt studentAnswers q) q c st.
Proof.
  unfold scoring_body, attempt, studentLookup.
  rewrite get_set_all, omap_studentSelection, lookup_last_fmap.
  pose proof (lookup_last_studentSelection studentAnswers q) as Hsel.
  rewrite omap_studentSelection, lookup_last_fmap in Hsel.
  destruct (lookup_last q (omap studentEntry studentAnswers)) as [e|]; [|done].
  cbn [fmap option_fmap option_map] in *.
  destruct (Hsel _ eq_refl) as [->|[s ->]]; [done|].
  cbn [ToBoolean]. destruct (decide (s = "")) as [->|Hs]; [done|].
  rewrite bool_decide_eq_false_2 by done. cbn [negb markingScheme].
  assert (strict_eq (VString s) c = bool_decide (VString s = c)) as ->.
  { destruct c as [| | |n|]; try done. by destruct n. }
  unfold share. destruct st.
  destruct (decide (VString s = c)) as [Heq|Hne].
  - rewrite bool_decide_eq_true_2 by done.
    destruct (getSubject_cases q) as [-> | [-> | ->]];
      decide_subject; unfold_assignments; f_equal; lia.
  - rewrite bool_decide_eq_false_2 by done.
    destruct (getSubject_cases q) as [-> | [-> | ->]];
      decide_subject; unfold_assignments; f_equal; lia.
Qed.

Lemma fold_scoring_markingScheme (studentAnswers : list value) (es : list (number * prim)) (st : EvaluationResult) :
  fold_left (scoring_body (studentLookup studentAnswers)) es st =
  fold_left (λ st e, markingScheme (attempt studentAnswers e.1) e.1 e.2 st) es st.
Proof.
  revert st. induction es as [|[q c] es IH]; intros st; [done|].
  cbn [fold_left fst snd]. by rewrite scoring_body_markingScheme, IH.
Qed.

End scoring.

(** ** What the marking scheme preserves *)

Lemma share_sum (q : number) (d : Z) :
  share q "Physics" d + share q "Chemistry" d + share q "Biology" d = d.
Proof.
  unfold share. destruct (getSubject_cases q) as [-> | [-> | ->]]; decide_subject; lia.
Qed.

Section invariants.
Context (attempt_of : number → option prim).

Local Abbreviation run es st :=
  (fold_left (λ st e, markingScheme (attempt_of e.1) e.1 e.2 st) es st).

Lemma markingScheme_fold_ind (P : EvaluationResult → Prop) (es : list (number * prim)) (st : EvaluationResult) :
  P st →
  (∀ st sel q c, P st → P (markingScheme sel q c st)) →
  P (run es st).
Proof.
  intros Hst Hstep. revert st Hst. unfold run.
  induction es as [|[q c] es IH]; intros st Hst; [done|].
  cbn [fold_left]. apply IH. by apply Hstep.
Qed.

Lemma markingScheme_subjects (es : list (number * prim)) (st : EvaluationResult) :
  totalMarks st = physicsMarks st + chemistryMarks st + biologyMarks st →
  totalMarks (run es st) =
  physicsMarks (run es st) + chemistryMarks (run es st) + biologyMarks (run es st).
Proof.
  intros Hst.
  apply (markingScheme_fold_ind
           (λ st, totalMarks st = physicsMarks st + chemistryMarks st + biologyMarks st));
    [done|].
  clear. intros st sel q c Hst. unfold markingScheme.
  pose proof (share_sum q 4). pose proof (share_sum q 1).
  destruct sel as [s|]; [case_decide|]; cbn; lia.
Qed.

Lemma markingScheme_total (es : list (number * prim)) (st : EvaluationResult) :
  totalMarks st = 4 * correctCount st - incorrectCount st →
  totalMarks (run es st) = 4 * correctCount (run es st) - incorrectCount (run es st).
Proof.
  intros Hst.
  apply (markingScheme_fold_ind
           (λ st, totalMarks st = 4 * correctCount st - incorrectCount st)); [done|].
  clear. intros st sel q c Hst. unfold markingScheme.
  destruct sel as [s|]; [case_decide|]; cbn; lia.
Qed.

Lemma markingScheme_wrong (es : list (number * prim)) (st : EvaluationResult) :
  Z.of_nat (length (wrongQuestions st)) = incorrectCount st →
  Z.of_nat (length (wrongQuestions (run es st))) = incorrectCount (run es st).
Proof.
  intros Hst.
  apply (markingScheme_fold_ind
           (λ st, Z.of_nat (length (wrongQuestions st)) = incorrectCount st)); [done|].
  clear. intros st sel q c Hst. unfold markingScheme.
  destruct sel as [s|]; [case_decide|]; cbn; rewrite ?length_app; cbn; lia.
Qed.

Lemma markingScheme_counts (es : list (number * prim)) (st : EvaluationResult) :
  correctCount (run es st) + incorrectCount (run es st) + unattemptedCount (run es st) =
  correctCount st + incorrectCount st + unattemptedCount st + Z.of_nat (length es).
Proof.
  revert st. unfold run. induction es as [|[q c] es IH]; intros st.
  - cbn. lia.
  - cbn [fold_left length]. rewrite IH. unfold markingScheme. cbn [fst snd].
    destruct (attempt_of q) as [s|]; [case_decide|]; cbn; lia.
Qed.

End invariants.

(** ** The evaluator as a whole *)

Lemma fold_left_ext_elem {A B} (f g : A → B → A) (l : list B) (a : A) :
  (∀ a b, b ∈ l → f a b = g a b) → fold_left f l a = fold_left g l a.
Proof.
  revert a. induction l as [|b l IH]; intros a Hfg; [done|].
  cbn [fold_left]. rewrite Hfg by apply list_elem_of_here.
  apply IH. intros a' b' Hb'. apply Hfg. by apply list_elem_of_further.
Qed.

Lemma first_seen_length (l : list number) :
  length (first_seen l) = length (remove_dups l).
Proof.
  apply Permutation_length, NoDup_Permutation.
  - apply NoDup_first_seen.
  - apply NoDup_remove_dups.
  - intros x. by rewrite elem_of_first_seen, elem_of_remove_dups.
Qed.

Section evaluator_facts.
Context `{RT : Runtime}.

Lemma keys_keyMapping (answerKey : list value) :
  JSMap.keys (keyMapping answerKey) = first_seen (keyNumbers answerKey).
Proof. apply keys_set_all. Qed.

Lemma elem_of_keyMapping (answerKey : list value) (q : number) (c : prim) :
  (q, c) ∈ JSMap.entries (keyMapping answerKey) → q ∈ keyNumbers answerKey.
Proof.
  intros Hin. apply elem_of_first_seen. rewrite <-keys_keyMapping.
  unfold JSMap.keys. apply list_elem_of_fmap. by exists (q, c).
Qed.

Lemma length_keyMapping (answerKey : list value) :
  length (JSMap.entries (keyMapping answerKey)) =
  length (remove_dups (keyNumbers answerKey)).
Proof.
  rewrite <-first_seen_length, <-keys_keyMapping. unfold JSMap.keys, JSMap.entries.
  by rewrite length_fmap.
Qed.

(** The result, when there is one, is the marking scheme run over the key
    mapping. *)
Lemma evaluateNeetOMR_scheme (answerKey studentAnswers : list value) (r : EvaluationResult) :
  evaluateNeetOMR answerKey studentAnswers = Normal r →
  r = fold_left (λ st e, markingScheme (attempt studentAnswers e.1) e.1 e.2 st)
        (JSMap.entries (keyMapping answerKey)) initial.
Proof.
  intros ->%evaluateNeetOMR_Normal. apply fold_scoring_markingScheme.
Qed.

(** Two submissions with the same attempts on the questions of the key, and
    both readable or both not, are evaluated alike. *)
Lemma evaluateNeetOMR_ext (answerKey studentAnswers studentAnswers' : list value) :
  forallb readable studentAnswers = forallb readable studentAnswers' →
  (∀ q, q ∈ keyNumbers answerKey → attempt studentAnswers q = attempt studentAnswers' q) →
  evaluateNeetOMR answerKey studentAnswers = evaluateNeetOMR answerKey studentAnswers'.
Proof.
  intros Hr Hatt. rewrite !evaluateNeetOMR_unfold, Hr, !fold_scoring_markingScheme.
  destruct (_ && _); [|done]. f_equal.
  apply fold_left_ext_elem. intros st [q c] Hin. cbn [fst snd].
  by rewrite (Hatt q) by by eapply elem_of_keyMapping.
Qed.

Lemma is_record_readable (items : list value) :
  Forall is_record items → forallb readable items = true.
Proof.
  induction 1 as [|item items Hitem _ IH]; [done|].
  cbn [forallb]. rewrite IH. by destruct item.
Qed.

End evaluator_facts.

(** C3.  Whenever the evaluator returns a result, its total is the sum of
    the three subject marks. *)
Theorem total_is_sum_of_subjects `{RT : Runtime} (answerKey studentAnswers : list value) (r : EvaluationResult) :
  evaluateNeetOMR answerKey studentAnswers = Normal r →
  totalMarks r = physicsMarks r + chemistryMarks r + biologyMarks r.
Proof.
  intros ->%evaluateNeetOMR_scheme. by apply markingScheme_subjects.
Qed.

Lemma total_is_sum_of_subjects_witness :
  evaluateNeetOMR (RT := sampleRuntime) example_key example_student = Normal example_result ∧
  totalMarks example_result =
  physicsMarks example_result + chemistryMarks example_result + biologyMarks example_result.
Proof.
  split; [vm_compute; reflexivity|].
  apply (total_is_sum_of_subjects (RT := sampleRuntime) example_key example_student).
  vm_compute; reflexivity.
Defined.

(** C10.  Whenever the evaluator returns a result, its total is four marks
    per correct answer less one per incorrect answer, and it lists as many
    wrong questions as it counts incorrect answers. *)
Theorem total_from_counts `{RT : Runtime} (answerKey studentAnswers : list value) (r : EvaluationResult) :
  evaluateNeetOMR answerKey studentAnswers = Normal r →
  totalMarks r = 4 * correctCount r - incorrectCount r ∧
  Z.of_nat (length (wrongQuestions r)) = incorrectCount r.
Proof.
  intros ->%evaluateNeetOMR_scheme. split.
  - by apply markingScheme_total.
  - by apply markingScheme_wrong.
Qed.

Lemma total_from_counts_witness :
  evaluateNeetOMR (RT := sampleRuntime) example_key example_student = Normal example_result ∧
  totalMarks example_result = 4 * correctCount example_result - incorrectCount example_result ∧
  Z.of_nat (length (wrongQuestions example_result)) = incorrectCount example_result.
Proof.
  split; [vm_compute; reflexivity|].
  apply (total_from_counts (RT := sampleRuntime) example_key example_student).
  vm_compute; reflexivity.
Defined.

(** C1.  Whenever the evaluator returns a result, the result is what the
    marking scheme gives when applied, from the all-zero state, to the
    entries of the map the loop over the answer key has built, in their
    order: a question without an attempt (no student row for it, or a null
    or empty selection) adds one to the unattempted count and changes no
    mark; an attempt equal to the correct option adds one to the correct
    count and four to the total and to the mark of the question's subject;
    any other attempt adds one to the incorrect count, takes one from the
    total and from the mark of the question's subject, and appends the
    wrong-question record. *)
Theorem marking_scheme_applied `{RT : Runtime} (answerKey studentAnswers : list value) (r : EvaluationResult) :
  evaluateNeetOMR answerKey studentAnswers = Normal r →
  ∃ answerKeyMap,
    forOf answerKey_body answerKey JSMap.empty = Normal answerKeyMap ∧
    r = fold_left (λ st e, markingScheme (attempt studentAnswers e.1) e.1 e.2 st)
          (JSMap.entries answerKeyMap) initial.
Proof.
  intros Hr. exists (keyMapping answerKey). split.
  - by apply evaluateNeetOMR_Normal_maps in Hr as [? _].
  - apply evaluateNeetOMR_Normal in Hr as ->.
    apply fold_left_ext_elem. intros st [q c] _. apply scoring_body_markingScheme.
Qed.

Lemma marking_scheme_applied_witness :
  evaluateNeetOMR (RT := sampleRuntime) example_key example_student = Normal example_result ∧
  ∃ answerKeyMap,
    forOf (answerKey_body (RT := sampleRuntime)) example_key JSMap.empty = Normal answerKeyMap ∧
    example_result =
    fold_left (λ st e, markingScheme (attempt (RT := sampleRuntime) example_student e.1) e.1 e.2 st)
      (JSMap.entries answerKeyMap) initial.
Proof.
  split; [vm_compute; reflexivity|].
  apply (marking_scheme_applied (RT := sampleRuntime) example_key example_student).
  vm_compute; reflexivity.
Defined.

Section student_only.
Context `{RT : Runtime}.

Lemma lookup_last_cons_ne {V} (k k' : number) (v : V) (l : list (number * V)) :
  k' ≠ k → lookup_last k ((k', v) :: l) = lookup_last k l.
Proof.
  intros Hne. cbn [lookup_last]. destruct (lookup_last k l); [done|].
  by rewrite decide_False.
Qed.

(** Student rows whose number is not [q] do not bear on the selection for
    [q]. *)
Lemma selection_filter (P : value → Prop) `{∀ item, Decision (P item)} (items : list value) (q : number) :
  (∀ item, item ∈ items → ¬ P item → rowNumber item ≠ q) →
  lookup_last q (omap studentSelection (filter P items)) =
  lookup_last q (omap studentSelection items).
Proof.
  induction items as [|item items IH]; intros Hq; [done|].
  rewrite filter_cons.
  assert (IH' : lookup_last q (omap studentSelection (filter P items)) =
                lookup_last q (omap studentSelection items)).
  { apply IH. intros item' Hin. apply Hq. by apply list_elem_of_further. }
  destruct (decide (P item)) as [HP|HP]; cbn [omap list_omap].
  - destruct (studentSelection item) as [[q' v]|]; [|done].
    cbn [lookup_last]. by rewrite IH'.
  - rewrite IH'. unfold studentSelection at 2.
    destruct (Number_isFinite _); [|done].
    rewrite lookup_last_cons_ne; [done|].
    apply Hq; [apply list_elem_of_here | done].
Qed.

Lemma filter_is_record (P : value → Prop) `{∀ item, Decision (P item)} (items : list value) :
  Forall is_record items → Forall is_record (filter P items).
Proof.
  intros Hall. apply Forall_forall. intros item [_ Hin]%list_elem_of_filter.
  by eapply Forall_forall in Hall.
Qed.

End student_only.

(** C2.  Whenever the evaluator returns a result, the correct, incorrect and
    unattempted counts add up to the number of distinct question numbers
    among the answer-key rows that are not dropped.  And the student rows
    whose question number is not one of those contribute nothing: with all
    of them taken out of a submission of records, the evaluation is the
    same. *)
Theorem counts_cover_the_key `{RT : Runtime} (answerKey : list value) :
  (∀ studentAnswers r,
     evaluateNeetOMR answerKey studentAnswers = Normal r →
     correctCount r + incorrectCount r + unattemptedCount r =
     Z.of_nat (length (remove_dups (keyNumbers answerKey)))) ∧
  (∀ studentAnswers,
     Forall is_record studentAnswers →
     evaluateNeetOMR answerKey studentAnswers =
     evaluateNeetOMR answerKey
       (filter (λ item, rowNumber item ∈ keyNumbers answerKey) studentAnswers)).
Proof.
  split.
  - intros studentAnswers r ->%evaluateNeetOMR_scheme.
    rewrite markingScheme_counts, length_keyMapping. cbn. lia.
  - intros studentAnswers Hrec. apply evaluateNeetOMR_ext.
    + rewrite !is_record_readable; [done| |done]. by apply filter_is_record.
    + intros q Hq. unfold attempt. rewrite selection_filter; [done|].
      intros item _ Hnot Heq. apply Hnot. by rewrite Heq.
Qed.

Lemma counts_cover_the_key_witness :
  evaluateNeetOMR (RT := sampleRuntime) example_key example_student = Normal example_result ∧
  correctCount example_result + incorrectCount example_result + unattemptedCount example_result =
    Z.of_nat (length (remove_dups (keyNumbers (RT := sampleRuntime) example_key))) ∧
  Forall is_record (studentRow (num 7) (VString "D") :: example_student) ∧
  evaluateNeetOMR (RT := sampleRuntime) example_key
    (studentRow (num 7) (VString "D") :: example_student) =
  evaluateNeetOMR (RT := sampleRuntime) example_key
    (filter (λ item, rowNumber (RT := sampleRuntime) item ∈ keyNumbers (RT := sampleRuntime) example_key)
       (studentRow (num 7) (VString "D") :: example_student)).
Proof.
  destruct (counts_cover_the_key (RT := sampleRuntime) example_key) as [Hcount Honly].
  split_and!.
  - vm_compute; reflexivity.
  - apply (Hcount example_student). vm_compute; reflexivity.
  - repeat constructor.
  - apply Honly. repeat constructor.
Defined.

(** ** Duplicate rows *)

Lemma JSMap_get_cons_fresh {V} (k : number) (v : V) (m : JSMap.t V) (ks : list number) :
  k ∉ ks →
  omap (λ k', pair k' <$> JSMap.get k' ((k, v) :: m)) ks =
  omap (λ k', pair k' <$> JSMap.get k' m) ks.
Proof.
  induction ks as [|k' ks IH]; [done|].
  intros [Hne Hnin]%not_elem_of_cons.
  cbn [omap list_omap]. rewrite IH by done. cbn [JSMap.get].
  by rewrite decide_False.
Qed.

(** A map without duplicate keys is its keys, in order, each with the value
    it is bound to. *)
Lemma JSMap_entries_keys {V} (m : JSMap.t V) :
  NoDup (JSMap.keys m) →
  JSMap.entries m = omap (λ k, pair k <$> JSMap.get k m) (JSMap.keys m).
Proof.
  unfold JSMap.keys, JSMap.entries. induction m as [|[k v] m IH]; [done|].
  rewrite fmap_cons. intros [Hnin Hnd]%NoDup_cons.
  cbn [omap list_omap fst]. rewrite JSMap_get_cons_fresh by done.
  cbn [JSMap.get]. rewrite decide_True by done.
  cbn [fmap option_fmap option_map]. f_equal. by apply IH.
Qed.

Lemma JSMap_set_fresh {V} (k : number) (v : V) (m : JSMap.t V) :
  k ∉ JSMap.keys m → JSMap.set k v m = m ++ [(k, v)].
Proof.
  unfold JSMap.keys. induction m as [|[k' v'] m IH]; [done|].
  intros [Hne Hnin]%not_elem_of_cons. cbn [JSMap.set].
  rewrite decide_False by done. by rewrite IH.
Qed.

Section duplicates.
Context `{RT : Runtime}.

Lemma entries_keyMapping (answerKey : list value) :
  JSMap.entries (keyMapping answerKey) =
  omap (λ q, pair q <$> lookup_last q (omap keyEntry answerKey))
    (first_seen (keyNumbers answerKey)).
Proof.
  rewrite JSMap_entries_keys by (apply set_all_NoDup; constructor).
  rewrite keys_keyMapping. unfold keyMapping.
  induction (first_seen _) as [|q qs IH]; [done|].
  cbn [omap list_omap]. by rewrite get_set_all, IH.
Qed.

End duplicates.

(** C5, as amended.  Rows that the drop rules remove play no part; among the
    rows that survive, the last row of a question number is the one whose
    value the lookup holds, for the answer key (rows with a finite number
    and a non-empty option) and for the student answers (rows with a finite
    number) alike.  The key mapping lists the question numbers of the
    surviving answer-key rows in first-seen order, each with the option of
    its last surviving row, and the evaluation scores its entries in that
    order. *)
Theorem last_surviving_row_wins `{RT : Runtime} (answerKey studentAnswers : list value) (answerKeyMap : JSMap.t prim) (studentMap : JSMap.t (gmap string prim)) :
  forOf answerKey_body answerKey JSMap.empty = Normal answerKeyMap →
  forOf studentAnswers_body studentAnswers JSMap.empty = Normal studentMap →
  (∀ q, JSMap.get q answerKeyMap = lookup_last q (omap keyEntry answerKey)) ∧
  (∀ q, JSMap.get q studentMap = lookup_last q (omap studentEntry studentAnswers)) ∧
  JSMap.keys answerKeyMap = first_seen (keyNumbers answerKey) ∧
  JSMap.entries answerKeyMap =
    omap (λ q, pair q <$> lookup_last q (omap keyEntry answerKey))
      (first_seen (keyNumbers answerKey)) ∧
  evaluateNeetOMR answerKey studentAnswers =
    Normal (fold_left (scoring_body studentMap) (JSMap.entries answerKeyMap) initial).
Proof.
  intros Hkey Hstudent. unfold evaluateNeetOMR. rewrite Hkey, Hstudent.
  rewrite forOf_answerKey in Hkey. rewrite forOf_studentAnswers in Hstudent.
  destruct (forallb readable answerKey); [|done].
  destruct (forallb readable studentAnswers); [|done].
  injection Hkey as <-. injection Hstudent as <-. split_and!.
  - intros q. apply get_set_all.
  - intros q. apply get_set_all.
  - apply keys_keyMapping.
  - apply entries_keyMapping.
  - done.
Qed.

Lemma last_surviving_row_wins_witness :
  let answerKey := [keyRow (num 1) VNull; keyRow (num 2) (VString "A"); keyRow (num 1) (VString "B");
                    keyRow (num 2) (VString "D")] in
  let studentAnswers := [studentRow (num 2) (VString "A"); studentRow (num 2) (VString "d")] in
  let answerKeyMap := [(int 2, VString "D"); (int 1, VString "B")] in
  let studentMap :=
    [(int 2, <["selectedOption" := VString "D"]> (<["questionNumber" := num 2]> ∅))] in
  forOf (answerKey_body (RT := sampleRuntime)) answerKey JSMap.empty = Normal answerKeyMap ∧
  forOf (studentAnswers_body (RT := sampleRuntime)) studentAnswers JSMap.empty = Normal studentMap ∧
  JSMap.keys answerKeyMap = first_seen (keyNumbers (RT := sampleRuntime) answerKey) ∧
  evaluateNeetOMR (RT := sampleRuntime) answerKey studentAnswers =
    Normal (fold_left (scoring_body studentMap) (JSMap.entries answerKeyMap) initial).
Proof.
  intros answerKey studentAnswers answerKeyMap studentMap.
  assert (Hkey : forOf (answerKey_body (RT := sampleRuntime)) answerKey JSMap.empty
                 = Normal answerKeyMap) by (vm_compute; reflexivity).
  assert (Hstudent : forOf (studentAnswers_body (RT := sampleRuntime)) studentAnswers JSMap.empty
                     = Normal studentMap) by (vm_compute; reflexivity).
  destruct (last_surviving_row_wins (RT := sampleRuntime) answerKey studentAnswers
              answerKeyMap studentMap Hkey Hstudent) as (_ & _ & Hkeys & _ & Heval).
  split_and!; assumption.
Defined.

(** C5, as stated, fails when a duplicate row is dropped.  With the rows
    [1:"A"] and [1:null], the value of the last row for question 1 does not
    win: the mapping keeps ["A"] and the answer ["A"] is marked correct.
    With the rows [1:null], [2:"A"] and [1:"B"], the first-seen order of the
    question numbers of the sequence is 1, 2, but the mapping is iterated in
    the order 2, 1, as the order of the wrong questions shows. *)
Lemma dropped_duplicate_counterexample :
  forOf (answerKey_body (RT := sampleRuntime))
    [keyRow (num 1) (VString "A"); keyRow (num 1) VNull] JSMap.empty
  = Normal [(int 1, VString "A")]
  ∧ evaluateNeetOMR (RT := sampleRuntime)
      [keyRow (num 1) (VString "A"); keyRow (num 1) VNull]
      [studentRow (num 1) (VString "A")]
    = Normal
        {| physicsMarks := 4; chemistryMarks := 0; biologyMarks := 0; totalMarks := 4;
           correctCount := 1; incorrectCount := 0; unattemptedCount := 0;
           wrongQuestions := [] |}
  ∧ first_seen
      (rowNumber (RT := sampleRuntime) <$>
         [keyRow (num 1) VNull; keyRow (num 2) (VString "A"); keyRow (num 1) (VString "B")])
    = [int 1; int 2]
  ∧ forOf (answerKey_body (RT := sampleRuntime))
      [keyRow (num 1) VNull; keyRow (num 2) (VString "A"); keyRow (num 1) (VString "B")]
      JSMap.empty
    = Normal [(int 2, VString "A"); (int 1, VString "B")]
  ∧ evaluateNeetOMR (RT := sampleRuntime)
      [keyRow (num 1) VNull; keyRow (num 2) (VString "A"); keyRow (num 1) (VString "B")]
      [studentRow (num 1) (VString "C"); studentRow (num 2) (VString "C")]
    = Normal
        {| physicsMarks := -2; chemistryMarks := 0; biologyMarks := 0; totalMarks := -2;
           correctCount := 0; incorrectCount := 2; unattemptedCount := 0;
           wrongQuestions :=
             [ {| questionNumber := int 2; subject := "Physics";
                  selectedOption := VString "C"; correctOption := VString "A" |};
               {| questionNumber := int 1; subject := "Physics";
                  selectedOption := VString "C"; correctOption := VString "B" |} ] |}
  ∧ [int 2; int 1] ≠ [int 1; int 2].
Proof.
  split_and!; try (vm_compute; reflexivity).
  intros [=].
Qed.

(** ** A new question at the end *)

Section new_question.
Context `{RT : Runtime}.

Lemma attempt_snoc_ne (items : list value) (item : value) (q : number) :
  rowNumber item ≠ q → attempt (items ++ [item]) q = attempt items q.
Proof.
  intros Hne. unfold attempt. rewrite omap_app. cbn [omap list_omap].
  unfold studentSelection at 2. destruct (Number_isFinite _).
  - by rewrite lookup_last_snoc, decide_False.
  - by rewrite app_nil_r.
Qed.

Lemma attempt_snoc_eq (items : list value) (item : value) :
  Number_isFinite (rowNumber item) = true →
  attempt (items ++ [item]) (rowNumber item) =
  match normalized (field item "selectedOption") with
  | VString s => if decide (s = "") then None else Some (VString s)
  | _ => None
  end.
Proof.
  intros Hfin. unfold attempt. rewrite omap_app. cbn [omap list_omap].
  unfold studentSelection at 2. rewrite Hfin.
  by rewrite lookup_last_snoc, decide_True.
Qed.

(** Evaluating with one more key row, for a question the key does not have
    yet, and one more student row for that question, is evaluating without
    them and then marking the new question. *)
Lemma evaluateNeetOMR_snoc (answerKey studentAnswers : list value) (krow srow : value) (q : number) (c : prim) (r : EvaluationResult) :
  readable krow = true → readable srow = true →
  keyEntry krow = Some (q, c) → rowNumber srow = q →
  q ∉ keyNumbers answerKey →
  evaluateNeetOMR answerKey studentAnswers = Normal r →
  evaluateNeetOMR (answerKey ++ [krow]) (studentAnswers ++ [srow]) =
  Normal (markingScheme (attempt (studentAnswers ++ [srow]) q) q c r).
Proof.
  intros Hk Hs Hentry Hnum Hfresh. rewrite !evaluateNeetOMR_unfold, !forallb_app.
  cbn [forallb]. rewrite Hk, Hs, !andb_true_r.
  destruct (_ && _); [|done]. intros [= <-]. f_equal.
  rewrite !fold_scoring_markingScheme.
  unfold keyMapping at 1. rewrite omap_app. cbn [omap list_omap]. rewrite Hentry.
  rewrite set_all_snoc. fold (keyMapping answerKey).
  rewrite JSMap_set_fresh by (by rewrite keys_keyMapping, elem_of_first_seen).
  unfold JSMap.entries. rewrite fold_left_app. cbn [fold_left fst snd]. f_equal.
  apply fold_left_ext_elem. intros st [q' c'] Hin. cbn [fst snd].
  rewrite attempt_snoc_ne; [done|].
  intros Heq. apply Hfresh. rewrite <-Hnum, Heq. by eapply elem_of_keyMapping.
Qed.

(** Where the entries of the key mapping and the attempts come from. *)
Lemma lookup_last_elem {V} (k : number) (v : V) (l : list (number * V)) :
  lookup_last k l = Some v → (k, v) ∈ l.
Proof.
  induction l as [|[k' v'] l IH]; [done|]. cbn [lookup_last].
  destruct (lookup_last k l) as [v1|].
  - intros [= ->]. apply list_elem_of_further. by apply IH.
  - case_decide as Hk; [|done]. intros [= ->]. subst k'. apply list_elem_of_here.
Qed.

Lemma normalized_neq_null (v : prim) :
  neq_null v = true → normalized v = VString (toUpperCase (ToString v)).
Proof. by destruct v. Qed.

Lemma normalized_string (v : prim) (s : string) :
  normalized v = VString s → neq_null v = true ∧ s = toUpperCase (ToString v).
Proof. destruct v; try done; by intros [= <-]. Qed.

Lemma keyMapping_row (answerKey : list value) (q : number) (c : prim) :
  (q, c) ∈ JSMap.entries (keyMapping answerKey) →
  ∃ krow, krow ∈ answerKey ∧ rowNumber krow = q ∧
          neq_null (field krow "correctOption") = true ∧
          c = VString (toUpperCase (ToString (field krow "correctOption"))).
Proof.
  intros Hin. apply entries_set_all, lookup_last_elem, list_elem_of_omap in Hin.
  destruct Hin as (krow & Hkrow & Hentry). exists krow. split; [done|].
  unfold keyEntry in Hentry. destruct (Number_isFinite _ && _) eqn:E; [|done].
  injection Hentry as <- <-. split; [done|].
  apply andb_true_iff in E as [_ Htrue].
  destruct (field krow "correctOption"); try done.
Qed.

Lemma attempt_row (studentAnswers : list value) (q : number) (s : prim) :
  attempt studentAnswers q = Some s →
  ∃ srow, srow ∈ studentAnswers ∧ rowNumber srow = q ∧
          neq_null (field srow "selectedOption") = true ∧
          s = VString (toUpperCase (ToString (field srow "selectedOption"))).
Proof.
  unfold attempt.
  destruct (lookup_last q (omap studentSelection studentAnswers)) as [v|] eqn:E; [|done].
  apply lookup_last_elem, list_elem_of_omap in E as (srow & Hsrow & Hsel).
  destruct v as [| | | |t]; try done. case_decide; [done|]. intros [= <-].
  exists srow. split; [done|]. unfold studentSelection in Hsel.
  destruct (Number_isFinite _); [|done]. injection Hsel as <- Hnorm.
  apply normalized_string in Hnorm as [? ->]. done.
Qed.

End new_question.

(** C6.  Options are compared without regard to case.  In every evaluation,
    the correct option of an entry of the map built from the answer key is
    the upper-cased text of the option of a key row for that question, an
    attempt on the question is the upper-cased text of the selection of a
    student row for it, and the round of the scoring loop for the entry
    scores the question correct, raising the correct count by one, exactly
    when the two are equal; otherwise it leaves the correct count as it was.
    End to end:
    take an evaluation with a result, and add a key row for a question the
    key does not have yet, with an option whose upper-cased text is not
    empty, and a student row for the same question with a selection: the
    correct count goes up by one exactly when the selection in upper case
    equals the correct option in upper case, and does not change otherwise.
    In particular the key option ["a"] matches the selection ["A"]. *)
Theorem option_comparison_ignores_case :
  (∀ (RT : Runtime) (answerKey studentAnswers : list value)
     (answerKeyMap : JSMap.t prim) (studentMap : JSMap.t (gmap string prim))
     (q : number) (c : prim) (st : EvaluationResult),
     forOf answerKey_body answerKey JSMap.empty = Normal answerKeyMap →
     forOf studentAnswers_body studentAnswers JSMap.empty = Normal studentMap →
     (q, c) ∈ JSMap.entries answerKeyMap →
     (∃ krow, krow ∈ answerKey ∧ rowNumber krow = q ∧
              neq_null (field krow "correctOption") = true ∧
              c = VString (toUpperCase (ToString (field krow "correctOption")))) ∧
     (∀ s, attempt studentAnswers q = Some s →
           ∃ srow, srow ∈ studentAnswers ∧ rowNumber srow = q ∧
                   neq_null (field srow "selectedOption") = true ∧
                   s = VString (toUpperCase (ToString (field srow "selectedOption")))) ∧
     (correctCount (scoring_body studentMap st (q, c)) = correctCount st + 1
        ↔ attempt studentAnswers q = Some c) ∧
     (attempt studentAnswers q ≠ Some c →
        correctCount (scoring_body studentMap st (q, c)) = correctCount st)) ∧
  (∀ (RT : Runtime) (answerKey studentAnswers : list value) (krow srow : value)
     (q : number) (cv sv : prim) (r : EvaluationResult),
     is_record krow → is_record srow →
     rowNumber krow = q → rowNumber srow = q → Number_isFinite q = true →
     field krow "correctOption" = cv → neq_null cv = true →
     field srow "selectedOption" = sv → neq_null sv = true →
     toUpperCase (ToString cv) ≠ "" →
     q ∉ keyNumbers answerKey →
     evaluateNeetOMR answerKey studentAnswers = Normal r →
     ∃ r', evaluateNeetOMR (answerKey ++ [krow]) (studentAnswers ++ [srow]) = Normal r' ∧
           (correctCount r' = correctCount r + 1
              ↔ toUpperCase (ToString sv) = toUpperCase (ToString cv)) ∧
           (toUpperCase (ToString sv) ≠ toUpperCase (ToString cv) →
              correctCount r' = correctCount r)) ∧
  evaluateNeetOMR (RT := sampleRuntime)
    [keyRow (num 1) (VString "a")] [studentRow (num 1) (VString "A")]
  = Normal
      {| physicsMarks := 4; chemistryMarks := 0; biologyMarks := 0; totalMarks := 4;
         correctCount := 1; incorrectCount := 0; unattemptedCount := 0;
         wrongQuestions := [] |}.
Proof.
  split_and!; [| |by vm_compute].
  - intros RT answerKey studentAnswers answerKeyMap studentMap q c st
      ->%forOf_answerKey_Normal ->%forOf_studentAnswers_Normal Hin. split_and!.
    + by apply keyMapping_row.
    + apply attempt_row.
    + rewrite scoring_body_markingScheme. unfold markingScheme.
      destruct (attempt studentAnswers q) as [s|]; [case_decide|]; cbn;
        (split; [try lia; congruence | try done; try (intros [= ?]; done)]).
    + rewrite scoring_body_markingScheme. unfold markingScheme.
      destruct (attempt studentAnswers q) as [s|]; [case_decide|]; cbn;
        try done. intros Hne. by subst.
  - intros RT answerKey studentAnswers krow srow q cv sv r
      Hk Hs Hkq Hsq Hfin Hcv Hcnull Hsv Hsnull Hne Hfresh Hr.
    assert (Hentry : keyEntry krow = Some (q, VString (toUpperCase (ToString cv)))).
    { unfold keyEntry. rewrite Hkq, Hfin, Hcv, normalized_neq_null by done. cbn.
      by rewrite bool_decide_eq_false_2. }
    eexists. split.
    { eapply evaluateNeetOMR_snoc; try done; by destruct krow, srow. }
    rewrite <-Hsq, attempt_snoc_eq by (by rewrite Hsq).
    rewrite Hsv, normalized_neq_null by done.
    unfold markingScheme.
    destruct (decide (toUpperCase (ToString sv) = "")) as [Hempty|Hfull].
    + cbn. split; [split; [lia | congruence] | done].
    + destruct (decide (VString (toUpperCase (ToString sv)) =
                        VString (toUpperCase (ToString cv)))) as [Heq|Hneq]; cbn.
      * injection Heq as Heq. split; [done | by intros []].
      * split; [split; [lia | intros Heq; destruct Hneq; by rewrite Heq] | done].
Qed.

Lemma option_comparison_ignores_case_witness :
  (correctCount
     (scoring_body (studentLookup (RT := sampleRuntime) example_student) initial
        (int 51, VString "B")) = correctCount initial + 1
   ↔ attempt (RT := sampleRuntime) example_student (int 51) = Some (VString "B")) ∧
  ∃ r', evaluateNeetOMR (RT := sampleRuntime)
          ([] ++ [keyRow (num 1) (VString "a")]) ([] ++ [studentRow (num 1) (VString "A")])
        = Normal r' ∧
        (correctCount r' = correctCount initial + 1 ↔ upper_string "A" = upper_string "a") ∧
        (upper_string "A" ≠ upper_string "a" → correctCount r' = correctCount initial).
Proof.
  destruct option_comparison_ignores_case as (Hround & Hcase & _). split.
  - apply (Hround sampleRuntime example_key example_student
             (keyMapping (RT := sampleRuntime) example_key)
             (studentLookup (RT := sampleRuntime) example_student)
             (int 51) (VString "B") initial).
    + vm_compute; reflexivity.
    + vm_compute; reflexivity.
    + vm_compute. apply list_elem_of_further, list_elem_of_here.
  - apply (Hcase sampleRuntime [] [] (keyRow (num 1) (VString "a"))
             (studentRow (num 1) (VString "A")) (int 1) (VString "a") (VString "A") initial).
    + exact I.
    + exact I.
    + vm_compute; reflexivity.
    + vm_compute; reflexivity.
    + reflexivity.
    + vm_compute; reflexivity.
    + reflexivity.
    + vm_compute; reflexivity.
    + reflexivity.
    + vm_compute. discriminate.
    + apply not_elem_of_nil.
    + reflexivity.
Defined.

(** ** Malformed rows *)

Section malformed.
Context `{RT : Runtime}.

Lemma keyEntry_dropped (item : value) :
  Number_isFinite (rowNumber item) = false ∨ neq_null (field item "correctOption") = false →
  keyEntry item = None.
Proof.
  unfold keyEntry. intros [->|Hnull]; [done|].
  destruct (field item "correctOption"); try done; by rewrite andb_false_r.
Qed.

Lemma studentEntry_dropped (item : value) :
  Number_isFinite (rowNumber item) = false → studentEntry item = None.
Proof. unfold studentEntry. by intros ->. Qed.

Lemma studentSelection_dropped (item : value) :
  Number_isFinite (rowNumber item) = false → studentSelection item = None.
Proof. unfold studentSelection. by intros ->. Qed.

Lemma forallb_readable_insert (items1 items2 : list value) (item : value) :
  is_record item →
  forallb readable (items1 ++ item :: items2) = forallb readable (items1 ++ items2).
Proof.
  intros Hrec. rewrite !forallb_app. cbn [forallb]. by destruct item.
Qed.

(** With no student row of a finite number, nothing is attempted. *)
Lemma attempt_all_dropped (items : list value) (q : number) :
  Forall (λ item, Number_isFinite (rowNumber item) = false) items →
  attempt items q = None.
Proof.
  intros Hall. unfold attempt.
  replace (omap studentSelection items) with (@nil (number * prim)); [done|].
  induction Hall as [|item items Hitem _ IH]; [done|].
  cbn [omap list_omap]. by rewrite studentSelection_dropped.
Qed.

End malformed.

(** Malformed rows whose fields are primitives are dropped.  An answer-key
    row that is a record but whose question number does not coerce to a
    finite number, or whose
    correct option is null or missing, contributes nothing: without it the
    loop over the answer key builds the same map and the evaluation is the
    same.  A student row that is a record but whose question number does not
    coerce to a finite number is not in the student lookup: without it the
    loop over the student answers builds the same map and the evaluation is
    the same.  And when every student row is of that kind, each question of
    the key is counted as unattempted: no answer is correct or incorrect, no
    mark is given and no wrong question is listed. *)
Lemma malformed_rows_are_dropped `{RT : Runtime} :
  (∀ (key1 key2 studentAnswers : list value) (item : value),
     is_record item →
     Number_isFinite (rowNumber item) = false ∨
       neq_null (field item "correctOption") = false →
     forOf answerKey_body (key1 ++ item :: key2) JSMap.empty =
       forOf answerKey_body (key1 ++ key2) JSMap.empty ∧
     evaluateNeetOMR (key1 ++ item :: key2) studentAnswers =
     evaluateNeetOMR (key1 ++ key2) studentAnswers) ∧
  (∀ (answerKey students1 students2 : list value) (item : value),
     is_record item →
     Number_isFinite (rowNumber item) = false →
     forOf studentAnswers_body (students1 ++ item :: students2) JSMap.empty =
       forOf studentAnswers_body (students1 ++ students2) JSMap.empty ∧
     evaluateNeetOMR answerKey (students1 ++ item :: students2) =
     evaluateNeetOMR answerKey (students1 ++ students2)) ∧
  (∀ (answerKey studentAnswers : list value) (r : EvaluationResult),
     Forall (λ item, Number_isFinite (rowNumber item) = false) studentAnswers →
     evaluateNeetOMR answerKey studentAnswers = Normal r →
     unattemptedCount r = Z.of_nat (length (remove_dups (keyNumbers answerKey))) ∧
     correctCount r = 0 ∧ incorrectCount r = 0 ∧
     physicsMarks r = 0 ∧ chemistryMarks r = 0 ∧ biologyMarks r = 0 ∧
     totalMarks r = 0 ∧ wrongQuestions r = []).
Proof.
  split_and!.
  - intros key1 key2 studentAnswers item Hrec Hbad.
    assert (Heq : forOf answerKey_body (key1 ++ item :: key2) JSMap.empty =
                  forOf answerKey_body (key1 ++ key2) JSMap.empty).
    { rewrite !forOf_answerKey, forallb_readable_insert by done.
      rewrite !omap_app. cbn [omap list_omap]. by rewrite keyEntry_dropped. }
    split; [done|]. unfold evaluateNeetOMR. by rewrite Heq.
  - intros answerKey students1 students2 item Hrec Hbad.
    assert (Heq : forOf studentAnswers_body (students1 ++ item :: students2) JSMap.empty =
                  forOf studentAnswers_body (students1 ++ students2) JSMap.empty).
    { rewrite !forOf_studentAnswers, forallb_readable_insert by done.
      rewrite !omap_app. cbn [omap list_omap]. by rewrite studentEntry_dropped. }
    split; [done|]. unfold evaluateNeetOMR. by rewrite Heq.
  - intros answerKey studentAnswers r Hall Hr.
    pose proof (evaluateNeetOMR_scheme _ _ _ Hr) as ->. clear Hr.
    rewrite <-length_keyMapping. unfold JSMap.entries.
    induction (keyMapping answerKey) as [|[q c] es IH] using rev_ind; [done|].
    rewrite fold_left_app, length_app. cbn [fold_left fst snd length].
    rewrite (attempt_all_dropped _ _ Hall). cbn [markingScheme unattemptedCount
      correctCount incorrectCount physicsMarks chemistryMarks biologyMarks
      totalMarks wrongQuestions].
    destruct IH as (-> & ? & ? & ? & ? & ? & ? & ?). split_and!; try done. lia.
Qed.

(** C8.  The evaluator does not throw on rows of the declared shape: when
    every element of both sequences is a record, there is a result.  On two
    empty sequences the result has every mark and every count at zero and
    no wrong question. *)
Theorem never_throws_on_records `{RT : Runtime} :
  (∀ answerKey studentAnswers : list value,
     Forall is_record answerKey → Forall is_record studentAnswers →
     ∃ r, evaluateNeetOMR answerKey studentAnswers = Normal r) ∧
  evaluateNeetOMR [] [] =
  Normal
    {| physicsMarks := 0; chemistryMarks := 0; biologyMarks := 0; totalMarks := 0;
       correctCount := 0; incorrectCount := 0; unattemptedCount := 0;
       wrongQuestions := [] |}.
Proof.
  split; [|done].
  intros answerKey studentAnswers Hkey Hstudent.
  rewrite evaluateNeetOMR_unfold, !is_record_readable by done. eauto.
Qed.

Lemma never_throws_on_records_witness :
  Forall is_record example_key ∧ Forall is_record example_student ∧
  ∃ r, evaluateNeetOMR (RT := sampleRuntime) example_key example_student = Normal r.
Proof.
  destruct (never_throws_on_records (RT := sampleRuntime)) as [Hrecords _].
  split_and!; [repeat constructor..|].
  apply Hrecords; repeat constructor.
Defined.

(** ** The evaluator over a store: what it leaves alone *)

Lemma extends_refl (σ : Store.store) : extends σ σ.
Proof. by split. Qed.

Lemma extends_trans (σ1 σ2 σ3 : Store.store) :
  extends σ1 σ2 → extends σ2 σ3 → extends σ1 σ3.
Proof.
  intros [Ha12 Ho12] [Ha23 Ho23]. split; [congruence | by etrans].
Qed.

Lemma M_bind_Normal {A B} (m : Store.M A) (f : A → Store.M B) (σ : Store.store) (a : A) (σ' : Store.store) :
  m σ = (Normal a, σ') → (m ≫= f) σ = f a σ'.
Proof. unfold mbind, Store.M_bind. by intros ->. Qed.

Lemma M_bind_Throw {A B} (m : Store.M A) (f : A → Store.M B) (σ : Store.store) (e : error) (σ' : Store.store) :
  m σ = (Throw e, σ') → (m ≫= f) σ = (Throw e, σ').
Proof. unfold mbind, Store.M_bind. by intros ->. Qed.

Lemma preserving_ret {A} (a : A) : preserving (mret a : Store.M A).
Proof. intros σ. apply extends_refl. Qed.

Lemma preserving_bind {A B} (m : Store.M A) (f : A → Store.M B) :
  preserving m → (∀ a, preserving (f a)) → preserving (m ≫= f).
Proof.
  intros Hm Hf σ. unfold mbind, Store.M_bind.
  specialize (Hm σ). destruct (m σ) as [[a|e] σ1]; cbn in Hm; [|done].
  eapply extends_trans; [done | apply Hf].
Qed.

Lemma preserving_elements (a : Store.loc) : preserving (Store.elements a).
Proof.
  intros σ. unfold Store.elements.
  destruct (Store.arrays σ !! a); apply extends_refl.
Qed.

Lemma preserving_Get (item : Store.ref) (k : string) : preserving (Store.Get item k).
Proof.
  intros σ. unfold Store.Get.
  destruct item as [[]|l]; try apply extends_refl.
  destruct (Store.objects σ !! l); apply extends_refl.
Qed.

Lemma preserving_spread (item : Store.ref) : preserving (Store.spread item).
Proof.
  intros σ. unfold Store.spread.
  destruct item as [[]|l]; try apply extends_refl.
  destruct (Store.objects σ !! l); apply extends_refl.
Qed.

(** A new object takes a location that holds nothing yet. *)
Lemma preserving_newObject (o : gmap string prim) : preserving (Store.newObject o).
Proof.
  intros σ. unfold Store.newObject. split; [done|].
  cbn. apply insert_subseteq, not_elem_of_dom, is_fresh.
Qed.

Lemma preserving_forOf {S A} (body : S → A → Store.M S) (xs : list A) (s : S) :
  (∀ s x, preserving (body s x)) → preserving (Store.forOf body xs s).
Proof.
  intros Hbody. revert s. induction xs as [|x xs IH]; intros s.
  - apply preserving_ret.
  - cbn [Store.forOf]. apply preserving_bind; [apply Hbody | apply IH].
Qed.

Section store_frame.
Context `{RT : Runtime}.

Lemma preserving_answerKey_body (m : JSMap.t prim) (item : Store.ref) :
  preserving (Store.answerKey_body m item).
Proof.
  unfold Store.answerKey_body.
  apply preserving_bind; [apply preserving_Get|]. intros qn.
  case_match; [apply preserving_ret|].
  apply preserving_bind; [apply preserving_Get|]. intros co.
  case_match; apply preserving_ret.
Qed.

Lemma preserving_studentAnswers_body (m : JSMap.t Store.loc) (item : Store.ref) :
  preserving (Store.studentAnswers_body m item).
Proof.
  unfold Store.studentAnswers_body.
  apply preserving_bind; [apply preserving_Get|]. intros qn.
  case_match; [apply preserving_ret|].
  apply preserving_bind; [apply preserving_Get|]. intros so.
  apply preserving_bind; [apply preserving_spread|]. intros own.
  apply preserving_bind; [apply preserving_newObject|]. intros entry.
  apply preserving_ret.
Qed.

Lemma preserving_scoring_body (m : JSMap.t Store.loc) (st : EvaluationResult) (entry : number * prim) :
  preserving (Store.scoring_body m st entry).
Proof.
  unfold Store.scoring_body. destruct entry as [q c].
  case_match; [|apply preserving_ret].
  apply preserving_bind; [apply preserving_Get|]. intros sel.
  repeat case_match; apply preserving_ret.
Qed.

Lemma preserving_evaluateNeetOMR (answerKey studentAnswers : Store.loc) :
  preserving (Store.evaluateNeetOMR answerKey studentAnswers).
Proof.
  unfold Store.evaluateNeetOMR.
  apply preserving_bind; [apply preserving_elements|]. intros keyItems.
  apply preserving_bind;
    [apply preserving_forOf; apply preserving_answerKey_body|]. intros answerKeyMap.
  apply preserving_bind; [apply preserving_elements|]. intros studentItems.
  apply preserving_bind;
    [apply preserving_forOf; apply preserving_studentAnswers_body|]. intros studentMap.
  apply preserving_forOf. apply preserving_scoring_body.
Qed.

End store_frame.

(** ** The evaluator over a store: what it computes *)

Lemma JSMap_set_Forall2 {V W} (R : number * V → number * W → Prop) (k : number) (v : V) (w : W) (m1 : JSMap.t V) (m2 : JSMap.t W) :
  (∀ a b, R a b → a.1 = b.1) →
  R (k, v) (k, w) →
  Forall2 R m1 m2 → Forall2 R (JSMap.set k v m1) (JSMap.set k w m2).
Proof.
  intros Hkey Hnew. induction 1 as [|[k1 v1] [k2 w2] m1 m2 Hhd Htl IH].
  - by constructor.
  - apply Hkey in Hhd as Hk. cbn in Hk. subst k2. cbn [JSMap.set].
    destruct (decide (k1 = k)) as [->|Hne].
    + by constructor.
    + by constructor.
Qed.

Lemma JSMap_get_Forall2 {V W} (R : number * V → number * W → Prop) (k : number) (m1 : JSMap.t V) (m2 : JSMap.t W) :
  (∀ a b, R a b → a.1 = b.1) →
  Forall2 R m1 m2 →
  match JSMap.get k m1 with
  | Some v => ∃ w, JSMap.get k m2 = Some w ∧ R (k, v) (k, w)
  | None => JSMap.get k m2 = None
  end.
Proof.
  intros Hkey. induction 1 as [|[k1 v1] [k2 w2] m1 m2 Hhd _ IH]; [done|].
  apply Hkey in Hhd as Hk. cbn in Hk. subst k2. cbn [JSMap.get].
  destruct (decide (k1 = k)) as [->|Hne]; [by eexists|done].
Qed.

Section store_refinement.
Context `{RT : Runtime}.
Implicit Types (σ : Store.store) (item : Store.ref).

(** The reference, if it is one, points to an object. *)
Local Abbreviation bound σ item :=
  (∀ l, item = Store.RObj l → is_Some (Store.objects σ !! l)).

Lemma allocated_cons σ item (items : list Store.ref) :
  Store.allocated σ (item :: items) → bound σ item ∧ Store.allocated σ items.
Proof.
  intros Hall. split.
  - intros l ->. apply Hall, list_elem_of_here.
  - intros l Hl. by apply Hall, list_elem_of_further.
Qed.

Lemma allocated_extends σ σ' (items : list Store.ref) :
  extends σ σ' → Store.allocated σ items → Store.allocated σ' items.
Proof.
  intros [_ Hsub] Hall l Hl. destruct (Hall l Hl) as [o Ho].
  exists o. by eapply lookup_weaken.
Qed.

Lemma load_extends σ σ' (items : list Store.ref) :
  extends σ σ' → Store.allocated σ items →
  Store.load σ' <$> items = Store.load σ <$> items.
Proof.
  intros [_ Hsub] Hall. apply list_fmap_ext. intros i item Hi.
  destruct item as [p|l]; [done|]. cbn.
  destruct (Hall l) as [o Ho]; [by eapply list_elem_of_lookup_2|].
  by rewrite Ho, (lookup_weaken _ _ _ _ Ho Hsub).
Qed.

Lemma held_extends σ σ' (ml : JSMap.t Store.loc) (mv : JSMap.t (gmap string prim)) :
  extends σ σ' → Forall2 (held σ) ml mv → Forall2 (held σ') ml mv.
Proof.
  intros [_ Hsub] Hheld. eapply Forall2_impl; [done|].
  intros a b [Hk Ho]. split; [done|]. by eapply lookup_weaken.
Qed.

Lemma Store_Get_load σ item (k : string) :
  bound σ item → Store.Get item k σ = (Get (Store.load σ item) k, σ).
Proof.
  intros Hb. destruct item as [[]|l]; try done.
  destruct (Hb l eq_refl) as [o Ho]. cbn. by rewrite Ho.
Qed.

Lemma Store_answerKey_body σ item (m : JSMap.t prim) :
  bound σ item →
  Store.answerKey_body m item σ = (answerKey_body m (Store.load σ item), σ).
Proof.
  intros Hb. unfold Store.answerKey_body, answerKey_body.
  destruct (Get (Store.load σ item) "questionNumber") as [qn|e] eqn:Eqn.
  2: { by rewrite (M_bind_Throw _ _ σ e σ) by (by rewrite Store_Get_load, Eqn). }
  rewrite (M_bind_Normal _ _ σ qn σ) by (by rewrite Store_Get_load, Eqn).
  cbn [mbind completion_bind].
  destruct (negb (Number_isFinite (ToNumber qn))); [done|].
  destruct (Get (Store.load σ item) "correctOption") as [co|e] eqn:Eco.
  2: { by rewrite (M_bind_Throw _ _ σ e σ) by (by rewrite Store_Get_load, Eco). }
  rewrite (M_bind_Normal _ _ σ co σ) by (by rewrite Store_Get_load, Eco).
  cbn [mbind completion_bind]. by destruct (negb (ToBoolean _)).
Qed.

Lemma Store_forOf_answerKey σ (items : list Store.ref) (m : JSMap.t prim) :
  Store.allocated σ items →
  Store.forOf Store.answerKey_body items m σ =
  (forOf answerKey_body (Store.load σ <$> items) m, σ).
Proof.
  revert m. induction items as [|item items IH]; intros m Hall; [done|].
  apply allocated_cons in Hall as [Hb Hall].
  cbn [Store.forOf forOf fmap list_fmap].
  destruct (answerKey_body m (Store.load σ item)) as [m'|e] eqn:Ebody.
  - rewrite (M_bind_Normal _ _ σ m' σ) by (by rewrite Store_answerKey_body, Ebody).
    cbn [mbind completion_bind]. by apply IH.
  - by rewrite (M_bind_Throw _ _ σ e σ) by (by rewrite Store_answerKey_body, Ebody).
Qed.

(** What a run over the store and a run over the rows have to agree on: the
    same exception, or maps with the same entries. *)
Local Abbreviation agree σ' c c' :=
  (match c with
   | Normal ml' => ∃ mv', c' = Normal mv' ∧ Forall2 (held σ') ml' mv'
   | Throw e => c' = Throw e
   end).

Lemma Store_studentAnswers_body σ item (ml : JSMap.t Store.loc) (mv : JSMap.t (gmap string prim)) :
  bound σ item → Forall2 (held σ) ml mv →
  agree (Store.studentAnswers_body ml item σ).2
    (Store.studentAnswers_body ml item σ).1
    (studentAnswers_body mv (Store.load σ item)).
Proof.
  intros Hb Hheld. destruct item as [p|l].
  { destruct p; cbn; try done; by exists mv. }
  destruct (Hb l eq_refl) as [o Ho].
  unfold Store.studentAnswers_body, studentAnswers_body.
  rewrite (M_bind_Normal _ _ σ (default VUndefined (o !! "questionNumber")) σ)
    by (cbn; by rewrite Ho).
  cbn [Store.load Get mbind completion_bind]. rewrite Ho. cbn [default].
  destruct (negb (Number_isFinite _)); [by exists mv|].
  rewrite (M_bind_Normal _ _ σ (default VUndefined (o !! "selectedOption")) σ)
    by (cbn; by rewrite Ho).
  rewrite (M_bind_Normal _ _ σ o σ) by (cbn; by rewrite Ho).
  unfold mbind, Store.M_bind, Store.newObject. cbn [fst snd mret Store.M_ret spread].
  eexists. split; [done|].
  apply JSMap_set_Forall2.
  - by intros a b [? _].
  - split; [done|]. cbn. apply lookup_insert_eq.
  - eapply held_extends; [|done].
    split; [done|]. cbn. apply insert_subseteq, not_elem_of_dom, is_fresh.
Qed.

Lemma Store_forOf_studentAnswers σ (items : list Store.ref) (ml : JSMap.t Store.loc) (mv : JSMap.t (gmap string prim)) :
  Store.allocated σ items → Forall2 (held σ) ml mv →
  agree (Store.forOf Store.studentAnswers_body items ml σ).2
    (Store.forOf Store.studentAnswers_body items ml σ).1
    (forOf studentAnswers_body (Store.load σ <$> items) mv).
Proof.
  revert σ ml mv. induction items as [|item items IH]; intros σ ml mv Hall Hheld.
  { by exists mv. }
  apply allocated_cons in Hall as [Hb Hall].
  cbn [Store.forOf forOf fmap list_fmap].
  pose proof (Store_studentAnswers_body σ item ml mv Hb Hheld) as Hbody.
  pose proof (preserving_studentAnswers_body ml item σ) as Hext.
  destruct (Store.studentAnswers_body ml item σ) as [[ml1|e] σ1] eqn:E;
    cbn [fst snd] in Hbody, Hext.
  - destruct Hbody as (mv1 & -> & Hheld1).
    rewrite (M_bind_Normal _ _ σ ml1 σ1) by done. cbn [mbind completion_bind].
    rewrite <-(load_extends σ σ1) by done.
    apply IH; [by eapply allocated_extends | done].
  - rewrite (M_bind_Throw _ _ σ e σ1) by done. by rewrite Hbody.
Qed.

Lemma Store_scoring_body σ (ml : JSMap.t Store.loc) (mv : JSMap.t (gmap string prim)) (st : EvaluationResult) (entry : number * prim) :
  Forall2 (held σ) ml mv →
  Store.scoring_body ml st entry σ = (Normal (scoring_body mv st entry), σ).
Proof.
  intros Hheld. unfold Store.scoring_body, scoring_body. destruct entry as [q c].
  pose proof (JSMap_get_Forall2 (held σ) q ml mv) as Hget.
  destruct (JSMap.get q ml) as [l|].
  - destruct Hget as (e & -> & _ & Ho); [by intros a b [? _] | done |].
    cbn in Ho. unfold mbind, Store.M_bind, Store.Get. rewrite Ho.
    by repeat case_match.
  - by rewrite Hget by (by intros a b [? _] || done).
Qed.

Lemma Store_forOf_scoring σ (ml : JSMap.t Store.loc) (mv : JSMap.t (gmap string prim)) (es : list (number * prim)) (st : EvaluationResult) :
  Forall2 (held σ) ml mv →
  Store.forOf (Store.scoring_body ml) es st σ =
  (Normal (fold_left (scoring_body mv) es st), σ).
Proof.
  intros Hheld. revert st. induction es as [|entry es IH]; intros st; [done|].
  cbn [Store.forOf fold_left].
  by rewrite (M_bind_Normal _ _ σ (scoring_body mv st entry) σ)
    by (by apply Store_scoring_body).
Qed.

(** Run in a store that holds the two arrays and the objects they refer to,
    the evaluator over the store completes as the evaluator does on the rows
    the arrays stand for. *)
Lemma Store_evaluateNeetOMR_refines σ (answerKey studentAnswers : Store.loc) (keyItems studentItems : list Store.ref) :
  Store.arrays σ !! answerKey = Some keyItems →
  Store.arrays σ !! studentAnswers = Some studentItems →
  Store.allocated σ keyItems → Store.allocated σ studentItems →
  (Store.evaluateNeetOMR answerKey studentAnswers σ).1 =
  evaluateNeetOMR (Store.load σ <$> keyItems) (Store.load σ <$> studentItems).
Proof.
  intros Hkey Hstudent Hkall Hsall. unfold Store.evaluateNeetOMR, evaluateNeetOMR.
  rewrite (M_bind_Normal _ _ σ keyItems σ) by (unfold Store.elements; by rewrite Hkey).
  pose proof (Store_forOf_answerKey σ keyItems JSMap.empty Hkall) as Hloop1.
  destruct (forOf answerKey_body _ _) as [answerKeyMap|e];
    [|by rewrite (M_bind_Throw _ _ σ e σ)].
  rewrite (M_bind_Normal _ _ σ answerKeyMap σ) by done.
  rewrite (M_bind_Normal _ _ σ studentItems σ)
    by (unfold Store.elements; by rewrite Hstudent).
  pose proof (Store_forOf_studentAnswers σ studentItems JSMap.empty JSMap.empty
                Hsall (Forall2_nil_2 _ _ _)) as Hloop2.
  destruct (Store.forOf Store.studentAnswers_body _ _ _) as [[ml|e] σ'] eqn:E;
    cbn [fst snd] in Hloop2.
  - destruct Hloop2 as (mv & -> & Hheld).
    rewrite (M_bind_Normal _ _ σ ml σ') by done.
    by rewrite (Store_forOf_scoring σ' ml mv).
  - by rewrite (M_bind_Throw _ _ σ e σ'), Hloop2.
Qed.

End store_refinement.

(** C9.  The evaluator is deterministic and pure.  Run over a store, it
    writes to no array and to no object that was there, whether it returns
    or throws: the store it leaves has the same arrays and, at every
    location in use before, the same object.  How it completes is a function
    of what the rows contain: it completes as the evaluator does on the rows
    the two arrays stand for, so two calls on structurally identical inputs,
    in whatever stores and at whatever locations, complete alike, with the
    same result, wrong questions in the same order; and a second call on the
    same arrays, in the store the first call left, completes as the first. *)
Theorem evaluation_is_pure `{RT : Runtime} :
  (∀ σ answerKey studentAnswers,
     let σ' := (Store.evaluateNeetOMR answerKey studentAnswers σ).2 in
     Store.arrays σ' = Store.arrays σ ∧
     ∀ l o, Store.objects σ !! l = Some o → Store.objects σ' !! l = Some o) ∧
  (∀ σ answerKey studentAnswers keyItems studentItems,
     Store.arrays σ !! answerKey = Some keyItems →
     Store.arrays σ !! studentAnswers = Some studentItems →
     Store.allocated σ keyItems → Store.allocated σ studentItems →
     (Store.evaluateNeetOMR answerKey studentAnswers σ).1 =
     evaluateNeetOMR (Store.load σ <$> keyItems) (Store.load σ <$> studentItems)) ∧
  (∀ σ1 σ2 answerKey1 studentAnswers1 answerKey2 studentAnswers2
     keyItems1 studentItems1 keyItems2 studentItems2,
     Store.arrays σ1 !! answerKey1 = Some keyItems1 →
     Store.arrays σ1 !! studentAnswers1 = Some studentItems1 →
     Store.arrays σ2 !! answerKey2 = Some keyItems2 →
     Store.arrays σ2 !! studentAnswers2 = Some studentItems2 →
     Store.allocated σ1 keyItems1 → Store.allocated σ1 studentItems1 →
     Store.allocated σ2 keyItems2 → Store.allocated σ2 studentItems2 →
     Store.load σ1 <$> keyItems1 = Store.load σ2 <$> keyItems2 →
     Store.load σ1 <$> studentItems1 = Store.load σ2 <$> studentItems2 →
     (Store.evaluateNeetOMR answerKey1 studentAnswers1 σ1).1 =
     (Store.evaluateNeetOMR answerKey2 studentAnswers2 σ2).1) ∧
  (∀ σ answerKey studentAnswers keyItems studentItems,
     Store.arrays σ !! answerKey = Some keyItems →
     Store.arrays σ !! studentAnswers = Some studentItems →
     Store.allocated σ keyItems → Store.allocated σ studentItems →
     let σ' := (Store.evaluateNeetOMR answerKey studentAnswers σ).2 in
     (Store.evaluateNeetOMR answerKey studentAnswers σ').1 =
     (Store.evaluateNeetOMR answerKey studentAnswers σ).1).
Proof.
  split_and!.
  - intros σ answerKey studentAnswers σ'.
    destruct (preserving_evaluateNeetOMR answerKey studentAnswers σ) as [Harr Hobj].
    split; [done|]. intros l o Ho. by eapply lookup_weaken.
  - intros. by apply Store_evaluateNeetOMR_refines.
  - intros σ1 σ2 answerKey1 studentAnswers1 answerKey2 studentAnswers2
      keyItems1 studentItems1 keyItems2 studentItems2 ? ? ? ? ? ? ? ? Hkey Hstudent.
    rewrite (Store_evaluateNeetOMR_refines σ1 _ _ keyItems1 studentItems1) by done.
    rewrite (Store_evaluateNeetOMR_refines σ2 _ _ keyItems2 studentItems2) by done.
    by rewrite Hkey, Hstudent.
  - intros σ answerKey studentAnswers keyItems studentItems Hkey Hstudent
      Hkall Hsall σ'.
    pose proof (preserving_evaluateNeetOMR answerKey studentAnswers σ) as Hext.
    pose proof Hext as [Harr _]. fold σ' in Hext, Harr.
    rewrite (Store_evaluateNeetOMR_refines σ' _ _ keyItems studentItems);
      [|by rewrite Harr|by rewrite Harr|by eapply allocated_extends..].
    rewrite !(load_extends σ σ') by done.
    by rewrite <-(Store_evaluateNeetOMR_refines σ answerKey studentAnswers).
Qed.

Lemma evaluation_is_pure_witness :
  let run := Store.evaluateNeetOMR (RT := sampleRuntime) 10%positive 11%positive in
  (run example_store).1 =
    Normal
      {| physicsMarks := 4; chemistryMarks := 0; biologyMarks := 0; totalMarks := 4;
         correctCount := 1; incorrectCount := 0; unattemptedCount := 0;
         wrongQuestions := [] |} ∧
  Store.arrays (run example_store).2 = Store.arrays example_store ∧
  Store.objects (run example_store).2 !! 2%positive =
    Some (<["questionNumber" := num 1]> (<["selectedOption" := VString "a"]> ∅)) ∧
  (run (run example_store).2).1 = (run example_store).1.
Proof.
  intros run.
  destruct (evaluation_is_pure (RT := sampleRuntime)) as (Hframe & _ & _ & Hagain).
  destruct (Hframe example_store 10%positive 11%positive) as [Harrays Hobjects].
  split; [vm_compute; reflexivity|].
  split; [exact Harrays|].
  split; [apply Hobjects; vm_compute; reflexivity|].
  apply (Hagain example_store 10%positive 11%positive
           [Store.RObj 1%positive] [Store.RObj 2%positive]).
  - vm_compute; reflexivity.
  - vm_compute; reflexivity.
  - intros l [= ->]%list_elem_of_singleton. vm_compute. eauto.
  - intros l [= ->]%list_elem_of_singleton. vm_compute. eauto.
Defined.

(** * Further properties of the evaluator *)

(** ** When the evaluator throws *)

Lemma forallb_readable_false (items : list value) :
  forallb readable items = false ↔
  ∃ item, item ∈ items ∧ (item = Prim VNull ∨ item = Prim VUndefined).
Proof.
  induction items as [|item items IH]; cbn [forallb].
  - split; [done|]. intros (item & Hin & _). by apply elem_of_nil in Hin.
  - rewrite andb_false_iff, IH. split.
    + intros [Hitem|(item' & Hin & Hnull)].
      * exists item. split; [apply list_elem_of_here|].
        destruct item as [[]|]; try done; auto.
      * exists item'. split; [by apply list_elem_of_further | done].
    + intros (item' & Hin & Hnull). apply elem_of_cons in Hin as [Heq|Hin].
      * left. subst item'. by destruct Hnull; subst item.
      * right. by exists item'.
Qed.

(** On rows whose fields are primitives the evaluator throws, and then a
    [TypeError], exactly when an element of one of the two sequences is
    [null] or [undefined]; in every other case it returns a result. *)
Lemma throws_exactly_on_null_rows `{RT : Runtime} (answerKey studentAnswers : list value) :
  (evaluateNeetOMR answerKey studentAnswers = Throw TypeError ↔
   ∃ item, (item ∈ answerKey ∨ item ∈ studentAnswers) ∧
           (item = Prim VNull ∨ item = Prim VUndefined)) ∧
  ((∃ r, evaluateNeetOMR answerKey studentAnswers = Normal r) ↔
   ¬ ∃ item, (item ∈ answerKey ∨ item ∈ studentAnswers) ∧
             (item = Prim VNull ∨ item = Prim VUndefined)).
Proof.
  rewrite evaluateNeetOMR_unfold.
  assert (Hsome : (∃ item, (item ∈ answerKey ∨ item ∈ studentAnswers) ∧
                           (item = Prim VNull ∨ item = Prim VUndefined)) ↔
                  forallb readable answerKey && forallb readable studentAnswers = false).
  { rewrite andb_false_iff, !forallb_readable_false. split.
    - intros (item & [Hin|Hin] & Hnull); [left|right]; by exists item.
    - intros [(item & Hin & Hnull)|(item & Hin & Hnull)]; exists item; auto. }
  rewrite Hsome. destruct (_ && _); split.
  - split; done.
  - split; [done | eauto].
  - split; done.
  - split; [by intros [r Hr] | by intros []].
Qed.

(** ** Rows that are not objects *)

(** X2.  An element of either sequence that is a boolean, a number or a
    string is skipped like a malformed row: reading its question number
    gives [undefined], which is not finite.  Without it the two loops build
    the same maps and the evaluation is the same. *)
Theorem primitive_rows_are_skipped `{RT : Runtime} (p : prim) (items1 items2 others : list value) :
  p ≠ VNull → p ≠ VUndefined →
  forOf answerKey_body (items1 ++ Prim p :: items2) JSMap.empty =
    forOf answerKey_body (items1 ++ items2) JSMap.empty ∧
  forOf studentAnswers_body (items1 ++ Prim p :: items2) JSMap.empty =
    forOf studentAnswers_body (items1 ++ items2) JSMap.empty ∧
  evaluateNeetOMR (items1 ++ Prim p :: items2) others =
    evaluateNeetOMR (items1 ++ items2) others ∧
  evaluateNeetOMR others (items1 ++ Prim p :: items2) =
    evaluateNeetOMR others (items1 ++ items2).
Proof.
  intros Hnull Hundefined.
  assert (Hreadable : forallb readable (items1 ++ Prim p :: items2) =
                      forallb readable (items1 ++ items2)).
  { rewrite !forallb_app. cbn [forallb]. by destruct p. }
  assert (Hkey : forOf answerKey_body (items1 ++ Prim p :: items2) JSMap.empty =
                 forOf answerKey_body (items1 ++ items2) JSMap.empty).
  { by rewrite !forOf_answerKey, Hreadable, !omap_app. }
  assert (Hstudent : forOf studentAnswers_body (items1 ++ Prim p :: items2) JSMap.empty =
                     forOf studentAnswers_body (items1 ++ items2) JSMap.empty).
  { by rewrite !forOf_studentAnswers, Hreadable, !omap_app. }
  split_and!; [done|done| |]; unfold evaluateNeetOMR.
  - by rewrite Hkey.
  - by rewrite Hstudent.
Qed.

Lemma primitive_rows_are_skipped_witness :
  evaluateNeetOMR (RT := sampleRuntime)
    ([keyRow (num 1) (VString "A")] ++ Prim (VString "51") :: [keyRow (num 51) (VString "B")])
    example_student =
  evaluateNeetOMR (RT := sampleRuntime)
    ([keyRow (num 1) (VString "A")] ++ [keyRow (num 51) (VString "B")]) example_student ∧
  evaluateNeetOMR (RT := sampleRuntime) example_key
    ([] ++ Prim (VBool true) :: example_student) =
  evaluateNeetOMR (RT := sampleRuntime) example_key ([] ++ example_student).
Proof.
  split.
  - apply (primitive_rows_are_skipped (RT := sampleRuntime) (VString "51")); discriminate.
  - apply (primitive_rows_are_skipped (RT := sampleRuntime) (VBool true)); discriminate.
Defined.

(** ** Bounds *)

Lemma share_cases (q : number) (s : string) (d : Z) :
  share q s d = 0 ∨ share q s d = d.
Proof. unfold share. case_decide; auto. Qed.

(** X3.  In a result no count is negative, each subject mark lies between
    minus the number of incorrect answers and four times the number of
    correct answers, and the total lies between minus and four times the
    number of distinct questions of the key. *)
Theorem marks_are_bounded `{RT : Runtime} (answerKey studentAnswers : list value) (r : EvaluationResult) :
  evaluateNeetOMR answerKey studentAnswers = Normal r →
  let n := Z.of_nat (length (remove_dups (keyNumbers answerKey))) in
  0 ≤ correctCount r ∧ 0 ≤ incorrectCount r ∧ 0 ≤ unattemptedCount r ∧
  - incorrectCount r ≤ physicsMarks r ≤ 4 * correctCount r ∧
  - incorrectCount r ≤ chemistryMarks r ≤ 4 * correctCount r ∧
  - incorrectCount r ≤ biologyMarks r ≤ 4 * correctCount r ∧
  - n ≤ totalMarks r ≤ 4 * n.
Proof.
  intros Hr n. pose proof (evaluateNeetOMR_scheme _ _ _ Hr) as ->. clear Hr.
  set (f := λ st e, markingScheme (attempt studentAnswers e.1) e.1 e.2 st).
  set (es := JSMap.entries (keyMapping answerKey)).
  assert (Hn : correctCount (fold_left f es initial) + incorrectCount (fold_left f es initial)
               + unattemptedCount (fold_left f es initial) = n).
  { unfold f, es. rewrite markingScheme_counts, length_keyMapping. cbn. lia. }
  assert (Htotal : totalMarks (fold_left f es initial) =
                   4 * correctCount (fold_left f es initial)
                   - incorrectCount (fold_left f es initial)).
  { by apply markingScheme_total. }
  cut (0 ≤ correctCount (fold_left f es initial) ∧
       0 ≤ incorrectCount (fold_left f es initial) ∧
       0 ≤ unattemptedCount (fold_left f es initial) ∧
       - incorrectCount (fold_left f es initial) ≤ physicsMarks (fold_left f es initial)
         ≤ 4 * correctCount (fold_left f es initial) ∧
       - incorrectCount (fold_left f es initial) ≤ chemistryMarks (fold_left f es initial)
         ≤ 4 * correctCount (fold_left f es initial) ∧
       - incorrectCount (fold_left f es initial) ≤ biologyMarks (fold_left f es initial)
         ≤ 4 * correctCount (fold_left f es initial)); [lia|].
  clear Hn Htotal.
  apply (markingScheme_fold_ind (attempt studentAnswers)
           (λ st, 0 ≤ correctCount st ∧ 0 ≤ incorrectCount st ∧ 0 ≤ unattemptedCount st ∧
                  - incorrectCount st ≤ physicsMarks st ≤ 4 * correctCount st ∧
                  - incorrectCount st ≤ chemistryMarks st ≤ 4 * correctCount st ∧
                  - incorrectCount st ≤ biologyMarks st ≤ 4 * correctCount st)).
  { cbn. lia. }
  clear. intros st sel q c Hst. unfold markingScheme.
  pose proof (share_cases q "Physics" 4). pose proof (share_cases q "Chemistry" 4).
  pose proof (share_cases q "Biology" 4). pose proof (share_cases q "Physics" 1).
  pose proof (share_cases q "Chemistry" 1). pose proof (share_cases q "Biology" 1).
  destruct sel as [s|]; [case_decide|]; cbn; lia.
Qed.

Lemma marks_are_bounded_witness :
  evaluateNeetOMR (RT := sampleRuntime) example_key example_student = Normal example_result ∧
  - incorrectCount example_result ≤ chemistryMarks example_result
    ≤ 4 * correctCount example_result ∧
  - Z.of_nat (length (remove_dups (keyNumbers (RT := sampleRuntime) example_key)))
    ≤ totalMarks example_result
    ≤ 4 * Z.of_nat (length (remove_dups (keyNumbers (RT := sampleRuntime) example_key))).
Proof.
  assert (Hr : evaluateNeetOMR (RT := sampleRuntime) example_key example_student
               = Normal example_result) by (vm_compute; reflexivity).
  destruct (marks_are_bounded (RT := sampleRuntime) example_key example_student
              example_result Hr) as (_ & _ & _ & _ & Hchemistry & _ & Htotal).
  split; [exact Hr|]. split; [exact Hchemistry | exact Htotal].
Defined.

(** ** The wrong questions *)

Section wrong_questions.
Context `{RT : Runtime}.

(** The record the marking scheme appends for an entry, if any. *)
Local Abbreviation wrong_of attempt_of e :=
  (match attempt_of e.1 with
   | Some s =>
       if decide (s = e.2) then None
       else Some {| questionNumber := e.1; subject := getSubject e.1;
                    selectedOption := s; correctOption := e.2 |}
   | None => None
   end).



End wrong_questions.



(** ** Subject marks and wrong questions *)

Lemma wrongIn_append (s : string) (st : EvaluationResult) (w : WrongQuestion) (ws : list WrongQuestion) :
  wrongQuestions st = ws ++ [w] →
  wrongIn s st = Z.of_nat (length (filter (λ w, subject w = s) ws))
                 + (if decide (subject w = s) then 1 else 0).
Proof.
  intros Hst. unfold wrongIn. rewrite Hst, filter_app, length_app.
  rewrite Nat2Z.inj_add. f_equal.
  destruct (decide (subject w = s)).
  - by rewrite filter_cons_True.
  - by rewrite filter_cons_False.
Qed.

(** X5.  Each subject mark is four marks for each of a number of correct
    answers less one mark for each wrong question the result lists for that
    subject; over the three subjects these correct answers are all the
    correct answers and these wrong questions all the incorrect ones. *)
Theorem subject_marks_from_wrong_questions `{RT : Runtime} (answerKey studentAnswers : list value) (r : EvaluationResult) :
  evaluateNeetOMR answerKey studentAnswers = Normal r →
  ∃ nP nC nB : Z,
    0 ≤ nP ∧ 0 ≤ nC ∧ 0 ≤ nB ∧
    nP + nC + nB = correctCount r ∧
    wrongIn "Physics" r + wrongIn "Chemistry" r + wrongIn "Biology" r = incorrectCount r ∧
    physicsMarks r = 4 * nP - wrongIn "Physics" r ∧
    chemistryMarks r = 4 * nC - wrongIn "Chemistry" r ∧
    biologyMarks r = 4 * nB - wrongIn "Biology" r.
Proof.
  intros ->%evaluateNeetOMR_scheme.
  apply (markingScheme_fold_ind (attempt studentAnswers)
           (λ st, ∃ nP nC nB : Z,
              0 ≤ nP ∧ 0 ≤ nC ∧ 0 ≤ nB ∧
              nP + nC + nB = correctCount st ∧
              wrongIn "Physics" st + wrongIn "Chemistry" st + wrongIn "Biology" st
                = incorrectCount st ∧
              physicsMarks st = 4 * nP - wrongIn "Physics" st ∧
              chemistryMarks st = 4 * nC - wrongIn "Chemistry" st ∧
              biologyMarks st = 4 * nB - wrongIn "Biology" st)).
  { exists 0, 0, 0. by cbn. }
  clear. intros st sel q c (nP & nC & nB & HP & HC & HB & Hn & Hw & Hp & Hc & Hb).
  unfold markingScheme. destruct sel as [s|]; [case_decide|].
  - exists (nP + share q "Physics" 1), (nC + share q "Chemistry" 1), (nB + share q "Biology" 1).
    pose proof (share_sum q 1). unfold wrongIn in *. cbn.
    unfold share in *. repeat case_decide; lia.
  - exists nP, nC, nB.
    rewrite !(wrongIn_append _ _ _ (wrongQuestions st)) by done.
    unfold wrongIn in *. cbn [subject physicsMarks chemistryMarks biologyMarks
      correctCount incorrectCount].
    pose proof (share_sum q 1). unfold share in *. repeat case_decide; lia.
  - exists nP, nC, nB. unfold wrongIn in *. cbn. lia.
Qed.

Lemma subject_marks_from_wrong_questions_witness :
  evaluateNeetOMR (RT := sampleRuntime) example_key example_student = Normal example_result ∧
  ∃ nP nC nB : Z,
    0 ≤ nP ∧ 0 ≤ nC ∧ 0 ≤ nB ∧
    nP + nC + nB = correctCount example_result ∧
    wrongIn "Physics" example_result + wrongIn "Chemistry" example_result
      + wrongIn "Biology" example_result = incorrectCount example_result ∧
    physicsMarks example_result = 4 * nP - wrongIn "Physics" example_result ∧
    chemistryMarks example_result = 4 * nC - wrongIn "Chemistry" example_result ∧
    biologyMarks example_result = 4 * nB - wrongIn "Biology" example_result.
Proof.
  assert (Hr : evaluateNeetOMR (RT := sampleRuntime) example_key example_student
               = Normal example_result) by (vm_compute; reflexivity).
  split; [exact Hr|].
  exact (subject_marks_from_wrong_questions (RT := sampleRuntime)
           example_key example_student example_result Hr).
Defined.

(** ** Keys put together *)

Lemma JSMap_set_app_fresh {V} (k : number) (v : V) (m m' : JSMap.t V) :
  k ∉ JSMap.keys m → JSMap.set k v (m ++ m') = m ++ JSMap.set k v m'.
Proof.
  unfold JSMap.keys. induction m as [|[k' v'] m IH]; [done|].
  rewrite fmap_cons. intros [Hne Hnin]%not_elem_of_cons. cbn [app JSMap.set].
  rewrite decide_False by done. by rewrite IH.
Qed.

Lemma set_all_fresh {V} (l : list (number * V)) (m : JSMap.t V) :
  (∀ k, k ∈ l.*1 → k ∉ JSMap.keys m) → set_all l m = m ++ set_all l JSMap.empty.
Proof.
  induction l as [|[k v] l IH] using rev_ind; intros Hfresh.
  - by rewrite app_nil_r.
  - rewrite !set_all_snoc, IH.
    + apply JSMap_set_app_fresh, Hfresh. rewrite fmap_app. apply elem_of_app.
      right. apply list_elem_of_here.
    + intros k' Hk'. apply Hfresh. rewrite fmap_app. apply elem_of_app. by left.
Qed.

Lemma merge_initial_r (r : EvaluationResult) : merge r initial = r.
Proof. destruct r. unfold merge. cbn. rewrite app_nil_r. f_equal; lia. Qed.

Lemma markingScheme_merge (sel : option prim) (q : number) (c : prim) (a b : EvaluationResult) :
  markingScheme sel q c (merge a b) = merge a (markingScheme sel q c b).
Proof.
  unfold markingScheme, merge. destruct sel as [s|]; [case_decide|]; cbn;
    rewrite <-?app_assoc; f_equal; lia.
Qed.

Lemma markingScheme_fold_merge (attempt_of : number → option prim) (es : list (number * prim)) (a b : EvaluationResult) :
  fold_left (λ st e, markingScheme (attempt_of e.1) e.1 e.2 st) es (merge a b) =
  merge a (fold_left (λ st e, markingScheme (attempt_of e.1) e.1 e.2 st) es b).
Proof.
  revert b. induction es as [|[q c] es IH]; intros b; [done|].
  cbn [fold_left fst snd]. by rewrite markingScheme_merge, IH.
Qed.

(** X6.  Two answer keys that share no question number can be evaluated one
    after the other: the result for the two keys in a row is the two results
    put together, marks and counts added and the wrong questions of the
    second key after those of the first. *)
Theorem disjoint_keys_add_up `{RT : Runtime} (key1 key2 studentAnswers : list value) (r1 r2 : EvaluationResult) :
  (∀ q, q ∈ keyNumbers key1 → q ∉ keyNumbers key2) →
  evaluateNeetOMR key1 studentAnswers = Normal r1 →
  evaluateNeetOMR key2 studentAnswers = Normal r2 →
  evaluateNeetOMR (key1 ++ key2) studentAnswers = Normal (merge r1 r2).
Proof.
  intros Hdisjoint Hr1 Hr2.
  pose proof (evaluateNeetOMR_scheme _ _ _ Hr1) as ->.
  pose proof (evaluateNeetOMR_scheme _ _ _ Hr2) as ->.
  rewrite evaluateNeetOMR_unfold in Hr1, Hr2 |- *. rewrite forallb_app.
  destruct (forallb readable key1); [|done].
  destruct (forallb readable key2); [|done].
  destruct (forallb readable studentAnswers); [|done]. cbn [andb]. f_equal.
  rewrite fold_scoring_markingScheme.
  assert (Hmap : keyMapping (key1 ++ key2) = keyMapping key1 ++ keyMapping key2).
  { unfold keyMapping. rewrite omap_app. unfold set_all at 1. rewrite fold_left_app.
    apply set_all_fresh. intros k Hk1 Hk2.
    fold (keyMapping key1) in Hk2. rewrite keys_keyMapping, elem_of_first_seen in Hk2.
    by apply (Hdisjoint k). }
  unfold JSMap.entries. rewrite Hmap, fold_left_app.
  rewrite <-(merge_initial_r (fold_left _ (keyMapping key1) initial)) at 1.
  apply markingScheme_fold_merge.
Qed.

Lemma disjoint_keys_add_up_witness :
  let physics := [keyRow (num 1) (VString "A"); keyRow (num 2) (VString "B")] in
  let biology := [keyRow (num 101) (VString "C")] in
  let answers := [studentRow (num 2) (VString "D"); studentRow (num 101) (VString "c")] in
  let r1 :=
    {| physicsMarks := -1; chemistryMarks := 0; biologyMarks := 0; totalMarks := -1;
       correctCount := 0; incorrectCount := 1; unattemptedCount := 1;
       wrongQuestions :=
         [ {| questionNumber := int 2; subject := "Physics";
              selectedOption := VString "D"; correctOption := VString "B" |} ] |} in
  let r2 :=
    {| physicsMarks := 0; chemistryMarks := 0; biologyMarks := 4; totalMarks := 4;
       correctCount := 1; incorrectCount := 0; unattemptedCount := 0;
       wrongQuestions := [] |} in
  evaluateNeetOMR (RT := sampleRuntime) physics answers = Normal r1 ∧
  evaluateNeetOMR (RT := sampleRuntime) biology answers = Normal r2 ∧
  evaluateNeetOMR (RT := sampleRuntime) (physics ++ biology) answers = Normal (merge r1 r2).
Proof.
  intros physics biology answers r1 r2.
  assert (H1 : evaluateNeetOMR (RT := sampleRuntime) physics answers = Normal r1)
    by (vm_compute; reflexivity).
  assert (H2 : evaluateNeetOMR (RT := sampleRuntime) biology answers = Normal r2)
    by (vm_compute; reflexivity).
  split; [exact H1|]. split; [exact H2|].
  apply (disjoint_keys_add_up (RT := sampleRuntime) physics biology answers r1 r2);
    [|exact H1|exact H2].
  intros q Hq1 Hq2. vm_compute in Hq1, Hq2.
  apply list_elem_of_singleton in Hq2 as ->.
  repeat (apply elem_of_cons in Hq1 as [Hq1|Hq1]; [discriminate Hq1|]).
  by apply elem_of_nil in Hq1.
Defined.

(** ** A sheet that copies the key *)

Section copied_key.
Context `{RT : Runtime}.

Lemma keyEntry_is_Some (item : value) (e : number * prim) :
  keyEntry item = Some e →
  readable item = true ∧ studentSelection (copied item) = Some e ∧
  ∃ s, e.2 = VString s ∧ s ≠ "".
Proof.
  unfold keyEntry, studentSelection, copied, rowNumber.
  cbn [field]. rewrite lookup_insert_eq, lookup_insert_ne, lookup_insert_eq by done.
  cbn [default]. destruct (Number_isFinite _) eqn:Hfin; [|done].
  cbn [andb]. destruct (ToBoolean _) eqn:Htrue; [|done]. intros [= <-].
  split_and!; [|done|].
  - destruct item as [[]|]; try done.
  - cbn [snd]. destruct (field item "correctOption"); try done;
      cbn in Htrue |- *; eexists; (split; [done|]);
      intros Hempty; by rewrite Hempty in Htrue.
Qed.

Lemma omap_copied (answerKey : list value) :
  Forall (λ item, is_Some (keyEntry item)) answerKey →
  omap studentSelection (copied <$> answerKey) = omap keyEntry answerKey ∧
  forallb readable answerKey = true ∧
  forallb readable (copied <$> answerKey) = true.
Proof.
  induction 1 as [|item items [e He] _ (IH1 & IH2 & IH3)]; [done|].
  destruct (keyEntry_is_Some item e He) as (Hr & Hs & _).
  cbn [fmap list_fmap omap list_omap forallb].
  fold (fmap (M := list) copied items). by rewrite Hs, He, IH1, IH2, IH3, Hr.
Qed.

Lemma markingScheme_all_correct (es : list (number * prim)) (st : EvaluationResult) :
  let st' := fold_left (λ st e, markingScheme (Some e.2) e.1 e.2 st) es st in
  correctCount st' = correctCount st + Z.of_nat (length es) ∧
  incorrectCount st' = incorrectCount st ∧
  unattemptedCount st' = unattemptedCount st ∧
  totalMarks st' = totalMarks st + 4 * Z.of_nat (length es) ∧
  wrongQuestions st' = wrongQuestions st.
Proof.
  revert st. induction es as [|[q c] es IH]; intros st.
  - cbn. split_and!; try done; lia.
  - cbn [fold_left length fst snd]. destruct (IH (markingScheme (Some c) q c st))
      as (-> & -> & -> & -> & ->).
    unfold markingScheme. rewrite decide_True by done. cbn. split_and!; try done; lia.
Qed.

End copied_key.

(** X7.  A student who answers every row of the key with that row's own
    option gets full marks: when no row of the key is dropped, the sheet
    that copies the key scores every distinct question correct, four marks
    each, with nothing incorrect, nothing unattempted and no wrong
    question. *)
Theorem copying_the_key_gives_full_marks `{RT : Runtime} (answerKey : list value) :
  Forall (λ item, is_Some (keyEntry item)) answerKey →
  let n := Z.of_nat (length (remove_dups (keyNumbers answerKey))) in
  ∃ r, evaluateNeetOMR answerKey (copied <$> answerKey) = Normal r ∧
       correctCount r = n ∧ incorrectCount r = 0 ∧ unattemptedCount r = 0 ∧
       totalMarks r = 4 * n ∧ wrongQuestions r = [].
Proof.
  intros Hall n. destruct (omap_copied answerKey Hall) as (Hsel & Hr1 & Hr2).
  rewrite evaluateNeetOMR_unfold, Hr1, Hr2. cbn [andb]. eexists. split; [done|].
  rewrite fold_scoring_markingScheme.
  erewrite (fold_left_ext_elem _ (λ st e, markingScheme (Some e.2) e.1 e.2 st)).
  - destruct (markingScheme_all_correct (JSMap.entries (keyMapping answerKey)) initial)
      as (-> & -> & -> & -> & ->).
    rewrite length_keyMapping. by cbn.
  - intros st [q c] Hin. cbn [fst snd]. f_equal.
    apply entries_set_all in Hin. unfold attempt. rewrite Hsel, Hin.
    apply lookup_last_elem, list_elem_of_omap in Hin as (item & _ & Hitem).
    destruct (keyEntry_is_Some item (q, c) Hitem) as (_ & _ & s & Hc & Hs).
    cbn [snd] in Hc. subst c. by rewrite decide_False.
Qed.

Lemma copying_the_key_gives_full_marks_witness :
  Forall (λ item, is_Some (keyEntry (RT := sampleRuntime) item)) example_key ∧
  ∃ r, evaluateNeetOMR (RT := sampleRuntime) example_key (copied <$> example_key) = Normal r ∧
       correctCount r = 3 ∧ incorrectCount r = 0 ∧ unattemptedCount r = 0 ∧
       totalMarks r = 4 * 3 ∧ wrongQuestions r = [].
Proof.
  assert (Hall : Forall (λ item, is_Some (keyEntry (RT := sampleRuntime) item)) example_key).
  { repeat constructor; vm_compute; eauto. }
  split; [exact Hall|].
  exact (copying_the_key_gives_full_marks (RT := sampleRuntime) example_key Hall).
Defined.

(** ** The order of the rows *)

Lemma lookup_last_NoDup {V} (k : number) (v : V) (l : list (number * V)) :
  NoDup l.*1 → lookup_last k l = Some v ↔ (k, v) ∈ l.
Proof.
  intros Hnd. split; [apply lookup_last_elem|].
  induction l as [|[k' v'] l IH]; [by intros ?%elem_of_nil|].
  rewrite fmap_cons in Hnd. apply NoDup_cons in Hnd as [Hnin Hnd].
  intros [[= -> ->]|Hin]%elem_of_cons; cbn [lookup_last].
  - destruct (lookup_last k' l) as [v1|] eqn:E.
    + apply lookup_last_elem in E. destruct Hnin.
      apply list_elem_of_fmap. by exists (k', v1).
    + by rewrite decide_True.
  - by rewrite (IH Hnd Hin).
Qed.

Lemma lookup_last_Permutation {V} (k : number) (l l' : list (number * V)) :
  l ≡ₚ l' → NoDup l.*1 → lookup_last k l = lookup_last k l'.
Proof.
  intros Hperm Hnd.
  assert (Hnd' : NoDup l'.*1) by (by rewrite <-Hperm).
  apply option_eq. intros v. rewrite !lookup_last_NoDup by done. by rewrite Hperm.
Qed.

Lemma forallb_readable_Permutation (items items' : list value) :
  items ≡ₚ items' → forallb readable items = forallb readable items'.
Proof.
  intros Hperm.
  destruct (forallb readable items) eqn:E, (forallb readable items') eqn:E'; try done.
  - apply forallb_readable_false in E' as (item & Hin & Hnull).
    assert (forallb readable items = false) as Hf; [|congruence].
    apply forallb_readable_false. exists item. by rewrite Hperm.
  - apply forallb_readable_false in E as (item & Hin & Hnull).
    assert (forallb readable items' = false) as Hf; [|congruence].
    apply forallb_readable_false. exists item. by rewrite <-Hperm.
Qed.

Lemma set_all_NoDup_keys {V} (l : list (number * V)) :
  NoDup l.*1 → set_all l JSMap.empty = l.
Proof.
  induction l as [|[k v] l IH] using rev_ind; [done|].
  rewrite fmap_app. intros (Hnd & Hfresh & _)%NoDup_app. rewrite set_all_snoc, IH by done.
  apply JSMap_set_fresh. intros Hin. apply (Hfresh k Hin), list_elem_of_here.
Qed.

Lemma same_score_refl (r : EvaluationResult) : same_score r r.
Proof. by repeat split. Qed.

Lemma markingScheme_same_score (sel : option prim) (q : number) (c : prim) (a b : EvaluationResult) :
  same_score a b → same_score (markingScheme sel q c a) (markingScheme sel q c b).
Proof.
  intros (? & ? & ? & ? & ? & ? & ? & Hw). unfold markingScheme.
  destruct sel as [s|]; [case_decide|]; repeat split; cbn; try congruence.
  by rewrite Hw.
Qed.

Lemma markingScheme_swap (sel1 sel2 : option prim) (q1 q2 : number) (c1 c2 : prim) (a : EvaluationResult) :
  same_score (markingScheme sel1 q1 c1 (markingScheme sel2 q2 c2 a))
             (markingScheme sel2 q2 c2 (markingScheme sel1 q1 c1 a)).
Proof.
  unfold markingScheme.
  destruct sel1 as [s1|], sel2 as [s2|]; repeat case_decide;
    repeat split; cbn; try lia; try done.
  rewrite <-!app_assoc. apply Permutation_app_head. cbn. apply Permutation_swap.
Qed.

Lemma markingScheme_fold_Permutation (attempt_of : number → option prim) (es es' : list (number * prim)) (a b : EvaluationResult) :
  es ≡ₚ es' → same_score a b →
  same_score (fold_left (λ st e, markingScheme (attempt_of e.1) e.1 e.2 st) es a)
             (fold_left (λ st e, markingScheme (attempt_of e.1) e.1 e.2 st) es' b).
Proof.
  intros Hperm. revert a b.
  induction Hperm as [|e es es' _ IH|e1 e2 es|es1 es2 es3 _ IH1 _ IH2]; intros a b Hab.
  - done.
  - cbn [fold_left]. by apply IH, markingScheme_same_score.
  - cbn [fold_left]. generalize es.
    intros es0. revert a b Hab.
    assert (Hstep : ∀ a b, same_score a b →
              same_score
                (markingScheme (attempt_of e1.1) e1.1 e1.2
                   (markingScheme (attempt_of e2.1) e2.1 e2.2 a))
                (markingScheme (attempt_of e2.1) e2.1 e2.2
                   (markingScheme (attempt_of e1.1) e1.1 e1.2 b))).
    { intros a b Hab.
      pose proof (markingScheme_swap (attempt_of e1.1) (attempt_of e2.1)
                    e1.1 e2.1 e1.2 e2.2 a) as Hswap.
      pose proof (markingScheme_same_score (attempt_of e2.1) e2.1 e2.2 _ _
                    (markingScheme_same_score (attempt_of e1.1) e1.1 e1.2 _ _ Hab)) as Hsame.
      destruct Hswap as (? & ? & ? & ? & ? & ? & ? & Hw1).
      destruct Hsame as (? & ? & ? & ? & ? & ? & ? & Hw2).
      repeat split; try congruence. by rewrite Hw1. }
    intros a b Hab. specialize (Hstep a b Hab). revert Hstep.
    generalize (markingScheme (attempt_of e1.1) e1.1 e1.2
                  (markingScheme (attempt_of e2.1) e2.1 e2.2 a)).
    generalize (markingScheme (attempt_of e2.1) e2.1 e2.2
                  (markingScheme (attempt_of e1.1) e1.1 e1.2 b)).
    intros b' a' Hab'. revert a' b' Hab'.
    induction es0 as [|e es0 IH]; intros a' b' Hab'; [done|].
    cbn [fold_left]. by apply IH, markingScheme_same_score.
  - specialize (IH1 a a (same_score_refl a)). specialize (IH2 a b Hab).
    destruct IH1 as (? & ? & ? & ? & ? & ? & ? & Hw1).
    destruct IH2 as (? & ? & ? & ? & ? & ? & ? & Hw2).
    repeat split; try congruence. by rewrite Hw1.
Qed.

(** X8.  The order of the rows matters only where a question number is
    repeated.  When the student rows have pairwise distinct question
    numbers, the evaluation is the same for every order of those rows.  When
    the key rows that are not dropped have pairwise distinct question
    numbers, another order of the key rows gives the same marks and counts
    and the same wrong questions, in another order. *)
Theorem row_order_matters_only_for_duplicates `{RT : Runtime} :
  (∀ answerKey studentAnswers studentAnswers',
     studentAnswers ≡ₚ studentAnswers' →
     NoDup (omap studentSelection studentAnswers).*1 →
     evaluateNeetOMR answerKey studentAnswers = evaluateNeetOMR answerKey studentAnswers') ∧
  (∀ answerKey answerKey' studentAnswers r,
     answerKey ≡ₚ answerKey' →
     NoDup (keyNumbers answerKey) →
     evaluateNeetOMR answerKey studentAnswers = Normal r →
     ∃ r', evaluateNeetOMR answerKey' studentAnswers = Normal r' ∧ same_score r r').
Proof.
  split.
  - intros answerKey studentAnswers studentAnswers' Hperm Hnd.
    apply evaluateNeetOMR_ext; [by apply forallb_readable_Permutation|].
    intros q _. unfold attempt.
    rewrite (lookup_last_Permutation q _ (omap studentSelection studentAnswers'));
      [done| |done].
    by apply omap_Permutation.
  - intros answerKey answerKey' studentAnswers r Hperm Hnd Hr.
    pose proof (evaluateNeetOMR_scheme _ _ _ Hr) as ->.
    rewrite evaluateNeetOMR_unfold in Hr |- *.
    rewrite <-(forallb_readable_Permutation _ _ Hperm).
    destruct (_ && _); [|done]. eexists. split; [done|].
    rewrite fold_scoring_markingScheme.
    apply markingScheme_fold_Permutation; [|apply same_score_refl].
    unfold keyMapping, JSMap.entries.
    assert (Hnd' : NoDup (keyNumbers answerKey')).
    { unfold keyNumbers. by rewrite <-Hperm. }
    rewrite !set_all_NoDup_keys by done. by rewrite Hperm.
Qed.

Lemma row_order_matters_only_for_duplicates_witness :
  evaluateNeetOMR (RT := sampleRuntime) example_key example_student =
    evaluateNeetOMR (RT := sampleRuntime) example_key (reverse example_student) ∧
  ∃ r', evaluateNeetOMR (RT := sampleRuntime) (reverse example_key) example_student = Normal r' ∧
        same_score example_result r'.
Proof.
  destruct (row_order_matters_only_for_duplicates (RT := sampleRuntime)) as [Hstudent Hkey].
  split.
  - apply Hstudent; [symmetry; apply reverse_Permutation|].
    apply (bool_decide_unpack _). vm_compute. exact I.
  - apply (Hkey example_key (reverse example_key) example_student example_result).
    + symmetry. apply reverse_Permutation.
    + apply (bool_decide_unpack _). vm_compute. exact I.
    + vm_compute; reflexivity.
Defined.

(** ** Rows that a later row supersedes *)




Section superseded.
Context `{RT : Runtime}.


End superseded.



(** ** What is read of a row *)

(** X10.  A row counts only through its coerced question number and its
    normalized option.  Replace the rows of the key, one by one, by rows
    that are [null] or [undefined] exactly where the old ones are and have
    the same question number after coercion and the same [correctOption]
    after normalization: the evaluation is the same.  The same holds for
    the student rows and [selectedOption].  So other properties of a row,
    the case of an option, and whether a number or an option is given as a
    number or as its text make no difference. *)
Theorem rows_count_through_number_and_option `{RT : Runtime} :
  (∀ (answerKey answerKey' studentAnswers : list value),
     Forall2 (λ item item',
                readable item = readable item' ∧
                rowNumber item = rowNumber item' ∧
                normalized (field item "correctOption") =
                normalized (field item' "correctOption")) answerKey answerKey' →
     evaluateNeetOMR answerKey studentAnswers = evaluateNeetOMR answerKey' studentAnswers) ∧
  (∀ (answerKey studentAnswers studentAnswers' : list value),
     Forall2 (λ item item',
                readable item = readable item' ∧
                rowNumber item = rowNumber item' ∧
                normalized (field item "selectedOption") =
                normalized (field item' "selectedOption")) studentAnswers studentAnswers' →
     evaluateNeetOMR answerKey studentAnswers = evaluateNeetOMR answerKey studentAnswers').
Proof.
  split.
  - intros answerKey answerKey' studentAnswers Hrows.
    rewrite !evaluateNeetOMR_unfold. unfold keyMapping.
    assert (forallb readable answerKey = forallb readable answerKey') as ->.
    { induction Hrows as [|item item' items items' (Hr & _) _ IH]; [done|].
      cbn [forallb]. by rewrite Hr, IH. }
    rewrite (list_omap_ext keyEntry keyEntry answerKey answerKey'); [done|].
    eapply Forall2_impl; [exact Hrows|].
    intros item item' (_ & Hq & Hc). unfold keyEntry. by rewrite Hq, Hc.
  - intros answerKey studentAnswers studentAnswers' Hrows.
    apply evaluateNeetOMR_ext.
    + induction Hrows as [|item item' items items' (Hr & _) _ IH]; [done|].
      cbn [forallb]. by rewrite Hr, IH.
    + intros q _. unfold attempt.
      rewrite (list_omap_ext studentSelection studentSelection studentAnswers studentAnswers');
        [done|].
      eapply Forall2_impl; [exact Hrows|].
      intros item item' (_ & Hq & Hs). unfold studentSelection. by rewrite Hq, Hs.
Qed.

Lemma rows_count_through_number_and_option_witness :
  evaluateNeetOMR (RT := sampleRuntime)
    [Obj (<["questionNumber" := VString "1"]>
            (<["correctOption" := VString "a"]> (<["marks" := num 4]> ∅)))]
    example_student =
  evaluateNeetOMR (RT := sampleRuntime) [keyRow (num 1) (VString "A")] example_student ∧
  evaluateNeetOMR (RT := sampleRuntime) example_key
    [Obj (<["questionNumber" := VString "51"]>
            (<["selectedOption" := VString "c"]> (<["confidence" := num 9]> ∅)))] =
  evaluateNeetOMR (RT := sampleRuntime) example_key [studentRow (num 51) (VString "C")].
Proof.
  destruct (rows_count_through_number_and_option (RT := sampleRuntime)) as [Hkey Hstudent].
  split.
  - apply Hkey. constructor; [|constructor].
    split; [reflexivity|]. split; vm_compute; reflexivity.
  - apply Hstudent. constructor; [|constructor].
    split; [reflexivity|]. split; vm_compute; reflexivity.
Defined.

(** ** A sheet without a selection *)

Lemma markingScheme_none_unattempted (es : list (number * prim)) (st : EvaluationResult) :
  fold_left (λ st e, markingScheme None e.1 e.2 st) es st =
  {| physicsMarks := physicsMarks st; chemistryMarks := chemistryMarks st;
     biologyMarks := biologyMarks st; totalMarks := totalMarks st;
     correctCount := correctCount st; incorrectCount := incorrectCount st;
     unattemptedCount := unattemptedCount st + Z.of_nat (length es);
     wrongQuestions := wrongQuestions st |}.
Proof.
  revert st. induction es as [|[q c] es IH]; intros st.
  - destruct st. cbn. f_equal. lia.
  - cbn [fold_left length]. rewrite IH. cbn. f_equal. lia.
Qed.



(** * Properties of the evaluator on JSON values *)

Example ToPrimitive_examples :
  Json.ToPrimitive (RT := sampleRuntime) (Json.JArr [Json.JPrim (num 5)]) = Normal (VString "5") ∧
  Json.ToPrimitive (RT := sampleRuntime)
    (Json.JArr [Json.JArr [Json.JPrim (num 1); Json.JPrim (num 2)]; Json.JPrim VNull;
                Json.JObj [("valueOf", Json.JPrim (num 1))]]) =
    Normal (VString "1,2,,[object Object]") ∧
  Json.NumberOf (RT := sampleRuntime) (Json.JObj []) = Normal NaN ∧
  Json.NumberOf (RT := sampleRuntime) (Json.JArr []) = Normal (int 0) ∧
  Json.NumberOf (RT := sampleRuntime) (Json.JObj [("toString", Json.JPrim (num 1))]) =
    Throw TypeError.
Proof. vm_compute. done. Qed.

Lemma error_TypeError (e : error) : e = TypeError.
Proof. by destruct e. Qed.

(** Induction on JSON values, with the property in hand for the elements
    of an array and the values of an object. *)
Section json_induction.
Variable P : Json.json → Prop.
Hypothesis HPrim : ∀ p, P (Json.JPrim p).
Hypothesis HArr : ∀ items, Forall P items → P (Json.JArr items).
Hypothesis HObj : ∀ props, Forall (λ kv, P kv.2) props → P (Json.JObj props).

Fixpoint json_induction (v : Json.json) : P v :=
  match v with
  | Json.JPrim p => HPrim p
  | Json.JArr items =>
      HArr items
        ((fix all (l : list Json.json) : Forall P l :=
            match l with
            | [] => @List.Forall_nil _ P
            | x :: l' => @List.Forall_cons _ P x l' (json_induction x) (all l')
            end) items)
  | Json.JObj props =>
      HObj props
        ((fix all (l : list (string * Json.json)) : Forall (λ kv, P kv.2) l :=
            match l with
            | [] => @List.Forall_nil _ (λ kv, P kv.2)
            | kv :: l' => @List.Forall_cons _ (λ kv, P kv.2) kv l' (json_induction kv.2) (all l')
            end) props)
  end.

End json_induction.

Section json_conversions.
Context `{RT : Runtime}.

Lemma join_Throw (element : Json.json → completion string) (items : list Json.json) :
  Json.join element items = Throw TypeError ↔
  ∃ x, x ∈ items ∧ element x = Throw TypeError.
Proof.
  induction items as [|x rest IH].
  - split; [done|]. intros (x & Hx & _). by apply elem_of_nil in Hx.
  - cbn [Json.join] in IH |- *. destruct (element x) as [s|e] eqn:Hx.
    + cbn [mbind completion_bind]. destruct rest as [|y rest].
      * split; [done|]. intros (x' & Hin & Hx').
        apply list_elem_of_singleton in Hin as ->. congruence.
      * destruct (Json.join element (y :: rest)) as [r|e] eqn:Hrest.
        -- split; [done|]. intros (x' & Hin & Hx').
           apply elem_of_cons in Hin as [->|Hin]; [congruence|].
           assert (Normal r = Throw TypeError) by (apply IH; eauto). done.
        -- cbn [mbind completion_bind]. rewrite (error_TypeError e).
           split; [|done]. intros _.
           rewrite (error_TypeError e) in IH.
           destruct (proj1 IH eq_refl) as (x' & Hin & Hx').
           exists x'. split; [by apply list_elem_of_further|done].
    + cbn [mbind completion_bind]. rewrite (error_TypeError e). split; [|done].
      intros _. exists x. split; [apply list_elem_of_here|].
      by rewrite Hx, (error_TypeError e).
Qed.

(** The conversion to a primitive throws exactly on the values that have
    an object with an own property [toString] in them. *)
Lemma ToPrimitive_Throw (v : Json.json) :
  Json.ToPrimitive v = Throw TypeError ↔ Json.unconvertible v.
Proof.
  induction v as [p|items IH|props _] using json_induction.
  - split; [done|]. inversion 1.
  - cbn [Json.ToPrimitive]. split.
    + intros Hthrow.
      destruct (Json.join _ items) as [s|e] eqn:Hjoin; [done|].
      rewrite (error_TypeError e) in Hjoin.
      apply join_Throw in Hjoin as (x & Hin & Hx).
      apply (Json.unconvertible_array items x Hin).
      rewrite Forall_forall in IH. apply IH; [done|].
      destruct x as [[]| |]; try done.
      all: by destruct (Json.ToPrimitive _) as [|e']; [|rewrite (error_TypeError e')].
    + inversion 1 as [|items' x Hin Hx]; subst.
      rewrite Forall_forall in IH. apply IH in Hx; [|done].
      assert (Hjoin : Json.join
                (λ x, match x with
                      | Json.JPrim VUndefined | Json.JPrim VNull => Normal ""
                      | _ => ToString <$> Json.ToPrimitive x
                      end) items = Throw TypeError).
      { apply join_Throw. exists x. split; [done|].
        destruct x as [p| |]; [done|by rewrite Hx..]. }
      by rewrite Hjoin.
  - cbn [Json.ToPrimitive]. case_bool_decide as Hown.
    + split; [|done]. intros _. by constructor.
    + split; [done|]. by inversion 1.
Qed.

Lemma ToPrimitive_cases (v : Json.json) :
  Json.unconvertible v ∨ ∃ p, Json.ToPrimitive v = Normal p.
Proof.
  destruct (Json.ToPrimitive v) as [p|e] eqn:Hv; [eauto|].
  left. apply ToPrimitive_Throw. by rewrite Hv, (error_TypeError e).
Qed.

Lemma Json_Get_field (item : Json.json) (k : string) :
  item ≠ Json.JPrim VNull → item ≠ Json.JPrim VUndefined →
  Json.Get item k = Normal (Json.field item k).
Proof. by destruct item as [[]| |]. Qed.

Lemma json_nullish_cases (item : Json.json) :
  item = Json.JPrim VNull ∨ item = Json.JPrim VUndefined ∨
  (item ≠ Json.JPrim VNull ∧ item ≠ Json.JPrim VUndefined).
Proof. destruct item as [[]| |]; auto. Qed.

Lemma unconvertible_nonnull (v : Json.json) :
  Json.unconvertible v → Json.nonnull v = true.
Proof. by destruct 1. Qed.

Lemma unconvertible_field (item : Json.json) (k : string) :
  Json.unconvertible (Json.field item k) →
  item ≠ Json.JPrim VNull ∧ item ≠ Json.JPrim VUndefined.
Proof. destruct item as [[]| |]; cbn; try done; inversion 1. Qed.

Lemma rowNumber_Normal (item : Json.json) (n : number) :
  Json.rowNumber item = Normal n →
  item ≠ Json.JPrim VNull ∧ item ≠ Json.JPrim VUndefined ∧
  Json.NumberOf (Json.field item "questionNumber") = Normal n.
Proof. destruct item as [[]| |]; by cbn. Qed.

End json_conversions.

(** ** The loops *)

Lemma forOf_app {S A} (body : S → A → completion S) (xs ys : list A) (s : S) :
  forOf body (xs ++ ys) s = s' ← forOf body xs s; forOf body ys s'.
Proof.
  revert s. induction xs as [|x xs IH]; intros s; [done|].
  cbn [app forOf]. destruct (body s x); [apply IH|done].
Qed.

(** A round that leaves the state as it is can be left out. *)
Lemma forOf_skip {S A} (body : S → A → completion S) (xs ys : list A) (x : A) (s : S) :
  (∀ s, body s x = Normal s) →
  forOf body (xs ++ x :: ys) s = forOf body (xs ++ ys) s.
Proof.
  intros Hskip. rewrite !forOf_app. destruct (forOf body xs s) as [s'|]; [|done].
  cbn [mbind completion_bind forOf]. by rewrite Hskip.
Qed.

(** A loop throws when one of its rounds does, if that depends on the
    element only. *)
Lemma forOf_Throw {S A} (body : S → A → completion S) (fatal : A → Prop) (xs : list A) (s : S) :
  (∀ s x, body s x = Throw TypeError ↔ fatal x) →
  forOf body xs s = Throw TypeError ↔ ∃ x, x ∈ xs ∧ fatal x.
Proof.
  intros Hbody. revert s. induction xs as [|x xs IH]; intros s.
  - split; [done|]. intros (x & Hx & _). by apply elem_of_nil in Hx.
  - cbn [forOf]. destruct (body s x) as [s'|e] eqn:Hx.
    + cbn [mbind completion_bind]. rewrite IH. split.
      * intros (y & Hin & Hy). exists y. split; [by apply list_elem_of_further|done].
      * intros (y & Hin & Hy). apply elem_of_cons in Hin as [->|Hin]; [|eauto].
        apply (Hbody s) in Hy. congruence.
    + rewrite (error_TypeError e) in Hx |- *. split; [|done]. intros _.
      exists x. split; [apply list_elem_of_here|]. by apply (Hbody s).
Qed.

Section json_loops.
Context `{RT : Runtime}.

Lemma rowNumber_Throw (item : Json.json) :
  Json.rowNumber item = Throw TypeError ↔
  item = Json.JPrim VNull ∨ item = Json.JPrim VUndefined ∨
  Json.unconvertible (Json.field item "questionNumber").
Proof.
  destruct (json_nullish_cases item) as [->|[->|[Hnull Hundef]]]; [by split; auto..|].
  unfold Json.rowNumber. rewrite Json_Get_field by done. cbn [mbind completion_bind].
  unfold Json.NumberOf. rewrite <-ToPrimitive_Throw.
  destruct (Json.ToPrimitive _) as [p|e]; cbn [fmap completion_fmap].
  - split; [done|]. by intros [?|[?|?]].
  - rewrite (error_TypeError e). split; auto.
Qed.

Lemma normalized_Throw (v : Json.json) :
  Json.normalized v = Throw TypeError ↔ Json.unconvertible v.
Proof.
  unfold Json.normalized. destruct (Json.nonnull v) eqn:Hv.
  - unfold Json.StringOf. rewrite <-ToPrimitive_Throw.
    destruct (Json.ToPrimitive v) as [p|e]; cbn; [done|].
    by rewrite (error_TypeError e).
  - split; [done|]. intros Hu%unconvertible_nonnull. congruence.
Qed.

(** The two loop bodies, by the question number of the row. *)
Lemma Json_answerKey_body (m : JSMap.t prim) (item : Json.json) :
  Json.answerKey_body m item =
  n ← Json.rowNumber item;
  if negb (Number_isFinite n) then Normal m
  else
    c ← Json.normalized (Json.field item "correctOption");
    if negb (ToBoolean c) then Normal m else Normal (JSMap.set n c m).
Proof.
  unfold Json.answerKey_body, Json.rowNumber, Json.normalized.
  destruct (json_nullish_cases item) as [->|[->|[Hnull Hundef]]]; [done..|].
  rewrite !Json_Get_field by done. cbn [mbind completion_bind].
  by destruct (Json.NumberOf _).
Qed.

Lemma Json_studentAnswers_body (m : JSMap.t Json.entry) (item : Json.json) :
  Json.studentAnswers_body m item =
  n ← Json.rowNumber item;
  if negb (Number_isFinite n) then Normal m
  else
    c ← Json.normalized (Json.field item "selectedOption");
    Normal (JSMap.set n
              {| Json.entry_questionNumber := n; Json.entry_selectedOption := c;
                 Json.entry_rest := Json.spread item |} m).
Proof.
  unfold Json.studentAnswers_body, Json.rowNumber, Json.normalized.
  destruct (json_nullish_cases item) as [->|[->|[Hnull Hundef]]]; [done..|].
  rewrite !Json_Get_field by done. cbn [mbind completion_bind].
  by destruct (Json.NumberOf _).
Qed.

Lemma Json_answerKey_body_Throw (m : JSMap.t prim) (item : Json.json) :
  Json.answerKey_body m item = Throw TypeError ↔ Json.key_fatal item.
Proof.
  rewrite Json_answerKey_body. unfold Json.key_fatal.
  destruct (Json.rowNumber item) as [n|e] eqn:Hn.
  - cbn [mbind completion_bind].
    assert (Hok : ¬ (item = Json.JPrim VNull ∨ item = Json.JPrim VUndefined ∨
                     Json.unconvertible (Json.field item "questionNumber"))).
    { rewrite <-rowNumber_Throw. congruence. }
    destruct (Number_isFinite n) eqn:Hfin; cbn [negb].
    + destruct (Json.normalized _) as [c|e] eqn:Hc; cbn [mbind completion_bind].
      * split; [by destruct (ToBoolean c)|].
        intros [?|[?|[?|[_ Hu]]]]; [tauto..|].
        apply normalized_Throw in Hu. congruence.
      * rewrite (error_TypeError e) in Hc |- *. split; [|done]. intros _.
        do 3 right. split; [eauto|]. by apply normalized_Throw.
    + split; [done|]. intros [?|[?|[?|[(n' & Hn' & Hfin') _]]]]; [tauto..|]. congruence.
  - rewrite (error_TypeError e) in Hn |- *. cbn [mbind completion_bind].
    split; [|done]. intros _. apply rowNumber_Throw in Hn. tauto.
Qed.

Lemma Json_studentAnswers_body_Throw (m : JSMap.t Json.entry) (item : Json.json) :
  Json.studentAnswers_body m item = Throw TypeError ↔ Json.student_fatal item.
Proof.
  rewrite Json_studentAnswers_body. unfold Json.student_fatal.
  destruct (Json.rowNumber item) as [n|e] eqn:Hn.
  - cbn [mbind completion_bind].
    assert (Hok : ¬ (item = Json.JPrim VNull ∨ item = Json.JPrim VUndefined ∨
                     Json.unconvertible (Json.field item "questionNumber"))).
    { rewrite <-rowNumber_Throw. congruence. }
    destruct (Number_isFinite n) eqn:Hfin; cbn [negb].
    + destruct (Json.normalized _) as [c|e] eqn:Hc; cbn [mbind completion_bind].
      * split; [done|].
        intros [?|[?|[?|[_ Hu]]]]; [tauto..|].
        apply normalized_Throw in Hu. congruence.
      * rewrite (error_TypeError e) in Hc |- *. split; [|done]. intros _.
        do 3 right. split; [eauto|]. by apply normalized_Throw.
    + split; [done|]. intros [?|[?|[?|[(n' & Hn' & Hfin') _]]]]; [tauto..|]. congruence.
  - rewrite (error_TypeError e) in Hn |- *. cbn [mbind completion_bind].
    split; [|done]. intros _. apply rowNumber_Throw in Hn. tauto.
Qed.

Lemma Json_evaluateNeetOMR_Throw (answerKey studentAnswers : list Json.json) :
  Json.evaluateNeetOMR answerKey studentAnswers = Throw TypeError ↔
  (∃ item, item ∈ answerKey ∧ Json.key_fatal item) ∨
  (∃ item, item ∈ studentAnswers ∧ Json.student_fatal item).
Proof.
  unfold Json.evaluateNeetOMR.
  rewrite <-(forOf_Throw Json.answerKey_body Json.key_fatal answerKey JSMap.empty)
    by apply Json_answerKey_body_Throw.
  rewrite <-(forOf_Throw Json.studentAnswers_body Json.student_fatal studentAnswers JSMap.empty)
    by apply Json_studentAnswers_body_Throw.
  destruct (forOf Json.answerKey_body answerKey JSMap.empty) as [m|e] eqn:Hkey.
  - cbn [mbind completion_bind].
    assert (Hany : ∀ m0, forOf Json.studentAnswers_body studentAnswers m0 = Throw TypeError ↔
                         forOf Json.studentAnswers_body studentAnswers JSMap.empty = Throw TypeError).
    { intros m0. by rewrite !(forOf_Throw _ Json.student_fatal)
        by apply Json_studentAnswers_body_Throw. }
    destruct (forOf Json.studentAnswers_body studentAnswers JSMap.empty) as [ms|e].
    + split; [done|]. by intros [?|?].
    + rewrite (error_TypeError e). tauto.
  - rewrite (error_TypeError e). cbn [mbind completion_bind]. tauto.
Qed.

End json_loops.

(** ** Rows whose fields are primitives

    On such rows the evaluator on JSON values is the evaluator on
    [value]s: what is shown of the one holds of the other. *)

Lemma own_NoDup (props : list (string * Json.json)) (k : string) (v : Json.json) :
  NoDup props.*1 → Json.own props k = Some v ↔ (k, v) ∈ props.
Proof.
  revert v. induction props as [|[k' v'] props IH]; intros v Hnd.
  - split; [done|]. by intros ?%elem_of_nil.
  - rewrite fmap_cons in Hnd. apply NoDup_cons in Hnd as [Hk' Hnd]. cbn [fst] in Hk'.
    cbn [Json.own]. rewrite elem_of_cons.
    destruct (Json.own props k) as [w|] eqn:Hown.
    + split.
      * intros [= <-]. right. by apply IH.
      * intros [[= -> ->]|Hin].
        -- exfalso. apply Hk'. apply list_elem_of_fmap. exists (k', w).
           split; [done|]. by apply IH.
        -- f_equal. apply IH in Hin; [|done]. congruence.
    + case_decide as Hk; subst.
      * split; [intros [= <-]; by left|].
        intros [[= ->]|Hin]; [done|]. apply IH in Hin; done.
      * split; [done|]. intros [[= ? ?]|Hin]; [done|]. by apply IH in Hin.
Qed.

Lemma own_of_value (o : gmap string prim) (k : string) :
  Json.own (prod_map id Json.JPrim <$> map_to_list o) k = Json.JPrim <$> o !! k.
Proof.
  assert (Hnd : NoDup (prod_map id Json.JPrim <$> map_to_list o).*1).
  { replace ((prod_map id Json.JPrim <$> map_to_list o).*1) with (map_to_list o).*1;
      [apply NoDup_fst_map_to_list|].
    induction (map_to_list o) as [|[k' p'] l IH]; [done|].
    rewrite !fmap_cons. cbn [fst prod_map]. by rewrite IH. }
  destruct (o !! k) as [p|] eqn:Hk; cbn [fmap option_fmap option_map].
  - apply own_NoDup; [done|]. apply list_elem_of_fmap. exists (k, p).
    split; [done|]. by apply elem_of_map_to_list.
  - destruct (Json.own _ k) as [v|] eqn:Hown; [|done].
    apply own_NoDup in Hown; [|done].
    apply list_elem_of_fmap in Hown as ([k' p] & [= -> ->] & Hin).
    apply elem_of_map_to_list in Hin. congruence.
Qed.

Section json_refinement.
Context `{RT : Runtime}.

Lemma Json_answerKey_body_of_value (m : JSMap.t prim) (item : value) :
  Json.answerKey_body m (Json.of_value item) = answerKey_body m item.
Proof.
  destruct item as [p|o].
  - by destruct p.
  - unfold Json.answerKey_body, answerKey_body, Json.of_value, Json.Get, Get.
    rewrite !own_of_value. cbn [mbind completion_bind].
    destruct (o !! "questionNumber") as [qn|]; cbn; [|done].
    destruct (Number_isFinite (ToNumber qn)); [|done]. cbn.
    by destruct (o !! "correctOption") as [[]|].
Qed.

(** The entry the evaluator on JSON values stores, and the entry the
    evaluator on [value]s stores, for the same row. *)
Definition same_entry (a : number * Json.entry) (b : number * gmap string prim) : Prop :=
  a.1 = b.1 ∧ b.2 !! "selectedOption" = Some (Json.entry_selectedOption a.2).

Lemma Json_studentAnswers_body_of_value (m1 : JSMap.t Json.entry) (m2 : JSMap.t (gmap string prim)) (item : value) :
  Forall2 same_entry m1 m2 →
  match Json.studentAnswers_body m1 (Json.of_value item), studentAnswers_body m2 item with
  | Normal m1', Normal m2' => Forall2 same_entry m1' m2'
  | Throw _, Throw _ => True
  | _, _ => False
  end.
Proof.
  intros Hm. destruct item as [p|o].
  - by destruct p.
  - unfold Json.studentAnswers_body, studentAnswers_body, Json.of_value, Json.Get, Get.
    rewrite !own_of_value. cbn [mbind completion_bind].
    destruct (o !! "questionNumber") as [qn|]; cbn; [|done].
    destruct (Number_isFinite (ToNumber qn)); [|done]. cbn.
    destruct (o !! "selectedOption") as [[]|]; cbn;
      (apply JSMap_set_Forall2; [by intros ?? []| |done]);
      split; cbn; try done; by rewrite lookup_insert_eq.
Qed.

Lemma Json_scoring_body_same_entry (m1 : JSMap.t Json.entry) (m2 : JSMap.t (gmap string prim)) (st : EvaluationResult) (e : number * prim) :
  Forall2 same_entry m1 m2 →
  Json.scoring_body m1 st e = scoring_body m2 st e.
Proof.
  intros Hm. destruct e as [q c]. unfold Json.scoring_body, scoring_body.
  pose proof (JSMap_get_Forall2 same_entry q m1 m2 (λ a b H, proj1 H) Hm) as Hget.
  destruct (JSMap.get q m1) as [a|].
  - destruct Hget as (b & -> & _ & Hsel). cbn [snd] in Hsel. by rewrite Hsel.
  - by rewrite Hget.
Qed.

(** On rows whose fields are primitives, the two evaluators agree. *)
Lemma Json_evaluateNeetOMR_of_value (answerKey studentAnswers : list value) :
  Json.evaluateNeetOMR (Json.of_value <$> answerKey) (Json.of_value <$> studentAnswers) =
  evaluateNeetOMR answerKey studentAnswers.
Proof.
  unfold Json.evaluateNeetOMR, evaluateNeetOMR.
  assert (Hkey : ∀ m, forOf Json.answerKey_body (Json.of_value <$> answerKey) m =
                      forOf answerKey_body answerKey m).
  { induction answerKey as [|item items IH]; intros m; [done|].
    rewrite fmap_cons. cbn [forOf]. rewrite Json_answerKey_body_of_value.
    destruct (answerKey_body m item); [apply IH|done]. }
  rewrite Hkey. destruct (forOf answerKey_body answerKey JSMap.empty) as [km|]; [|done].
  cbn [mbind completion_bind].
  assert (Hstudent : ∀ m1 m2, Forall2 same_entry m1 m2 →
            match forOf Json.studentAnswers_body (Json.of_value <$> studentAnswers) m1,
                  forOf studentAnswers_body studentAnswers m2 with
            | Normal m1', Normal m2' => Forall2 same_entry m1' m2'
            | Throw _, Throw _ => True
            | _, _ => False
            end).
  { induction studentAnswers as [|item items IH]; intros m1 m2 Hm; [done|].
    rewrite fmap_cons. cbn [forOf].
    pose proof (Json_studentAnswers_body_of_value m1 m2 item Hm) as Hbody.
    destruct (Json.studentAnswers_body m1 _) as [m1'|], (studentAnswers_body m2 item) as [m2'|];
      try done.
    cbn [mbind completion_bind]. by apply IH. }
  specialize (Hstudent JSMap.empty JSMap.empty (Forall2_nil_2 _ _ _)).
  destruct (forOf Json.studentAnswers_body _ _) as [sm1|e1],
           (forOf studentAnswers_body _ _) as [sm2|e2]; try done.
  - cbn [mbind completion_bind mret completion_ret]. f_equal.
    apply fold_left_ext_elem. intros st e _. by apply Json_scoring_body_same_entry.
  - cbn [mbind completion_bind]. by rewrite (error_TypeError e1), (error_TypeError e2).
Qed.

End json_refinement.

(** ** Rows that are dropped, and rows that are fatal *)

Section json_dropped.
Context `{RT : Runtime}.

Lemma Json_key_row_dropped (m : JSMap.t prim) (item : Json.json) (n : number) :
  Json.rowNumber item = Normal n →
  Number_isFinite n = false ∨
    (∃ c, Json.normalized (Json.field item "correctOption") = Normal c ∧
          ToBoolean c = false) →
  Json.answerKey_body m item = Normal m.
Proof.
  intros Hn Hbad. rewrite Json_answerKey_body, Hn. cbn [mbind completion_bind].
  destruct (Number_isFinite n); [|done]. cbn [negb].
  destruct Hbad as [?|(c & -> & Hc)]; [done|].
  cbn [mbind completion_bind]. by rewrite Hc.
Qed.

Lemma Json_student_row_dropped (m : JSMap.t Json.entry) (item : Json.json) (n : number) :
  Json.rowNumber item = Normal n →
  Number_isFinite n = false →
  Json.studentAnswers_body m item = Normal m.
Proof.
  intros Hn Hbad. rewrite Json_studentAnswers_body, Hn. cbn [mbind completion_bind].
  by rewrite Hbad.
Qed.

Lemma Json_students_all_dropped (m : JSMap.t Json.entry) (items : list Json.json) :
  Forall (λ item, ∃ n, Json.rowNumber item = Normal n ∧ Number_isFinite n = false) items →
  forOf Json.studentAnswers_body items m = Normal m.
Proof.
  induction 1 as [|item items (n & Hn & Hfin) _ IH]; [done|].
  cbn [forOf]. by rewrite (Json_student_row_dropped m item n Hn Hfin).
Qed.

Lemma Json_answerKey_NoDup (items : list Json.json) (m m' : JSMap.t prim) :
  NoDup (JSMap.keys m) →
  forOf Json.answerKey_body items m = Normal m' →
  NoDup (JSMap.keys m').
Proof.
  revert m. induction items as [|item items IH]; intros m Hnd; cbn [forOf].
  - by intros [= <-].
  - rewrite Json_answerKey_body.
    destruct (Json.rowNumber item) as [n|]; cbn [mbind completion_bind]; [|done].
    destruct (Number_isFinite n); cbn [negb]; [|by apply IH].
    destruct (Json.normalized _) as [c|]; cbn [mbind completion_bind]; [|done].
    destruct (ToBoolean c); cbn [negb]; [|by apply IH].
    apply IH. by apply JSMap_NoDup_set.
Qed.

End json_dropped.

(** X1.  On the rows of a JSON body the evaluator throws, and then a
    [TypeError], exactly when a round of one of its first two loops does:
    when an element of one of the two sequences is [null] or [undefined],
    when the question number of a row cannot be converted to a primitive,
    or when the question number of a row is finite and its option, the
    correct option of a key row or the selected option of a student row,
    cannot be converted.  The values that cannot be converted are the
    objects with an own property [toString] and the arrays with such an
    object among their elements, at any depth.  In every other case the
    evaluator returns a result. *)
Theorem throws_exactly_on_fatal_rows `{RT : Runtime} (answerKey studentAnswers : list Json.json) :
  (Json.evaluateNeetOMR answerKey studentAnswers = Throw TypeError ↔
   (∃ item, item ∈ answerKey ∧ Json.key_fatal item) ∨
   (∃ item, item ∈ studentAnswers ∧ Json.student_fatal item)) ∧
  ((∃ r, Json.evaluateNeetOMR answerKey studentAnswers = Normal r) ↔
   ¬ ((∃ item, item ∈ answerKey ∧ Json.key_fatal item) ∨
      (∃ item, item ∈ studentAnswers ∧ Json.student_fatal item))) ∧
  (∀ v, Json.ToPrimitive v = Throw TypeError ↔ Json.unconvertible v).
Proof.
  split; [apply Json_evaluateNeetOMR_Throw|]. split; [|apply ToPrimitive_Throw].
  rewrite <-Json_evaluateNeetOMR_Throw.
  destruct (Json.evaluateNeetOMR answerKey studentAnswers) as [r|e].
  - split; [done|eauto].
  - rewrite (error_TypeError e). split; [by intros [r ?]|done].
Qed.

Lemma throws_exactly_on_fatal_rows_witness :
  Json.evaluateNeetOMR (RT := sampleRuntime) [example_unconvertible_row] [] = Throw TypeError ∧
  ∃ r, Json.evaluateNeetOMR (RT := sampleRuntime)
         [jsonKeyRow example_plain_object (Json.JPrim (VString "A"))] [] = Normal r.
Proof.
  split.
  - apply (throws_exactly_on_fatal_rows (RT := sampleRuntime)).
    left. exists example_unconvertible_row. split; [apply list_elem_of_here|].
    do 2 right. left. apply Json.unconvertible_object.
    apply list_elem_of_here.
  - apply (throws_exactly_on_fatal_rows (RT := sampleRuntime)).
    intros [(item & Hin & Hfatal)|(item & Hin & _)].
    + apply list_elem_of_singleton in Hin as ->.
      destruct Hfatal as [?|[?|[Hu|[(n & Hn & Hfin) _]]]]; [done..| |].
      * inversion Hu as [props Hown|]; subst.
        apply list_elem_of_singleton in Hown. done.
      * vm_compute in Hn. injection Hn as <-. done.
    + by apply elem_of_nil in Hin.
Defined.

(** C7.  Malformed rows are dropped, as long as converting them does not
    throw.  An answer-key row whose question number converts to a number
    that is not finite, or converts to a finite number while its correct
    option is null, missing or empty after normalization, contributes
    nothing: without it the loop over the answer key builds the same map
    and the evaluation is the same.  A student row whose question number
    converts to a number that is not finite is not in the student lookup:
    without it the loop over the student answers builds the same map and
    the evaluation is the same.  When every student row is of that kind,
    each question of the key map is counted as unattempted, once: no answer
    is correct or incorrect, no mark is given and no wrong question is
    listed.  But a row whose question number cannot be converted to a
    primitive is fatal: with such a row in either sequence the evaluation
    throws a [TypeError]. *)
Theorem convertible_malformed_rows_are_dropped `{RT : Runtime} :
  (∀ (key1 key2 studentAnswers : list Json.json) (item : Json.json) (n : number),
     Json.rowNumber item = Normal n →
     Number_isFinite n = false ∨
       (∃ c, Json.normalized (Json.field item "correctOption") = Normal c ∧
             ToBoolean c = false) →
     forOf Json.answerKey_body (key1 ++ item :: key2) JSMap.empty =
       forOf Json.answerKey_body (key1 ++ key2) JSMap.empty ∧
     Json.evaluateNeetOMR (key1 ++ item :: key2) studentAnswers =
     Json.evaluateNeetOMR (key1 ++ key2) studentAnswers) ∧
  (∀ (answerKey students1 students2 : list Json.json) (item : Json.json) (n : number),
     Json.rowNumber item = Normal n →
     Number_isFinite n = false →
     forOf Json.studentAnswers_body (students1 ++ item :: students2) JSMap.empty =
       forOf Json.studentAnswers_body (students1 ++ students2) JSMap.empty ∧
     Json.evaluateNeetOMR answerKey (students1 ++ item :: students2) =
     Json.evaluateNeetOMR answerKey (students1 ++ students2)) ∧
  (∀ (answerKey studentAnswers : list Json.json) (r : EvaluationResult),
     Forall (λ item, ∃ n, Json.rowNumber item = Normal n ∧ Number_isFinite n = false)
            studentAnswers →
     Json.evaluateNeetOMR answerKey studentAnswers = Normal r →
     ∃ answerKeyMap,
       forOf Json.answerKey_body answerKey JSMap.empty = Normal answerKeyMap ∧
       NoDup (JSMap.keys answerKeyMap) ∧
       unattemptedCount r = Z.of_nat (length (JSMap.keys answerKeyMap)) ∧
       correctCount r = 0 ∧ incorrectCount r = 0 ∧
       physicsMarks r = 0 ∧ chemistryMarks r = 0 ∧ biologyMarks r = 0 ∧
       totalMarks r = 0 ∧ wrongQuestions r = []) ∧
  (∀ (answerKey studentAnswers : list Json.json) (item : Json.json),
     item ∈ answerKey ∨ item ∈ studentAnswers →
     Json.unconvertible (Json.field item "questionNumber") →
     Json.evaluateNeetOMR answerKey studentAnswers = Throw TypeError).
Proof.
  split_and!.
  - intros key1 key2 studentAnswers item n Hn Hbad.
    assert (Heq : forOf Json.answerKey_body (key1 ++ item :: key2) JSMap.empty =
                  forOf Json.answerKey_body (key1 ++ key2) JSMap.empty).
    { apply forOf_skip. intros m. by apply (Json_key_row_dropped m item n). }
    split; [done|]. unfold Json.evaluateNeetOMR. by rewrite Heq.
  - intros answerKey students1 students2 item n Hn Hbad.
    assert (Heq : forOf Json.studentAnswers_body (students1 ++ item :: students2) JSMap.empty =
                  forOf Json.studentAnswers_body (students1 ++ students2) JSMap.empty).
    { apply forOf_skip. intros m. by apply (Json_student_row_dropped m item n). }
    split; [done|]. unfold Json.evaluateNeetOMR. by rewrite Heq.
  - intros answerKey studentAnswers r Hall Hr. unfold Json.evaluateNeetOMR in Hr.
    destruct (forOf Json.answerKey_body answerKey JSMap.empty) as [km|] eqn:Hkey; [|done].
    cbn [mbind completion_bind] in Hr.
    rewrite (Json_students_all_dropped _ _ Hall) in Hr.
    cbn [mbind completion_bind mret completion_ret] in Hr. injection Hr as <-.
    exists km. split; [done|]. split.
    { eapply Json_answerKey_NoDup; [|exact Hkey]. constructor. }
    rewrite (fold_left_ext_elem _ (λ st e, markingScheme None e.1 e.2 st)).
    + rewrite markingScheme_none_unattempted. unfold JSMap.keys, JSMap.entries.
      rewrite length_fmap. by cbn.
    + by intros st [q c] _.
  - intros answerKey studentAnswers item Hin Hu.
    apply Json_evaluateNeetOMR_Throw.
    destruct Hin as [Hin|Hin]; [left|right]; exists item; (split; [done|]).
    + unfold Json.key_fatal. auto.
    + unfold Json.student_fatal. auto.
Qed.

Lemma convertible_malformed_rows_are_dropped_witness :
  Json.evaluateNeetOMR (RT := sampleRuntime)
    ([] ++ jsonKeyRow example_plain_object example_unconvertible_row :: example_json_key)
    example_json_student =
  Json.evaluateNeetOMR (RT := sampleRuntime) ([] ++ example_json_key) example_json_student ∧
  Json.evaluateNeetOMR (RT := sampleRuntime) example_json_key
    ([] ++ jsonStudentRow (Json.JPrim (VString "x")) (Json.JPrim (VString "B")) ::
       example_json_student) =
  Json.evaluateNeetOMR (RT := sampleRuntime) example_json_key ([] ++ example_json_student) ∧
  (∃ answerKeyMap,
     forOf (Json.answerKey_body (RT := sampleRuntime)) example_json_key JSMap.empty =
       Normal answerKeyMap ∧
     NoDup (JSMap.keys answerKeyMap) ∧
     3 = Z.of_nat (length (JSMap.keys answerKeyMap))) ∧
  Json.evaluateNeetOMR (RT := sampleRuntime) example_json_key [example_unconvertible_row] =
    Throw TypeError.
Proof.
  destruct (convertible_malformed_rows_are_dropped (RT := sampleRuntime))
    as (Hkey & Hstudent & Hall & Hfatal).
  split_and!.
  - apply (Hkey [] example_json_key example_json_student _ NaN).
    + vm_compute; reflexivity.
    + left. reflexivity.
  - apply (Hstudent example_json_key [] example_json_student _ NaN).
    + vm_compute; reflexivity.
    + reflexivity.
  - destruct (Hall example_json_key
                [jsonStudentRow example_plain_object (Json.JPrim (VString "B"))]
                {| physicsMarks := 0; chemistryMarks := 0; biologyMarks := 0; totalMarks := 0;
                   correctCount := 0; incorrectCount := 0; unattemptedCount := 3;
                   wrongQuestions := [] |})
      as (answerKeyMap & Hmap & Hnd & Hcount & _).
    + constructor; [|constructor]. exists NaN. split; vm_compute; reflexivity.
    + vm_compute; reflexivity.
    + exists answerKeyMap. split; [exact Hmap|]. split; [exact Hnd|]. exact Hcount.
  - apply (Hfatal example_json_key [example_unconvertible_row] example_unconvertible_row).
    + right. apply list_elem_of_here.
    + apply Json.unconvertible_object. apply list_elem_of_here.
Defined.

(** C7, as stated, fails on a row whose question number cannot be
    converted.  The key row [{ questionNumber: { toString: 1 },
    correctOption: null }] has a question number that does not coerce to a
    finite number and a correct option that is null, but it is not dropped:
    with it the evaluation throws, where without it there is a result. *)
Lemma unconvertible_row_counterexample :
  Json.rowNumber (RT := sampleRuntime) example_unconvertible_row = Throw TypeError ∧
  Json.field example_unconvertible_row "correctOption" = Json.JPrim VNull ∧
  Json.evaluateNeetOMR (RT := sampleRuntime)
    (example_json_key ++ [example_unconvertible_row]) example_json_student =
    Throw TypeError ∧
  Json.evaluateNeetOMR (RT := sampleRuntime) example_json_key example_json_student =
    Normal example_result.
Proof. vm_compute. done. Qed.

(** * Properties of the request handlers *)

Import Controller.

(** The sample store, run: [evaluateOmr] on the first example of the
    specification stores the answers and the result, and [getExamResult]
    then fetches them. *)
Example evaluate_then_fetch :
  run sampleEnvironment (evaluateOmr (RT := sampleRuntime) example_request) ∅ =
    (inr example_response, example_calls, example_stored) ∧
  (run sampleEnvironment (getExamResult example_request) example_stored).1.1 =
  inr (@Build_response sampleCollaborators 200
         (@result sampleCollaborators "Exam evaluation fetched successfully"
            (inl (Some (marks example_student)))
            (Some (evaluation example_result)))).
Proof. split; vm_compute; reflexivity. Qed.

(** Before the evaluation there is nothing to fetch. *)
Example fetch_before_evaluation :
  (run sampleEnvironment (getExamResult example_request) ∅).1.1 =
  inr {| status := 400;
         json := message "evaluation not available for this submission yet" |}.
Proof. vm_compute. reflexivity. Qed.

(** The request asks [evaluateOmr] for an evaluation it can attempt. *)
Local Abbreviation well_formed req :=
  (∃ b answerKey studentAnswers,
     req_body req = Some b ∧ ToBoolean (req_submissionId req) = true ∧
     body_answerKey b = JArray answerKey ∧ body_studentAnswers b = JArray studentAnswers).

(** Case analysis on a run [H]: on what the request holds, on what the
    environment answers and on what the evaluator returns. *)
Ltac run_cases env H :=
  repeat (cbn -[evaluateNeetOMR] in H;
          match type of H with
          | context [ToBoolean ?v] => destruct (ToBoolean v) eqn:?
          | context [truthy ?v] => destruct (truthy v) eqn:?
          | context [env ?c ?s] => destruct (env c s) as [[?|?] ?] eqn:?
          | context [match ?x with Some _ => _ | None => _ end] => destruct x eqn:?
          | context [match ?x with JArray _ => _ | JOther => _ end] => destruct x eqn:?
          | context [lift ?m] => destruct m eqn:?
          | context [if ?b then _ else _] => destruct b eqn:?
          end).

(** What is left of a property of a run once the run is known. *)
Ltac settle env :=
  intros;
  repeat match goal with
         | H : _ ∧ _ |- _ => destruct H
         | H : ∃ _, _ |- _ => destruct H
         | H : _ ∨ _ |- _ => destruct H
         | H : _ ∈ [] |- _ => apply elem_of_nil in H
         | H : _ ∈ _ :: _ |- _ => apply elem_of_cons in H
         | H1 : env ?c ?s = _, H2 : env ?c ?s = _ |- _ => rewrite H1 in H2; simplify_eq
         | u : unit |- _ => destruct u
         | H : truthy ?v = _ |- context [truthy ?v] => rewrite H
         end;
  simplify_eq/=;
  try done;
  try lazymatch goal with
      | |- _ ∧ _ => split; settle env
      | |- _ ↔ _ => split; settle env
      | |- ¬ _ => intro; settle env
      | |- ∃ _, _ => eexists; settle env
      | |- _ `prefix_of` _ => eexists; reflexivity
      | |- Forall _ _ => repeat constructor
      | |- _ ∨ _ => solve [left; settle env | right; settle env]
      | |- _ = _ => first [reflexivity | congruence | exfalso; settle env]
      | |- False =>
          first [congruence
                | match goal with H : ¬ _ |- _ => apply H; clear H; settle env end]
      end.

(** X12.  [evaluateOmr] always answers, with one of four status codes.  It
    answers 400 exactly when the request has a body and either no
    [submissionId] or an [answerKey] or [studentAnswers] that is not an
    array, and then without a single call to a collaborator.  It answers
    404 exactly when the request is well formed and the lookup of the
    submission resolves to [null], and then the lookup is its only call.  A
    request without a body is answered 500. *)
Theorem evaluateOmr_answers_from_request_and_lookup `{RT : Runtime} `{CO : Collaborators} {S : Type} (env : environment S) (s : S) (req : request) :
  ∃ resp calls s',
    run env (evaluateOmr req) s = (inr resp, calls, s') ∧
    (status resp = 200 ∨ status resp = 400 ∨ status resp = 404 ∨ status resp = 500) ∧
    (status resp = 400 ↔
       ∃ b, req_body req = Some b ∧
            (ToBoolean (req_submissionId req) = false ∨
             ¬ ∃ answerKey studentAnswers,
                 body_answerKey b = JArray answerKey ∧
                 body_studentAnswers b = JArray studentAnswers)) ∧
    (status resp = 400 → calls = [] ∧ s' = s) ∧
    (status resp = 404 ↔
       well_formed req ∧
       ∃ s1, env (ExamSubmission_findById (req_submissionId req)) s = (inr None, s1)) ∧
    (status resp = 404 → calls = [ExamSubmission_findById (req_submissionId req)]) ∧
    (req_body req = None → status resp = 500 ∧ calls = []).
Proof.
  destruct (run env (evaluateOmr req) s) as [[out calls] s'] eqn:Hrun.
  unfold evaluateOmr in Hrun. destruct req as [rid sid body file].
  run_cases env Hrun.
  all: injection Hrun as <- <- <-; eexists _, _, _; split; [reflexivity|]; cbn.
  all: settle env.
Qed.

Lemma evaluateOmr_answers_from_request_and_lookup_witness :
  ∃ resp calls s',
    run sampleEnvironment (evaluateOmr (RT := sampleRuntime) example_request) ∅ =
      (inr resp, calls, s') ∧
    (status resp = 200 ∨ status resp = 400 ∨ status resp = 404 ∨ status resp = 500).
Proof.
  destruct (evaluateOmr_answers_from_request_and_lookup (RT := sampleRuntime)
              sampleEnvironment ∅ example_request)
    as (resp & calls & s' & Hrun & Hstatus & _).
  exists resp, calls, s'. split; [exact Hrun | exact Hstatus].
Defined.

Lemma evaluateNeetOMR_null_row `{RT : Runtime} (answerKey studentAnswers : list value) (item : value) :
  item ∈ answerKey ∨ item ∈ studentAnswers →
  item = Prim VNull ∨ item = Prim VUndefined →
  evaluateNeetOMR answerKey studentAnswers = Throw TypeError.
Proof.
  intros Hin Hnull. rewrite evaluateNeetOMR_unfold.
  destruct Hin as [Hin|Hin].
  - rewrite (proj2 (forallb_readable_false answerKey)) by eauto. done.
  - rewrite (proj2 (forallb_readable_false studentAnswers)) by eauto.
    by destruct (forallb readable answerKey).
Qed.

(** X13.  A row that is [null] or [undefined] makes a well-formed request a
    server error.  [evaluateOmr] then calls nothing but the lookup of the
    submission, so nothing is assigned and nothing saved, and it answers
    404 or 500; when the submission is found the answer is 500 with the
    evaluator's [TypeError] as the error. *)
Theorem evaluateOmr_null_row_is_a_server_error `{RT : Runtime} `{CO : Collaborators} {S : Type} (env : environment S) (s : S) (req : request) (b : body) (answerKey studentAnswers : list value) (item : value) :
  req_body req = Some b →
  ToBoolean (req_submissionId req) = true →
  body_answerKey b = JArray answerKey →
  body_studentAnswers b = JArray studentAnswers →
  item ∈ answerKey ∨ item ∈ studentAnswers →
  item = Prim VNull ∨ item = Prim VUndefined →
  ∃ resp s',
    run env (evaluateOmr req) s =
      (inr resp, [ExamSubmission_findById (req_submissionId req)], s') ∧
    (status resp = 404 ∨ status resp = 500) ∧
    (∀ submission s1,
       env (ExamSubmission_findById (req_submissionId req)) s = (inr (Some submission), s1) →
       resp = {| status := 500;
                 json := failure "error on evaluating OMR" (Thrown TypeError) |} ∧
       s' = s1).
Proof.
  intros Hbody Hid Hkey Hstudents Hin Hnull.
  pose proof (evaluateNeetOMR_null_row _ _ _ Hin Hnull) as Hthrow.
  destruct (run env (evaluateOmr req) s) as [[out calls] s'] eqn:Hrun.
  unfold evaluateOmr in Hrun. destruct req as [rid sid body file].
  cbn in Hbody, Hid, Hkey, Hstudents. subst body.
  cbn -[evaluateNeetOMR] in Hrun. rewrite Hid, Hkey, Hstudents in Hrun.
  run_cases env Hrun.
  all: try discriminate Hthrow.
  all: injection Hrun as <- <- <-; eexists _, _; split; [reflexivity|]; cbn.
  all: settle env.
Qed.

Lemma evaluateOmr_null_row_is_a_server_error_witness :
  ∃ resp s',
    run sampleEnvironment (evaluateOmr (RT := sampleRuntime) example_null_request) ∅ =
      (inr resp, [ExamSubmission_findById (VString "s1")], s') ∧
    (status resp = 404 ∨ status resp = 500) ∧
    (∀ submission s1,
       sampleEnvironment (ExamSubmission_findById (VString "s1")) ∅ =
         (inr (Some submission), s1) →
       resp = {| status := 500;
                 json := failure "error on evaluating OMR" (Thrown TypeError) |} ∧
       s' = s1).
Proof.
  apply (evaluateOmr_null_row_is_a_server_error (RT := sampleRuntime)
           sampleEnvironment ∅ example_null_request
           {| body_answerKey := JArray [Prim VNull];
              body_studentAnswers := JArray example_student |}
           [Prim VNull] example_student (Prim VNull)).
  - reflexivity.
  - reflexivity.
  - reflexivity.
  - reflexivity.
  - left. apply list_elem_of_here.
  - left. reflexivity.
Defined.

(** X14.  [evaluateOmr] stores what it evaluated, or nothing.  When it
    answers 200, or issues any call that changes what the collaborators
    hold, the request held two arrays, the submission was found, the
    evaluator returned a result for the two arrays, and the calls are, in
    this order and up to the point where one fails: the lookup, the
    assignment of the student answers as sent to [detectedMarks], the
    assignment of that result to [evaluation], the [save], and the two
    reads the answer is made of.  With status 200 all six were issued and
    resolved, one after the other, and the answer is made of what the last
    two resolved to: its [detectedMarks] is the value read from
    [detectedMarks] of the submission after the [save], and its
    [evaluation] the value read from [evaluation] after that. *)
Theorem evaluateOmr_stores_what_it_evaluated `{RT : Runtime} `{CO : Collaborators} {S : Type} (env : environment S) (s : S) (req : request) (resp : response) (calls : list call) (s' : S) :
  run env (evaluateOmr req) s = (inr resp, calls, s') →
  status resp = 200 ∨ (∃ c, c ∈ calls ∧ writes c = true) →
  ∃ b answerKey studentAnswers submission r,
    req_body req = Some b ∧
    body_answerKey b = JArray answerKey ∧
    body_studentAnswers b = JArray studentAnswers ∧
    (∃ s1, env (ExamSubmission_findById (req_submissionId req)) s =
             (inr (Some submission), s1)) ∧
    evaluateNeetOMR answerKey studentAnswers = Normal r ∧
    calls `prefix_of`
      [ExamSubmission_findById (req_submissionId req);
       assign submission "detectedMarks" (marks studentAnswers);
       assign submission "evaluation" (evaluation r);
       save submission;
       read submission "detectedMarks";
       read submission "evaluation"] ∧
    (status resp = 200 →
       length calls = 6%nat ∧
       ∃ s1 s2 s3 s4 s5 detectedMarks stored,
         env (ExamSubmission_findById (req_submissionId req)) s =
           (inr (Some submission), s1) ∧
         env (assign submission "detectedMarks" (marks studentAnswers)) s1 = (inr (), s2) ∧
         env (assign submission "evaluation" (evaluation r)) s2 = (inr (), s3) ∧
         env (save submission) s3 = (inr (), s4) ∧
         env (read submission "detectedMarks") s4 = (inr detectedMarks, s5) ∧
         env (read submission "evaluation") s5 = (inr stored, s') ∧
         resp = {| status := 200;
                   json := result "OMR evaluated successfully" (inl detectedMarks) stored |}).
Proof.
  intros Hrun Hwrote.
  unfold evaluateOmr in Hrun. destruct req as [rid sid body file].
  run_cases env Hrun.
  all: injection Hrun as <- <- <-; cbn in Hwrote |- *.
  all: settle env.
Qed.

Lemma evaluateOmr_stores_what_it_evaluated_witness :
  ∃ b answerKey studentAnswers submission r,
    req_body example_request = Some b ∧
    body_answerKey b = JArray answerKey ∧
    body_studentAnswers b = JArray studentAnswers ∧
    (∃ s1, sampleEnvironment (ExamSubmission_findById (VString "s1")) ∅ =
             (inr (Some submission), s1)) ∧
    evaluateNeetOMR (RT := sampleRuntime) answerKey studentAnswers = Normal r ∧
    example_calls `prefix_of`
      [ExamSubmission_findById (VString "s1");
       assign submission "detectedMarks" (marks studentAnswers);
       assign submission "evaluation" (evaluation r);
       save submission;
       read submission "detectedMarks";
       read submission "evaluation"] ∧
    (status example_response = 200 →
       length example_calls = 6%nat ∧
       ∃ s1 s2 s3 s4 s5 detectedMarks stored,
         sampleEnvironment (ExamSubmission_findById (VString "s1")) ∅ =
           (inr (Some submission), s1) ∧
         sampleEnvironment (assign submission "detectedMarks" (marks studentAnswers)) s1 =
           (inr (), s2) ∧
         sampleEnvironment (assign submission "evaluation" (evaluation r)) s2 = (inr (), s3) ∧
         sampleEnvironment (save submission) s3 = (inr (), s4) ∧
         sampleEnvironment (read submission "detectedMarks") s4 = (inr detectedMarks, s5) ∧
         sampleEnvironment (read submission "evaluation") s5 = (inr stored, example_stored) ∧
         example_response =
         {| status := 200;
            json := result "OMR evaluated successfully" (inl detectedMarks) stored |}).
Proof.
  apply (evaluateOmr_stores_what_it_evaluated (RT := sampleRuntime)
           sampleEnvironment ∅ example_request example_response example_calls
           example_stored).
  - vm_compute. reflexivity.
  - left. reflexivity.
Defined.

(** X15.  [getExamResult] only reads.  It always answers, issues no call
    that changes what the collaborators hold, answers 404 exactly when
    there is a [submissionId] and the lookup resolves to [null], and 400
    exactly when there is no [submissionId] or the submission found has a
    falsy [evaluation].  It answers 200 exactly when the submission is
    found, its [evaluation] reads as truthy, and the two reads that follow
    resolve; the answer is then made of these two: its [detectedMarks] is
    the value read from [detectedMarks] of the submission, or the empty
    array when that value is falsy, and its [evaluation] is the value read
    from [evaluation] the second time.  A body with an evaluation comes
    with status 200 only. *)
Theorem getExamResult_only_reads `{RT : Runtime} `{CO : Collaborators} {S : Type} (env : environment S) (s : S) (req : request) :
  ∃ resp calls s',
    run env (getExamResult req) s = (inr resp, calls, s') ∧
    Forall (λ c, writes c = false) calls ∧
    (status resp = 200 ∨ status resp = 400 ∨ status resp = 404 ∨ status resp = 500) ∧
    (status resp = 404 ↔
       ToBoolean (req_submissionId req) = true ∧
       ∃ s1, env (ExamSubmission_findById (req_submissionId req)) s = (inr None, s1)) ∧
    (status resp = 400 ↔
       ToBoolean (req_submissionId req) = false ∨
       ∃ submission s1 stored s2,
         env (ExamSubmission_findById (req_submissionId req)) s =
           (inr (Some submission), s1) ∧
         env (read submission "evaluation") s1 = (inr stored, s2) ∧
         truthy stored = false) ∧
    (status resp = 200 ↔
       ∃ submission s1 first s2 detectedMarks s3 stored,
         ToBoolean (req_submissionId req) = true ∧
         env (ExamSubmission_findById (req_submissionId req)) s =
           (inr (Some submission), s1) ∧
         env (read submission "evaluation") s1 = (inr first, s2) ∧
         truthy first = true ∧
         env (read submission "detectedMarks") s2 = (inr detectedMarks, s3) ∧
         env (read submission "evaluation") s3 = (inr stored, s') ∧
         calls = [ExamSubmission_findById (req_submissionId req);
                  read submission "evaluation";
                  read submission "detectedMarks";
                  read submission "evaluation"] ∧
         resp = {| status := 200;
                   json := result "Exam evaluation fetched successfully"
                             (if truthy detectedMarks then inl detectedMarks else inr [])
                             stored |}) ∧
    (∀ m detectedMarks stored,
       json resp = result m detectedMarks stored →
       status resp = 200 ∧
       match detectedMarks with
       | inl v => truthy v = true
       | inr items => items = []
       end).
Proof.
  destruct (run env (getExamResult req) s) as [[out calls] s'] eqn:Hrun.
  unfold getExamResult in Hrun. destruct req as [rid sid body file].
  run_cases env Hrun.
  all: injection Hrun as <- <- <-; eexists _, _, _; split; [reflexivity|]; cbn.
  all: settle env.
Qed.

Lemma getExamResult_only_reads_witness :
  ∃ resp calls s',
    run sampleEnvironment (getExamResult example_request) ∅ = (inr resp, calls, s') ∧
    Forall (λ c, writes c = false) calls.
Proof.
  destruct (getExamResult_only_reads (RT := sampleRuntime) sampleEnvironment ∅ example_request)
    as (resp & calls & s' & Hrun & Hreads & _).
  exists resp, calls, s'. split; [exact Hrun | exact Hreads].
Defined.

(** X16.  [submitOmr] never answers 404, nor 500: it answers 200 or 400.
    Its test [!Exam] is on the model, not on the exam found.  When no exam
    has been uploaded, so that [Exam.findOne()] resolves to [null], reading
    [exam._id] throws and the answer is the 400 of the [catch], with that
    [TypeError] as the error, whether or not the request has a file; the
    lookup is then the only call.  It answers 200 exactly when four calls
    resolve one after the other: the lookup, to an exam; the read of [_id]
    of that exam; the upload of the path of the file of the request, to a
    truthy response; and the creation of a submission whose [exam] is the
    value read from [_id], whose [student] is [req.id] and whose
    [filledOmr] has the [secure_url] and the [public_id] of that response.
    The answer then carries the submission the creation resolved to. *)
Theorem submitOmr_never_answers_not_found `{RT : Runtime} `{CO : Collaborators} {S : Type} (env : environment S) (s : S) (req : request) :
  ∃ resp calls s',
    run env (submitOmr req) s = (inr resp, calls, s') ∧
    (status resp = 200 ∨ status resp = 400) ∧
    (Exam_imported = false →
       resp = {| status := 400;
                 json := failure "error on hitting submitOmr controller" (Thrown TypeError) |} ∧
       calls = []) ∧
    (∀ s1, Exam_imported = true → env Exam_findOne s = (inr None, s1) →
       resp = {| status := 400;
                 json := failure "error on hitting submitOmr controller" (Thrown TypeError) |} ∧
       calls = [Exam_findOne] ∧ s' = s1) ∧
    (status resp = 200 ↔
       ∃ found s1 examId s2 path omrResponse s3 newSubmission,
         Exam_imported = true ∧
         env Exam_findOne s = (inr (Some found), s1) ∧
         env (read found "_id") s1 = (inr examId, s2) ∧
         req_file req = Some path ∧
         env (uploadMedia path) s2 = (inr (Some omrResponse), s3) ∧
         env (ExamSubmission_create
                {| exam := examId; student := req_id req;
                   filledOmr_url := secure_url omrResponse;
                   filledOmr_publicId := public_id omrResponse |}) s3 =
           (inr newSubmission, s') ∧
         calls = [Exam_findOne; read found "_id"; uploadMedia path;
                  ExamSubmission_create
                    {| exam := examId; student := req_id req;
                       filledOmr_url := secure_url omrResponse;
                       filledOmr_publicId := public_id omrResponse |}] ∧
         resp = {| status := 200;
                   json := submitted "Your Filled Omr Submitted Successfully"
                             newSubmission |}).
Proof.
  destruct (run env (submitOmr req) s) as [[out calls] s'] eqn:Hrun.
  unfold submitOmr in Hrun. destruct req as [rid sid body file].
  destruct Exam_imported eqn:Himported.
  all: run_cases env Hrun.
  all: injection Hrun as <- <- <-; eexists _, _, _; split; [reflexivity|]; cbn.
  all: settle env.
Qed.

Lemma submitOmr_never_answers_not_found_witness :
  ∃ resp calls s',
    run sampleEnvironment (submitOmr example_request) ∅ = (inr resp, calls, s') ∧
    resp = {| status := 400;
              json := failure "error on hitting submitOmr controller" (Thrown TypeError) |} ∧
    calls = [Exam_findOne].
Proof.
  destruct (submitOmr_never_answers_not_found (RT := sampleRuntime)
              sampleEnvironment ∅ example_request)
    as (resp & calls & s' & Hrun & _ & _ & Hnone & _).
  destruct (Hnone ∅ eq_refl eq_refl) as (Hresp & Hcalls & _).
  exists resp, calls, s'. split; [exact Hrun|]. split; [exact Hresp | exact Hcalls].
Defined.
